(** * Reference counting and callback handles of mini_chromium (winbase / crbase)

    A shallow embedding of
      - [winbase/memory/ref_counted.h]            (RefCountedBase, RefCounted,
                                                   RefCountedThreadSafeBase),
      - [winbase/functional/callback_internal.cc] (BindStateBase, CallbackBase,
                                                   CallbackBaseCopyable),
      - [crbase/callback_internal.h]              (CallbackBase::is_null),
    followed by the properties of the specification that concern them, and
    of
      - [winbase/observer_list.h]                 (ObserverList and its iterator),
      - [winbase/strings/utf_string_conversion_utils.h] and
        [winbase/strings/utf_string_conversions.cc]
                                                  (IsValidCodepoint,
                                                   IsValidCharacter, the UTF-16
                                                   reader, the ASCII conversions),
      - [winbase/atomic/atomic_sequence_num.h]    (AtomicSequenceNumber),
      - [crbase/files/scoped_temp_dir.cc]         (ScopedTempDir),
      - [winbase/files/file.cc]                   (File::ErrorToString),
      - [winbase/threading/thread_task_runner_handle.cc]
                                                  (ThreadTaskRunnerHandle),
    with further properties of the code.

    Member functions that mutate [mutable] fields are computations in a small
    state-and-crash monad; a [uint32_t] is a [Z] reduced modulo [2^32]; the
    objects that callback handles point to live in a [gmap] from addresses. *)

From Stdlib Require Import ZArith Lia.
From Stdlib Require String.
From stdpp Require Import base option list gmap.

Local Open Scope Z_scope.

(* ===================================================================== *)
(** ** Computations: state passing with fatal outcomes                    *)
(* ===================================================================== *)

Module Exec.

(** The [DCHECK]s that appear (commented out) in the sources. *)
Inductive Dcheck :=
| DcheckNotInDtor          (* DCHECK(!in_dtor_) *)
| DcheckNeedsAdoptRef      (* DCHECK(!needs_adopt_ref_) in AddRef *)
| DcheckAdoptedTwice       (* DCHECK(needs_adopt_ref_) in Adopted *)
| DcheckBindState.         (* DCHECK(bind_state_) in IsCancelled *)

(** What ends a run of the program abnormally. *)
Inductive Fatal :=
| DcheckFailed (d : Dcheck)   (* a DCHECK fired *)
| NullDereference             (* [p->m] with [p == nullptr] *)
| WildPointer.                (* [p->m] with [p] not a live object *)

Inductive Outcome (S A : Type) :=
| Done (a : A) (s : S)
| Crash (f : Fatal).
Arguments Done {S A} a s.
Arguments Crash {S A} f.

Definition M (S A : Type) : Type := S -> Outcome S A.

Definition ret {S A} (a : A) : M S A := fun s => Done a s.

Definition bind {S A B} (m : M S A) (k : A -> M S B) : M S B :=
  fun s => match m s with
           | Done a s' => k a s'
           | Crash f => Crash f
           end.

Definition gets {S A} (f : S -> A) : M S A := fun s => Done (f s) s.
Definition modify {S} (f : S -> S) : M S unit := fun s => Done tt (f s).
Definition crash {S A} (f : Fatal) : M S A := fun _ => Crash f.

(** Run a computation on a sub-object reached through a getter/setter. *)
Definition zoom {S T A} (get : S -> T) (set : T -> S -> S) (m : M T A) : M S A :=
  fun s => match m (get s) with
           | Done a t => Done a (set t s)
           | Crash f => Crash f
           end.


Definition value_of {S A} (o : Outcome S A) : option A :=
  match o with Done a _ => Some a | Crash _ => None end.

Definition dcheck_failures {S A} (o : Outcome S A) : nat :=
  match o with Crash (DcheckFailed _) => 1%nat | _ => 0%nat end.

End Exec.
Import Exec.

Declare Scope exec_scope.
Delimit Scope exec_scope with exec.
Notation "'let*' x := m 'in' k" := (bind m (fun x => k))
  (at level 10, x name, m at level 100, k at level 200) : exec_scope.
Notation "m >> k" := (bind m (fun _ => k))
  (at level 100, k at level 200, right associativity) : exec_scope.
Local Open Scope exec_scope.

(* ===================================================================== *)
(** ** winbase/memory/ref_counted.h                                       *)
(* ===================================================================== *)

(** [uint32_t] arithmetic: every result is reduced modulo [2^32]. *)
Definition uint32_max : Z := 4294967295.
Definition wrap32 (z : Z) : Z := z mod 2 ^ 32.
Definition is_uint32 (z : Z) : Prop := 0 <= z <= uint32_max.

(** The two construction policies ([StartRefCountFromZeroTag] and
    [StartRefCountFromOneTag] of scoped_refptr.h). *)
Inductive StartRefCountTag :=
| kStartRefCountFromZeroTag
| kStartRefCountFromOneTag.

Module RefCountedBase.

(** [class RefCountedBase]: the only data member left in this source is
    [mutable uint32_t ref_count_ = 0]; [needs_adopt_ref_], [in_dtor_] and
    [sequence_checker_] are commented out together with every DCHECK. *)
Record t := mk { ref_count_ : Z }.

(** [explicit RefCountedBase(StartRefCountFromZeroTag) {}] and
    [explicit RefCountedBase(StartRefCountFromOneTag) : ref_count_(1) {}]. *)
Definition ctor (tag : StartRefCountTag) : t :=
  match tag with
  | kStartRefCountFromZeroTag => mk 0
  | kStartRefCountFromOneTag => mk 1
  end.

(** [bool HasOneRef() const { return ref_count_ == 1; }] *)
Definition HasOneRef : M t bool :=
  gets (fun o => ref_count_ o =? 1).

(** [void AddRefImpl() const { ++ref_count_; }] *)
Definition AddRefImpl : M t unit :=
  modify (fun o => mk (wrap32 (ref_count_ o + 1))).

(** [void AddRef() const { AddRefImpl(); }]: the DCHECK block before the
    call is commented out. *)
Definition AddRef : M t unit := AddRefImpl.

(** [bool Release() const { --ref_count_; return ref_count_ == 0; }] *)
Definition Release : M t bool :=
  modify (fun o => mk (wrap32 (ref_count_ o - 1))) >>
  gets (fun o => ref_count_ o =? 0).

(** [bool IsOnValidSequence() const { return true; }] *)
Definition IsOnValidSequence : M t bool := ret true.

(** [void Adopted() const {}]: the body is entirely commented out. *)
Definition Adopted : M t unit := ret tt.

End RefCountedBase.

Module RefCounted.

(** [template <class T, typename Traits> class RefCounted
      : public subtle::RefCountedBase]:
    an object of the derived class is its RefCountedBase sub-object
    together with the members [T] adds. *)
Record t (T : Type) := mk { base : RefCountedBase.t; self : T }.
Arguments mk {T} base self.
Arguments base {T} _.
Arguments self {T} _.

(** The [Traits] template parameter: [static void Destruct(const T* x)]. *)
Class Traits (T : Type) := Destruct : M (t T) unit.

Definition on_base {T A} (m : M RefCountedBase.t A) : M (t T) A :=
  zoom base (fun b o => mk b (self o)) m.

(** [RefCounted() : subtle::RefCountedBase(T::kRefCountPreference) {}] *)
Definition ctor {T} (kRefCountPreference : StartRefCountTag) (members : T) : t T :=
  mk (RefCountedBase.ctor kRefCountPreference) members.

(** [void AddRef() const { subtle::RefCountedBase::AddRef(); }] *)
Definition AddRef {T} : M (t T) unit := on_base RefCountedBase.AddRef.

(** [void Release() const {
       if (subtle::RefCountedBase::Release()) {
         Traits::Destruct(static_cast<const T*>(this));
       }
     }] *)
Definition Release {T} `{Traits T} : M (t T) unit :=
  let* self_delete := on_base RefCountedBase.Release in
  if (self_delete : bool) then Destruct else ret tt.

(** A payload class whose only member counts the runs of its destructor,
    and [DefaultRefCountedTraits<T>::Destruct], which is [delete x]: [~T]
    runs once and the object is freed.  The freed object stays in the state
    only for the run to be counted: a pointer to it dangles from then on, and
    [call] below makes every further call through it a use after free. *)
Definition Counted : Type := nat.

#[export] Instance DefaultRefCountedTraits : Traits Counted :=
  modify (fun o => mk (base o) (S (self o))).

Definition count (o : t Counted) : Z := RefCountedBase.ref_count_ (base o).
Definition destructor_runs (o : t Counted) : nat := self o.

(** Whether [delete] has freed the payload. *)
Definition freed (o : t Counted) : bool := negb (Nat.eqb (destructor_runs o) 0).

(** A client's calls [p->AddRef()] and [p->Release()] through a pointer [p]
    to one payload, and their execution in order.  Once the payload is freed
    [p] does not point at a live object any more. *)
Inductive Call := CallAddRef | CallRelease.

Definition call (c : Call) : M (t Counted) unit :=
  let* dangling := gets freed in
  if (dangling : bool) then crash WildPointer
  else match c with
       | CallAddRef => AddRef
       | CallRelease => Release
       end.

Fixpoint calls (cs : list Call) : M (t Counted) unit :=
  match cs with
  | [] => ret tt
  | c :: cs' => call c >> calls cs'
  end.

(** The payload as a client finds it when [n] handles own it. *)
Definition with_count (n : Z) : t Counted := mk (RefCountedBase.mk n) 0%nat.

(** Every call of [cs] is made on a payload whose destructor has not run. *)
Fixpoint calls_on_live (cs : list Call) (o : t Counted) : bool :=
  match cs with
  | [] => true
  | c :: cs' =>
      Nat.eqb (destructor_runs o) 0 &&
      match call c o with
      | Done _ o' => calls_on_live cs' o'
      | Crash _ => false
      end
  end.


(** One call on a live payload as a function: [call] on a payload that is
    not freed is [Done] of this. *)
Definition step (c : Call) (o : t Counted) : t Counted :=
  match c with
  | CallAddRef => mk (RefCountedBase.mk (wrap32 (count o + 1))) (self o)
  | CallRelease =>
      mk (RefCountedBase.mk (wrap32 (count o - 1)))
         (if wrap32 (count o - 1) =? 0 then S (self o) else self o)
  end.

(** How many of the calls are [AddRef]s. *)
Fixpoint adds (cs : list Call) : Z :=
  match cs with
  | [] => 0
  | CallAddRef :: cs' => 1 + adds cs'
  | CallRelease :: cs' => adds cs'
  end.

(** How many of the calls are [Release]s. *)
Fixpoint releases (cs : list Call) : Z :=
  match cs with
  | [] => 0
  | CallAddRef :: cs' => releases cs'
  | CallRelease :: cs' => 1 + releases cs'
  end.


(** What a client may rely on before the calls [cs]: the destructor has not
    run, at least one reference is held, and the AddRefs still to come fit
    in the counter. *)
Definition live (cs : list Call) (o : t Counted) : Prop :=
  destructor_runs o = 0%nat /\ 1 <= count o /\ count o + adds cs <= uint32_max.

End RefCounted.

Module DebugRefCountedBase.

(** Modelled from the spec: the debug-build count of section 4.1 and 7 (a
    one-shot "needs adoption" flag checked on AddRef, contract violations
    fatal through an assertion), which ref_counted.h keeps only as
    commented-out lines.  It is not the code of this build; it is what the
    build is compared with. *)
Record t := mk { ref_count_ : Z; needs_adopt_ref_ : bool; in_dtor_ : bool }.

(** Modelled from the spec: a start-from-one payload is created with the
    flag raised ([needs_adopt_ref_ = true] in the commented-out line). *)
Definition ctor (tag : StartRefCountTag) : t :=
  match tag with
  | kStartRefCountFromZeroTag => mk 0 false false
  | kStartRefCountFromOneTag => mk 1 true false
  end.

(** Modelled from the spec: an assertion is fatal when its condition is
    false. *)
Definition DCHECK {S} (cond : bool) (d : Dcheck) : M S unit :=
  if cond then ret tt else crash (DcheckFailed d).

(** Modelled from the spec: AddRef checks that the payload is not being
    destroyed and that it does not still need adoption, then increments. *)
Definition AddRef : M t unit :=
  let* in_dtor := gets in_dtor_ in
  DCHECK (negb in_dtor) DcheckNotInDtor >>
  let* needs := gets needs_adopt_ref_ in
  DCHECK (negb needs) DcheckNeedsAdoptRef >>
  modify (fun o => mk (wrap32 (ref_count_ o + 1)) (needs_adopt_ref_ o) (in_dtor_ o)).

(** Modelled from the spec: the adopting factory clears the one-shot flag;
    adopting twice is a contract violation. *)
Definition Adopted : M t unit :=
  let* needs := gets needs_adopt_ref_ in
  DCHECK needs DcheckAdoptedTwice >>
  modify (fun o => mk (ref_count_ o) false (in_dtor_ o)).

(** Modelled from the spec: Release decrements, refuses a payload already
    in destruction, and reports whether the count reached zero. *)
Definition Release : M t bool :=
  modify (fun o => mk (wrap32 (ref_count_ o - 1)) (needs_adopt_ref_ o) (in_dtor_ o)) >>
  let* in_dtor := gets in_dtor_ in
  DCHECK (negb in_dtor) DcheckNotInDtor >>
  modify (fun o => mk (ref_count_ o) (needs_adopt_ref_ o)
                      (if ref_count_ o =? 0 then true else in_dtor_ o)) >>
  gets (fun o => ref_count_ o =? 0).

(** The members that exist in this build. *)
Definition erase (o : t) : RefCountedBase.t := RefCountedBase.mk (ref_count_ o).

End DebugRefCountedBase.

Module AtomicRefCount.

(** Modelled from the spec: atomic_ref_count.h is not among the sources.
    Section 4.1: the thread-safe variant keeps an atomic integer and changes
    it by atomic fetch-add / fetch-sub. *)
Record t := mk { ref_count_ : Z }.

(** Modelled from the spec: fetch-add of one. *)
Definition Increment : M t unit := modify (fun c => mk (ref_count_ c + 1)).

(** Modelled from the spec: fetch-sub of one; the result says whether the
    count is still non-zero, which is how [ReleaseImpl] reads it. *)
Definition Decrement : M t bool :=
  modify (fun c => mk (ref_count_ c - 1)) >>
  gets (fun c => negb (ref_count_ c =? 0)).

End AtomicRefCount.

Module RefCountedThreadSafeBase.

(** [mutable AtomicRefCount ref_count_{0};] *)
Record t := mk { ref_count_ : AtomicRefCount.t }.

(** [RefCountedThreadSafeBase(StartRefCountFromZeroTag) {}] and
    [RefCountedThreadSafeBase(StartRefCountFromOneTag) : ref_count_(1) {}]. *)
Definition ctor (tag : StartRefCountTag) : t :=
  match tag with
  | kStartRefCountFromZeroTag => mk (AtomicRefCount.mk 0)
  | kStartRefCountFromOneTag => mk (AtomicRefCount.mk 1)
  end.

Definition on_count {A} (m : M AtomicRefCount.t A) : M t A :=
  zoom ref_count_ (fun c _ => mk c) m.

(** [void AddRefImpl() const { ref_count_.Increment(); }] *)
Definition AddRefImpl : M t unit := on_count AtomicRefCount.Increment.

(** [bool ReleaseImpl() const {
       if (!ref_count_.Decrement()) { return true; }
       return false;
     }] *)
Definition ReleaseImpl : M t bool :=
  let* still_referenced := on_count AtomicRefCount.Decrement in
  if negb still_referenced then ret true else ret false.

(** [bool Release() const { return ReleaseImpl(); }] *)
Definition Release : M t bool := ReleaseImpl.

(** [void AddRef() const { AddRefImpl(); }] *)
Definition AddRef : M t unit := AddRefImpl.

(** [void Adopted() const {}] *)
Definition Adopted : M t unit := ret tt.

Definition count (o : t) : Z := AtomicRefCount.ref_count_ (ref_count_ o).

End RefCountedThreadSafeBase.

(* ===================================================================== *)
(** ** winbase/functional/callback_internal.cc                            *)
(* ===================================================================== *)

(** Addresses of heap objects, and opaque code addresses (the source's
    [InvokeFuncStorage] is a pointer to a function of no arguments). *)
Definition addr : Type := positive.
Definition InvokeFuncStorage : Type := N.
Definition DestructorFunc : Type := N.

Module BindStateBase.

(** Values of the [is_cancelled] function-pointer type: the address of
    [ReturnFalse], or of a predicate a binder supplies, which looks at the
    state captured by the concrete bind state. *)
Inductive IsCancelledFunc :=
| addr_of_ReturnFalse
| addr_of_query (query : list Z -> bool).

(** The members the constructor in callback_internal.cc initialises, on
    top of the reference count of the base class.  The class declaration
    (winbase's callback_internal.h) is not among the sources: that the base
    is [RefCountedThreadSafe<BindStateBase, BindStateBaseRefCountTraits>] is
    read off the [Traits::Destruct] that callback_internal.cc defines for
    it. *)
Record t := mk {
  ref_counted : RefCountedThreadSafeBase.t;
  polymorphic_invoke_ : InvokeFuncStorage;
  destructor_ : DestructorFunc;
  is_cancelled_ : IsCancelledFunc
}.

(** [bool ReturnFalse(const BindStateBase* ) { return false; }] *)
Definition ReturnFalse (bind_state : t) : bool := false.

(** [BindStateBase(polymorphic_invoke, destructor, is_cancelled)
      : polymorphic_invoke_(polymorphic_invoke), destructor_(destructor),
        is_cancelled_(is_cancelled) {}];
    [kRefCountPreference] is the policy of the base-class constructor. *)
Definition ctor3 (kRefCountPreference : StartRefCountTag)
    (polymorphic_invoke : InvokeFuncStorage) (destructor : DestructorFunc)
    (is_cancelled : IsCancelledFunc) : t :=
  mk (RefCountedThreadSafeBase.ctor kRefCountPreference)
     polymorphic_invoke destructor is_cancelled.

(** [BindStateBase(polymorphic_invoke, destructor)
      : BindStateBase(polymorphic_invoke, destructor, &ReturnFalse) {}] *)
Definition ctor2 (kRefCountPreference : StartRefCountTag)
    (polymorphic_invoke : InvokeFuncStorage) (destructor : DestructorFunc) : t :=
  ctor3 kRefCountPreference polymorphic_invoke destructor addr_of_ReturnFalse.

Definition on_ref_counted {A} (m : M RefCountedThreadSafeBase.t A) : M t A :=
  zoom ref_counted
       (fun rc o => mk rc (polymorphic_invoke_ o) (destructor_ o) (is_cancelled_ o)) m.

Definition count (o : t) : Z := RefCountedThreadSafeBase.count (ref_counted o).

End BindStateBase.

(** Modelled from the spec: the concrete bind state behind the erased base
    (its templates are not among the sources), "a single ref-counted bind
    state holding type-erased storage": the base sub-object and the values
    captured at bind time. *)
Record BindState := mkBindState {
  bind_base : BindStateBase.t;
  bound_args_ : list Z
}.

(** The bind state [bs] with its reference count changed by [d]. *)
Definition add_count (d : Z) (bs : BindState) : BindState :=
  let b := bind_base bs in
  mkBindState
    (BindStateBase.mk
       (RefCountedThreadSafeBase.mk (AtomicRefCount.mk (BindStateBase.count b + d)))
       (BindStateBase.polymorphic_invoke_ b)
       (BindStateBase.destructor_ b)
       (BindStateBase.is_cancelled_ b))
    (bound_args_ bs).

(** The heap of bind states, and the ones destroyed so far (latest first)
    with the state they were destroyed in. *)
Record World := mkWorld {
  objects : gmap addr BindState;
  destroyed : list (addr * BindState)
}.

Definition count_at (w : World) (p : addr) : option Z :=
  (fun bs => BindStateBase.count (bind_base bs)) <$> objects w !! p.

(** [p->m(...)] for a non-null [p]: the member runs on the object at [p]. *)
Definition at_object {A} (p : addr) (m : M BindStateBase.t A) : M World A :=
  fun w =>
    match objects w !! p with
    | None => Crash WildPointer
    | Some bs =>
        match m (bind_base bs) with
        | Done a b' =>
            Done a (mkWorld (<[p := mkBindState b' (bound_args_ bs)]> (objects w))
                            (destroyed w))
        | Crash f => Crash f
        end
    end.

(** Modelled from the spec: the destructor thunk, whose definitions are not
    among the sources, "knows how to destroy the concrete derived
    bind-state": the object at [p] stops being live. *)
Definition call_destructor (destructor : DestructorFunc) (p : addr) : M World unit :=
  fun w =>
    match objects w !! p with
    | None => Crash WildPointer
    | Some bs => Done tt (mkWorld (delete p (objects w)) ((p, bs) :: destroyed w))
    end.

(** Modelled from the spec: [BindStateBase::IsCancelled()] is declared in a
    header that is not among the sources; it "delegates to the bind state's
    cancellation predicate", that is [return is_cancelled_(this);]. *)
Definition BindStateBase_IsCancelled (bs : BindState) : bool :=
  match BindStateBase.is_cancelled_ (bind_base bs) with
  | BindStateBase.addr_of_ReturnFalse => BindStateBase.ReturnFalse (bind_base bs)
  | BindStateBase.addr_of_query query => query (bound_args_ bs)
  end.

Module BindStateBaseRefCountTraits.

(** [void BindStateBaseRefCountTraits::Destruct(const BindStateBase* bind_state) {
       bind_state->destructor_(bind_state);
     }] *)
Definition Destruct (bind_state : addr) : M World unit :=
  let* destructor := at_object bind_state (gets BindStateBase.destructor_) in
  call_destructor destructor bind_state.

End BindStateBaseRefCountTraits.

(** [RefCountedThreadSafe<BindStateBase, BindStateBaseRefCountTraits>], the
    counting of a bind state through a pointer to it (ref_counted.h). *)
Module RefCountedThreadSafe.

(** [void AddRef() const { subtle::RefCountedThreadSafeBase::AddRef(); }] *)
Definition AddRef (this : addr) : M World unit :=
  at_object this (BindStateBase.on_ref_counted RefCountedThreadSafeBase.AddRef).

(** [void Release() const {
       if (subtle::RefCountedThreadSafeBase::Release()) {
         Traits::Destruct(static_cast<const T*>(this));
       }
     }] *)
Definition Release (this : addr) : M World unit :=
  let* self_delete :=
    at_object this (BindStateBase.on_ref_counted RefCountedThreadSafeBase.Release) in
  if (self_delete : bool) then BindStateBaseRefCountTraits.Destruct this else ret tt.

End RefCountedThreadSafe.

Module scoped_refptr.

(** Modelled from the spec: scoped_refptr.h is not among the sources.
    Section 3: the handle is "exactly one of: null, or pointing at a
    payload". *)
Definition t : Type := option addr.

(** Modelled from the spec: "Copy: increments count, aliases pointer." *)
Definition copy_ctor (r : t) : M World t :=
  match r with
  | Some p => RefCountedThreadSafe.AddRef p >> ret (Some p)
  | None => ret None
  end.

(** Modelled from the spec: "Move: transfers pointer, leaves source null,
    no count change."  The result is (source afterwards, new handle). *)
Definition move_ctor (r : t) : M World (t * t) := ret (None, r).

(** Modelled from the spec: "Destruction/reset: decrements count, nulls
    pointer; triggers payload destruction if count reaches zero." *)
Definition dtor (this : t) : M World unit :=
  match this with
  | Some p => RefCountedThreadSafe.Release p
  | None => ret tt
  end.

(** Modelled from the spec: copy assignment copies the right-hand side and
    destroys the handle's previous value. *)
Definition copy_assign (this r : t) : M World t :=
  let* fresh_copy := copy_ctor r in
  dtor this >> ret fresh_copy.

(** Modelled from the spec: move assignment takes the right-hand side's
    pointer and destroys the handle's previous value.  The result is
    (source afterwards, this afterwards). *)
Definition move_assign (this r : t) : M World (t * t) :=
  let* moved := move_ctor r in
  dtor this >> ret moved.

(** Modelled from the spec: [= nullptr] is a reset. *)
Definition assign_nullptr (this : t) : M World t := dtor this >> ret None.

(** Modelled from the spec: "Adopt construction: wraps a freshly
    constructed payload without incrementing"; [AdoptRef] calls
    [Adopted()] on the payload. *)
Definition AdoptRef (p : addr) : M World t :=
  at_object p (BindStateBase.on_ref_counted RefCountedThreadSafeBase.Adopted) >>
  ret (Some p).

(** Modelled from the spec: construction from a raw pointer takes a new
    reference. *)
Definition from_raw (p : addr) : M World t := copy_ctor (Some p).

(** Modelled from the spec: [get()] is the raw pointer. *)
Definition get (this : t) : option addr := this.

(** Modelled from the spec: handles compare by the identity of what they
    point to. *)
Definition eq (a b : t) : bool := bool_decide (get a = get b).

(** Modelled from the spec: [operator->]; a null handle has nothing to
    select a member of. *)
Definition arrow {A} (this : t) (m : M BindState A) : M World A :=
  match this with
  | None => crash NullDereference
  | Some p =>
      fun w =>
        match objects w !! p with
        | None => Crash WildPointer
        | Some bs =>
            match m bs with
            | Done a bs' => Done a (mkWorld (<[p := bs']> (objects w)) (destroyed w))
            | Crash f => Crash f
            end
        end
  end.

End scoped_refptr.

Module CallbackBase.

(** [scoped_refptr<BindStateBase> bind_state_;] *)
Record t := mk { bind_state_ : scoped_refptr.t }.

(** crbase/callback_internal.h:
    [bool is_null() const { return bind_state_.get() == NULL; }] *)
Definition is_null (this : t) : bool :=
  bool_decide (scoped_refptr.get (bind_state_ this) = None).

(** [CallbackBase::CallbackBase(const CallbackBaseCopyable& c)
      : bind_state_(c.bind_state_) {}] *)
Definition copy_ctor (c : t) : M World t :=
  let* r := scoped_refptr.copy_ctor (bind_state_ c) in ret (mk r).

(** [CallbackBase& CallbackBase::operator=(const CallbackBaseCopyable& c) {
       bind_state_ = c.bind_state_; return *this; }] *)
Definition copy_assign (this c : t) : M World t :=
  let* r := scoped_refptr.copy_assign (bind_state_ this) (bind_state_ c) in ret (mk r).

(** [CallbackBase::CallbackBase(CallbackBaseCopyable&& c) noexcept
      : bind_state_(std::move(c.bind_state_)) {}]
    The result is ([c] afterwards, the new callback). *)
Definition move_ctor (c : t) : M World (t * t) :=
  let* moved := scoped_refptr.move_ctor (bind_state_ c) in
  ret (mk (fst moved), mk (snd moved)).

(** [CallbackBase& CallbackBase::operator=(CallbackBaseCopyable&& c) noexcept {
       bind_state_ = std::move(c.bind_state_); return *this; }]
    The result is ([c] afterwards, [*this] afterwards). *)
Definition move_assign (this c : t) : M World (t * t) :=
  let* moved := scoped_refptr.move_assign (bind_state_ this) (bind_state_ c) in
  ret (mk (fst moved), mk (snd moved)).

(** [void CallbackBase::Reset() { bind_state_ = nullptr; }] *)
Definition Reset (this : t) : M World t :=
  let* r := scoped_refptr.assign_nullptr (bind_state_ this) in ret (mk r).

(** [bool CallbackBase::IsCancelled() const {
       ///DCHECK(bind_state_);
       return bind_state_->IsCancelled();
     }] *)
Definition IsCancelled (this : t) : M World bool :=
  scoped_refptr.arrow (bind_state_ this) (gets BindStateBase_IsCancelled).

(** [bool CallbackBase::EqualsInternal(const CallbackBase& other) const {
       return bind_state_ == other.bind_state_;
     }] *)
Definition EqualsInternal (this other : t) : bool :=
  scoped_refptr.eq (bind_state_ this) (bind_state_ other).

(** [CallbackBase::~CallbackBase() = default;] *)
Definition dtor (this : t) : M World unit := scoped_refptr.dtor (bind_state_ this).

End CallbackBase.

Module CallbackBaseCopyable.

(** [CallbackBaseCopyable::CallbackBaseCopyable(const CallbackBaseCopyable& c) {
       bind_state_ = c.bind_state_;
     }]
    The member starts out null and is then assigned. *)
Definition copy_ctor (c : CallbackBase.t) : M World CallbackBase.t :=
  let this := CallbackBase.mk None in
  let* r := scoped_refptr.copy_assign (CallbackBase.bind_state_ this)
                                      (CallbackBase.bind_state_ c) in
  ret (CallbackBase.mk r).

(** [CallbackBaseCopyable& CallbackBaseCopyable::operator=(
       const CallbackBaseCopyable& c) { bind_state_ = c.bind_state_; return *this; }] *)
Definition copy_assign (this c : CallbackBase.t) : M World CallbackBase.t :=
  let* r := scoped_refptr.copy_assign (CallbackBase.bind_state_ this)
                                      (CallbackBase.bind_state_ c) in
  ret (CallbackBase.mk r).

End CallbackBaseCopyable.

(** Modelled from the spec: the bind operation, whose templates are not
    among the sources.  Section 2: "the binder allocates a single ref-counted
    bind state"; the callback it returns holds the first reference, taken by
    adoption under the start-from-one policy and by an increment otherwise. *)
Definition Bind (kRefCountPreference : StartRefCountTag)
    (polymorphic_invoke : InvokeFuncStorage) (destructor : DestructorFunc)
    (args : list Z) : M World CallbackBase.t :=
  let* p := (fun w =>
      let p := fresh (dom (objects w)) in
      let bs := mkBindState
                  (BindStateBase.ctor2 kRefCountPreference polymorphic_invoke destructor)
                  args in
      Done p (mkWorld (<[p := bs]> (objects w)) (destroyed w))) in
  let* r := match kRefCountPreference with
            | kStartRefCountFromOneTag => scoped_refptr.AdoptRef p
            | kStartRefCountFromZeroTag => scoped_refptr.from_raw p
            end in
  ret (CallbackBase.mk r).

(** A handle is well formed in a world when it is null or points at a live
    bind state (section 3 of the specification). *)
Definition handle_ok (w : World) (c : CallbackBase.t) : Prop :=
  match CallbackBase.bind_state_ c with
  | None => True
  | Some p => is_Some (objects w !! p)
  end.

(** The world after the count of the bind state [bs] at [p] went up by
    one, and the world after one reference to the bind state [bs] at [p] was
    released: its count is one lower, and with its last reference the bind
    state is destroyed. *)
Definition after_add_ref (w : World) (p : addr) (bs : BindState) : World :=
  mkWorld (<[p := add_count 1 bs]> (objects w)) (destroyed w).

Definition after_release (w : World) (p : addr) (bs : BindState) : World :=
  if BindStateBase.count (bind_base bs) - 1 =? 0
  then mkWorld (delete p (objects w)) ((p, add_count (-1) bs) :: destroyed w)
  else mkWorld (<[p := add_count (-1) bs]> (objects w)) (destroyed w).

(** A small world for examples: one bind state, built by the two-argument
    constructor and capturing the value 3, referenced [n] times. *)
Definition sample_bind_state (n : Z) : BindState :=
  add_count n (mkBindState (BindStateBase.ctor2 kStartRefCountFromZeroTag 7%N 9%N) [3]).

Definition sample_world (n : Z) : World :=
  mkWorld {[ 1%positive := sample_bind_state n ]} [].

(* ===================================================================== *)
(** ** winbase/observer_list.h                                            *)
(* ===================================================================== *)

(** Computations over a state that can end in a failure of type [E]. *)
Module Try.

Inductive Result (E S A : Type) :=
| Ok (a : A) (s : S)
| Fail (e : E).
Arguments Ok {E S A} a s.
Arguments Fail {E S A} e.

Definition M (E S A : Type) : Type := S -> Result E S A.

Definition ret {E S A} (a : A) : M E S A := fun s => Ok a s.

Definition bind {E S A B} (m : M E S A) (k : A -> M E S B) : M E S B :=
  fun s => match m s with
           | Ok a s' => k a s'
           | Fail e => Fail e
           end.

Definition gets {E S A} (f : S -> A) : M E S A := fun s => Ok (f s) s.
Definition modify {E S} (f : S -> S) : M E S unit := fun s => Ok tt (f s).
Definition fail {E S A} (e : E) : M E S A := fun _ => Fail e.

End Try.

Declare Scope try_scope.
Delimit Scope try_scope with try.
Notation "'let*' x := m 'in' k" := (Try.bind m (fun x => k))
  (at level 10, x name, m at level 100, k at level 200) : try_scope.
Notation "m >> k" := (Try.bind m (fun _ => k))
  (at level 100, k at level 200, right associativity) : try_scope.

Module ObserverList.

Local Open Scope try_scope.
Import Try.

(** [enum class ObserverListPolicy { ALL, EXISTING_ONLY }] *)
Inductive ObserverListPolicy := ALL | EXISTING_ONLY.

(** The assertions of the header, by the place they stand at. *)
Inductive Site :=
| AddObserver_obs            (* WINBASE_DCHECK(obs) *)
| AddObserver_twice          (* WINBASE_NOTREACHED() *)
| RemoveObserver_obs         (* WINBASE_DCHECK(obs) *)
| RemoveObserver_count       (* WINBASE_DCHECK_GE(live_iterator_count_, 0) *)
| Clear_count                (* WINBASE_DCHECK_GE(live_iterator_count_, 0) *)
| Dtor_not_empty             (* WINBASE_DCHECK(observers_.empty()) *)
| Iter_list                  (* WINBASE_DCHECK(list_) *)
| Iter_reentrancy            (* WINBASE_DCHECK(allow_reentrancy || !live_iterator_count_) *)
| Iter_dtor_count            (* WINBASE_DCHECK_GT(list_->live_iterator_count_, 0) *)
| GetCurrent_index           (* WINBASE_DCHECK_LT(index_, clamped_max_index()) *)
| Deref_current.             (* WINBASE_DCHECK(current) *)

Inductive Failure :=
| DcheckFailed (site : Site)   (* an assertion fired, in a build that has them *)
| NullPointer                  (* [list_->] or [*current] on a null pointer *)
| OutOfRange                   (* [observers_[index_]] past the end *)
| OutOfFuel.                   (* the bound given to a loop of the model ran out *)

(** A pointer to an observer; [None] is [nullptr]. *)
Abbreviation Observer := (option positive).

(** [std::vector<ObserverType*> observers_; int live_iterator_count_ = 0;
     const ObserverListPolicy policy_ = ObserverListPolicy::ALL;]
    The count is an [int]; it is held as an integer, and the overflow of an
    [int] (undefined behaviour, after [2^31] live iterators) is left out. *)
Record t := mk {
  observers_ : list Observer;
  live_iterator_count_ : Z;
  policy_ : ObserverListPolicy
}.

(** [ObserverList() = default;] and
    [explicit ObserverList(ObserverListPolicy policy) : policy_(policy) {}] *)
Definition ctor_default : t := mk [] 0 ALL.
Definition ctor (policy : ObserverListPolicy) : t := mk [] 0 policy.

Definition set_observers (l : list Observer) (o : t) : t :=
  mk l (live_iterator_count_ o) (policy_ o).
Definition set_count (n : Z) (o : t) : t :=
  mk (observers_ o) n (policy_ o).

Section Build.

(** Whether the build has its DCHECKs (logging.h is not among the sources:
    an assertion is fatal where they are compiled in and absent elsewhere),
    and the template parameters of the list. *)
Variable DCHECK_IS_ON : bool.
Variable check_empty : bool.
Variable allow_reentrancy : bool.
(** [std::numeric_limits<size_t>::max()] *)
Variable SIZE_MAX : nat.

Definition DCHECK (cond : bool) (site : Site) : M Failure t unit :=
  if DCHECK_IS_ON && negb cond then fail (DcheckFailed site) else ret tt.

(** [bool HasObserver(const ObserverType* obs) const {
       return ContainsValue(observers_, obs); }] *)
Definition HasObserver (obs : Observer) (o : t) : bool :=
  bool_decide (obs ∈ observers_ o).

(** [void AddObserver(ObserverType* obs) {
       WINBASE_DCHECK(obs);
       if (HasObserver(obs)) { WINBASE_NOTREACHED() << ...; return; }
       observers_.push_back(obs);
     }] *)
Definition AddObserver (obs : Observer) : M Failure t unit :=
  DCHECK (bool_decide (is_Some obs)) AddObserver_obs >>
  let* present := gets (HasObserver obs) in
  if (present : bool)
  then DCHECK false AddObserver_twice
  else modify (fun o => set_observers (observers_ o ++ [obs]) o).

(** [std::find(observers_.begin(), observers_.end(), obs)]: the index of the
    first slot that holds [obs]. *)
Definition find (obs : Observer) (l : list Observer) : option nat :=
  fst <$> list_find (fun x => x = obs) l.

(** [void RemoveObserver(const ObserverType* obs) {
       WINBASE_DCHECK(obs);
       const auto it = std::find(observers_.begin(), observers_.end(), obs);
       if (it == observers_.end()) return;
       WINBASE_DCHECK_GE(live_iterator_count_, 0);
       if (live_iterator_count_) { *it = nullptr; } else { observers_.erase(it); }
     }] *)
Definition RemoveObserver (obs : Observer) : M Failure t unit :=
  DCHECK (bool_decide (is_Some obs)) RemoveObserver_obs >>
  let* it := gets (fun o => find obs (observers_ o)) in
  match it with
  | None => ret tt
  | Some i =>
      let* count := gets live_iterator_count_ in
      DCHECK (0 <=? count) RemoveObserver_count >>
      if negb (count =? 0)
      then modify (fun o => set_observers (<[i := None]> (observers_ o)) o)
      else modify (fun o => set_observers (delete i (observers_ o)) o)
  end.

(** [void Clear() {
       WINBASE_DCHECK_GE(live_iterator_count_, 0);
       if (live_iterator_count_) {
         std::fill(observers_.begin(), observers_.end(), nullptr);
       } else { observers_.clear(); }
     }] *)
Definition Clear : M Failure t unit :=
  let* count := gets live_iterator_count_ in
  DCHECK (0 <=? count) Clear_count >>
  if negb (count =? 0)
  then modify (fun o => set_observers (replicate (length (observers_ o)) None) o)
  else modify (set_observers []).

(** [bool might_have_observers() const { return !observers_.empty(); }] *)
Definition might_have_observers (o : t) : bool :=
  negb (bool_decide (observers_ o = [])).

(** [void Compact() {
       observers_.erase(std::remove(observers_.begin(), observers_.end(), nullptr),
                        observers_.end()); }] *)
Definition Compact : M Failure t unit :=
  modify (fun o => set_observers (filter (fun x => x <> None) (observers_ o)) o).

(** [~ObserverList() { if (check_empty) { Compact(); WINBASE_DCHECK(observers_.empty()); } }] *)
Definition dtor : M Failure t unit :=
  if check_empty
  then Compact >>
       let* empty := gets (fun o => bool_decide (observers_ o = [])) in
       DCHECK empty Dtor_not_empty
  else ret tt.

(** [class Iter]: [WeakPtr<ObserverList> list_; size_t index_; size_t max_index_;].
    There is one list in the modelled state, so the weak pointer is either
    null ([false]) or points at it ([true]). *)
Record Iter := mkIter { list_ : bool; index_ : nat; max_index_ : nat }.

(** [Iter() : index_(0), max_index_(0) {}] *)
Definition Iter_default : Iter := mkIter false 0 0.

(** [size_t clamped_max_index() const {
       return std::min(max_index_, list_->observers_.size()); }] *)
Definition clamped_max_index (it : Iter) : M Failure t nat :=
  if list_ it
  then gets (fun o => Nat.min (max_index_ it) (length (observers_ o)))
  else fail NullPointer.

(** The loop of [EnsureValidIndex], with a bound on its iterations:
    [while (index_ < max_index && !list_->observers_[index_]) ++index_;] *)
Fixpoint skip_null_slots (fuel : nat) (l : list Observer) (max_index index : nat) : option nat :=
  if (index <? max_index)%nat && bool_decide (l !! index = Some None)
  then match fuel with
       | O => None
       | S fuel' => skip_null_slots fuel' l max_index (S index)
       end
  else Some index.

(** [void EnsureValidIndex() {
       WINBASE_DCHECK(list_);
       const size_t max_index = clamped_max_index();
       while (index_ < max_index && !list_->observers_[index_]) ++index_;
     }] *)
Definition EnsureValidIndex (it : Iter) : M Failure t Iter :=
  DCHECK (list_ it) Iter_list >>
  let* max_index := clamped_max_index it in
  let* l := gets observers_ in
  match skip_null_slots (max_index - index_ it) l max_index (index_ it) with
  | Some i => ret (mkIter (list_ it) i (max_index_ it))
  | None => fail OutOfFuel
  end.

(** [explicit Iter(const ObserverList* list)
       : list_(list->AsWeakPtr()), index_(0),
         max_index_(list->policy_ == ObserverListPolicy::ALL
                        ? std::numeric_limits<size_t>::max()
                        : list->observers_.size()) {
       WINBASE_DCHECK(list_);
       WINBASE_DCHECK(allow_reentrancy || !list_->live_iterator_count_);
       EnsureValidIndex();
       ++list_->live_iterator_count_;
     }] *)
Definition Iter_ctor : M Failure t Iter :=
  let* max_index := gets (fun o => match policy_ o with
                                   | ALL => SIZE_MAX
                                   | EXISTING_ONLY => length (observers_ o)
                                   end) in
  let it := mkIter true 0 max_index in
  DCHECK (list_ it) Iter_list >>
  let* count := gets live_iterator_count_ in
  DCHECK (allow_reentrancy || (count =? 0)) Iter_reentrancy >>
  let* it' := EnsureValidIndex it in
  modify (fun o => set_count (live_iterator_count_ o + 1) o) >>
  ret it'.

(** [~Iter() {
       if (!list_) return;
       WINBASE_DCHECK_GT(list_->live_iterator_count_, 0);
       if (--list_->live_iterator_count_ == 0) list_->Compact();
     }] *)
Definition Iter_dtor (it : Iter) : M Failure t unit :=
  if negb (list_ it) then ret tt
  else
    let* count := gets live_iterator_count_ in
    DCHECK (0 <? count) Iter_dtor_count >>
    modify (fun o => set_count (live_iterator_count_ o - 1) o) >>
    let* count' := gets live_iterator_count_ in
    if count' =? 0 then Compact else ret tt.

(** [Iter(const Iter& other) : list_(other.list_), index_(other.index_),
       max_index_(other.max_index_) { if (list_) ++list_->live_iterator_count_; }] *)
Definition Iter_copy (other : Iter) : M Failure t Iter :=
  (if list_ other
   then modify (fun o => set_count (live_iterator_count_ o + 1) o)
   else ret tt) >>
  ret (mkIter (list_ other) (index_ other) (max_index_ other)).

(** [bool is_end() const { return !list_ || index_ == clamped_max_index(); }] *)
Definition is_end (it : Iter) : M Failure t bool :=
  if negb (list_ it) then ret true
  else let* max_index := clamped_max_index it in
       ret (Nat.eqb (index_ it) max_index).

(** [bool operator==(const Iter& other) const {
       return (is_end() && other.is_end()) ||
              (list_.get() == other.list_.get() && index_ == other.index_); }] *)
Definition Iter_eq (it other : Iter) : M Failure t bool :=
  let* e1 := is_end it in
  let* e2 := if (e1 : bool) then is_end other else ret false in
  ret ((e1 && e2) ||
       (Bool.eqb (list_ it) (list_ other) && Nat.eqb (index_ it) (index_ other))).

(** [bool operator!=(const Iter& other) const { return !( *this == other); }] *)
Definition Iter_neq (it other : Iter) : M Failure t bool :=
  let* e := Iter_eq it other in ret (negb e).

(** [Iter& operator++() { if (list_) { ++index_; EnsureValidIndex(); } return *this; }] *)
Definition Iter_incr (it : Iter) : M Failure t Iter :=
  if list_ it
  then EnsureValidIndex (mkIter (list_ it) (S (index_ it)) (max_index_ it))
  else ret it.

(** [Iter operator++(int) { Iter it( *this); ++( *this); return it; }]
    The result is the copy that is returned and this iterator afterwards. *)
Definition Iter_post_incr (it : Iter) : M Failure t (Iter * Iter) :=
  let* copy := Iter_copy it in
  let* this := Iter_incr it in
  ret (copy, this).

(** [ObserverType* GetCurrent() const {
       WINBASE_DCHECK(list_);
       WINBASE_DCHECK_LT(index_, clamped_max_index());
       return list_->observers_[index_]; }] *)
Definition GetCurrent (it : Iter) : M Failure t Observer :=
  DCHECK (list_ it) Iter_list >>
  let* max_index := clamped_max_index it in
  DCHECK (index_ it <? max_index)%nat GetCurrent_index >>
  let* l := gets observers_ in
  match l !! index_ it with
  | Some current => ret current
  | None => fail OutOfRange
  end.

(** [ObserverType& operator*() const {
       ObserverType* const current = GetCurrent();
       WINBASE_DCHECK(current);
       return *current; }]
    A null [current] cannot be turned into a reference. *)
Definition Iter_deref (it : Iter) : M Failure t positive :=
  let* current := GetCurrent it in
  DCHECK (bool_decide (is_Some current)) Deref_current >>
  match current with
  | Some obs => ret obs
  | None => fail NullPointer
  end.

(** [const_iterator begin() const {
       return observers_.empty() ? const_iterator() : const_iterator(this); }]
    and [const_iterator end() const { return const_iterator(); }] *)
Definition begin : M Failure t Iter :=
  let* empty := gets (fun o => bool_decide (observers_ o = [])) in
  if (empty : bool) then ret Iter_default else Iter_ctor.

Definition end_ : M Failure t Iter := ret Iter_default.

(** [for (Observer& obs : observers_) body(obs);], that is
    [for (auto it = begin(), e = end(); it != e; ++it) body( *it );], where
    the body gets the observer and may change the list.  [fuel] bounds the
    number of turns, and the observers the body was run on are collected in
    [notified]. *)
Fixpoint for_loop (fuel : nat) (body : positive -> M Failure t unit)
    (it e : Iter) (notified : list positive) : M Failure t (Iter * list positive) :=
  let* more := Iter_neq it e in
  if (more : bool)
  then match fuel with
       | O => fail OutOfFuel
       | S fuel' =>
           let* obs := Iter_deref it in
           body obs >>
           let* it' := Iter_incr it in
           for_loop fuel' body it' e (notified ++ [obs])
       end
  else ret (it, notified).

Definition range_for (fuel : nat) (body : positive -> M Failure t unit)
    : M Failure t (list positive) :=
  let* it := begin in
  let* e := end_ in
  let* done := for_loop fuel body it e [] in
  Iter_dtor e >>
  Iter_dtor (fst done) >>
  ret (snd done).

End Build.

(** The observers a vector holds, in order, null slots left out. *)
Definition present (l : list Observer) : list positive := omap id l.

(** What every member function keeps: no observer sits in two slots, and the
    count of live iterators is not negative. *)
Definition well_formed (o : t) : Prop :=
  NoDup (present (observers_ o)) /\ 0 <= live_iterator_count_ o.

(** The changes a client can make to the list while it is iterated. *)
Inductive Mutation :=
| DoAddObserver (obs : Observer)
| DoRemoveObserver (obs : Observer)
| DoClear.

Definition mutate (DCHECK_IS_ON : bool) (m : Mutation) : M Failure t unit :=
  match m with
  | DoAddObserver obs => AddObserver DCHECK_IS_ON obs
  | DoRemoveObserver obs => RemoveObserver DCHECK_IS_ON obs
  | DoClear => Clear DCHECK_IS_ON
  end.

(** Two notification bodies: one that leaves the list alone, and one in
    which the notified observer removes itself from the list. *)
Definition leave_list : positive -> M Failure t unit := fun _ => ret tt.

Definition remove_self (DCHECK_IS_ON : bool) : positive -> M Failure t unit :=
  fun notified => RemoveObserver DCHECK_IS_ON (Some notified).

(** A body in which observer [a], when notified, adds observer [new]. *)
Definition add_when_notified (DCHECK_IS_ON : bool) (a new : positive)
    : positive -> M Failure t unit :=
  fun notified =>
    if decide (notified = a) then AddObserver DCHECK_IS_ON (Some new) else ret tt.

Fixpoint mutate_all (DCHECK_IS_ON : bool) (ms : list Mutation) : M Failure t unit :=
  match ms with
  | [] => ret tt
  | m :: ms' => mutate DCHECK_IS_ON m >> mutate_all DCHECK_IS_ON ms'
  end.

(** How many null slots a vector starts with. *)
Fixpoint leading_nulls (l : list Observer) : nat :=
  match l with
  | None :: l' => S (leading_nulls l')
  | _ => O
  end.

(** The part of the vector an iterator with bound [m] ranges over. *)
Definition window (m : nat) (l : list Observer) : list Observer :=
  take (Nat.min m (length l)) l.

End ObserverList.
(* ===================================================================== *)
(** ** winbase/strings/utf_string_conversion_utils.h and
       winbase/strings/utf_string_conversions.cc                          *)
(* ===================================================================== *)

Module utf.

(** [inline bool IsValidCodepoint(uint32_t code_point) {
       return code_point < 0xD800u ||
              (code_point >= 0xE000u && code_point <= 0x10FFFFu); }] *)
Definition IsValidCodepoint (code_point : Z) : bool :=
  (code_point <? 0xD800) ||
  ((0xE000 <=? code_point) && (code_point <=? 0x10FFFF)).

(** [inline bool IsValidCharacter(uint32_t code_point) {
       return code_point < 0xD800u || (code_point >= 0xE000u &&
           code_point < 0xFDD0u) || (code_point > 0xFDEFu &&
           code_point <= 0x10FFFFu && (code_point & 0xFFFEu) != 0xFFFEu); }] *)
Definition IsValidCharacter (code_point : Z) : bool :=
  (code_point <? 0xD800) ||
  ((0xE000 <=? code_point) && (code_point <? 0xFDD0)) ||
  ((0xFDEF <? code_point) && (code_point <=? 0x10FFFF) &&
   negb (Z.land code_point 0xFFFE =? 0xFFFE)).

(** [constexpr int32_t kErrorCodePoint = 0xFFFD;] *)
Definition kErrorCodePoint : Z := 0xFFFD.

(** A [char16] is a 16-bit unsigned value; a [char] is held as its 8-bit
    pattern, and its value is negative from [0x80] on where [char] is a
    signed type. *)
Definition is_char16 (c : Z) : Prop := 0 <= c < 0x10000.
Definition is_char (c : Z) : Prop := 0 <= c < 0x100.

Section Conversions.

(** The macros of third_party/icu/icu_utf.h, which is not among the
    sources: the results below hold whatever they compute. *)
Variable CBU16_IS_SINGLE : Z -> bool.
Variable CBU16_IS_LEAD : Z -> bool.
Variable CBU16_IS_TRAIL : Z -> bool.
Variable CBU16_GET_SUPPLEMENTARY : Z -> Z -> Z.

(** The locals of [DoUTFConversion(const char16* src, int32_t src_len,
    DestChar* dest, int32_t* dest_len)]: the index [i], [success], and the
    code points handed to [UnicodeAppendUnsafe(dest, dest_len, code_point)]
    so far, in order. *)
Record Conversion := mkConversion {
  i : Z;
  success : bool;
  appended : list Z
}.

(** [auto ConvertSingleChar = [&success](char16 in) -> int32_t {
       if (!CBU16_IS_SINGLE(in) || !IsValidCodepoint(in)) {
         success = false;
         return kErrorCodePoint;
       }
       return in;
     };]
    The result is the code point and [success] afterwards. *)
Definition ConvertSingleChar (success : bool) (in_ : Z) : Z * bool :=
  if negb (CBU16_IS_SINGLE in_) || negb (IsValidCodepoint in_)
  then (kErrorCodePoint, false)
  else (in_, success).

(** One turn of
    [while (i < src_len - 1) {
       int32_t code_point;
       if (CBU16_IS_LEAD(src[i]) && CBU16_IS_TRAIL(src[i + 1])) {
         code_point = CBU16_GET_SUPPLEMENTARY(src[i], src[i + 1]);
         if (!IsValidCodepoint(code_point)) {
           code_point = kErrorCodePoint;
           success = false;
         }
         i += 2;
       } else {
         code_point = ConvertSingleChar(src[i]);
         ++i;
       }
       UnicodeAppendUnsafe(dest, dest_len, code_point);
     }]
    [None] is a read outside [src]; [src[i + 1]] is read only after a lead.
    The [int32_t code_point] is converted to the [uint32_t] parameter of
    [IsValidCodepoint] and of [UnicodeAppendUnsafe]. *)
Definition loop_body (src : list Z) (st : Conversion) : option Conversion :=
  c ← src !! Z.to_nat (i st);
  lead_and_trail ← (if CBU16_IS_LEAD c
                    then CBU16_IS_TRAIL <$> src !! Z.to_nat (i st + 1)
                    else Some false);
  if (lead_and_trail : bool)
  then
    c' ← src !! Z.to_nat (i st + 1);
    let code_point := CBU16_GET_SUPPLEMENTARY c c' in
    if negb (IsValidCodepoint (wrap32 code_point))
    then Some (mkConversion (i st + 2) false
                 (appended st ++ [wrap32 kErrorCodePoint]))
    else Some (mkConversion (i st + 2) (success st)
                 (appended st ++ [wrap32 code_point]))
  else
    let r := ConvertSingleChar (success st) c in
    Some (mkConversion (i st + 1) (snd r) (appended st ++ [wrap32 (fst r)])).

Fixpoint while_loop (fuel : nat) (src : list Z) (src_len : Z) (st : Conversion)
    : option Conversion :=
  if i st <? src_len - 1
  then match fuel with
       | O => None
       | S fuel' =>
           match loop_body src st with
           | Some st' => while_loop fuel' src src_len st'
           | None => None
           end
       end
  else Some st.

(** [bool DoUTFConversion(const char16* src, int32_t src_len,
                          DestChar* dest, int32_t* dest_len) {
       bool success = true;
       ...
       int32_t i = 0;
       while (i < src_len - 1) { ... }
       if (i < src_len)
         UnicodeAppendUnsafe(dest, dest_len, ConvertSingleChar(src[i]));
       return success;
     }]
    The result is [success] and the code points appended; the loop is given
    [src_len] turns. *)
Definition DoUTFConversion (src : list Z) (src_len : Z) : option (bool * list Z) :=
  match while_loop (Z.to_nat src_len) src src_len (mkConversion 0 true []) with
  | Some st =>
      if i st <? src_len
      then match src !! Z.to_nat (i st) with
           | Some c =>
               let r := ConvertSingleChar (success st) c in
               Some (snd r, appended st ++ [wrap32 (fst r)])
           | None => None
           end
      else Some (success st, appended st)
  | None => None
  end.

(** What the loop keeps: the index is inside the source, every code point
    appended so far is valid, each of them stands for one or two code units
    of the part read, and a cleared [success] left a replacement character
    behind. *)
Definition converting (src : list Z) (st : Conversion) : Prop :=
  0 <= i st <= Z.of_nat (length src) /\
  Forall (fun cp => IsValidCodepoint cp = true) (appended st) /\
  Z.of_nat (length (appended st)) <= i st <= 2 * Z.of_nat (length (appended st)) /\
  (success st = false -> wrap32 kErrorCodePoint ∈ appended st).

(** Whether [char] is a signed type (it is for MSVC unless /J is given). *)
Variable CHAR_IS_SIGNED : bool.

(** The conversion of a [char] to [char16], and of a [char16] to [char]. *)
Definition char_to_char16 (c : Z) : Z :=
  (if CHAR_IS_SIGNED && (0x80 <=? c) then c - 0x100 else c) mod 0x10000.

Definition char16_to_char (c : Z) : Z := c mod 0x100.

(** [string16 ASCIIToUTF16(StringPiece ascii) {
       ///DCHECK(IsStringASCII(ascii)) << ascii;
       return string16(ascii.begin(), ascii.end()); }] *)
Definition ASCIIToUTF16 (ascii : list Z) : list Z := char_to_char16 <$> ascii.

(** [std::string UTF16ToASCII(StringPiece16 utf16) {
       ///DCHECK(IsStringASCII(utf16)) << UTF16ToUTF8(utf16);
       return std::string(utf16.begin(), utf16.end()); }] *)
Definition UTF16ToASCII (utf16 : list Z) : list Z := char16_to_char <$> utf16.

End Conversions.

End utf.

(* ===================================================================== *)
(** ** winbase/atomic/atomic_sequence_num.h                               *)
(* ===================================================================== *)

Module AtomicSequenceNumber.

(** [int] arithmetic of [std::atomic_int]: 32 bits, two's complement, and
    [fetch_add] wraps around without overflow. *)
Definition int_min : Z := - 2 ^ 31.
Definition int_max : Z := 2 ^ 31 - 1.
Definition wrap_int (z : Z) : Z := (z + 2 ^ 31) mod 2 ^ 32 - 2 ^ 31.

(** [std::atomic_int seq_{0};] *)
Record t := mk { seq_ : Z }.

(** [constexpr AtomicSequenceNumber() = default;] *)
Definition ctor : t := mk 0.

(** [inline int GetNext() { return seq_.fetch_add(1, std::memory_order_relaxed); }]
    The result is the value returned and the generator afterwards. *)
Definition GetNext (s : t) : Z * t :=
  (seq_ s, mk (wrap_int (seq_ s + 1))).

(** [n] calls of [GetNext()] one after the other, and what they return. *)
Fixpoint GetNext_times (n : nat) (s : t) : list Z * t :=
  match n with
  | O => ([], s)
  | S n' =>
      let r := GetNext s in
      let rest := GetNext_times n' (snd r) in
      (fst r :: fst rest, snd rest)
  end.

End AtomicSequenceNumber.

(* ===================================================================== *)
(** ** crbase/files/scoped_temp_dir.cc                                    *)
(* ===================================================================== *)

Module ScopedTempDir.

(** A [FilePath] is held as its string of characters; [empty()] is the
    empty string and [FilePath()] constructs it. *)
Definition FilePath : Type := list Z.

Definition FilePath_empty (path : FilePath) : bool := bool_decide (path = []).

(** [CR_FILE_PATH_LITERAL("scoped_dir")] and
    [CR_FILE_PATH_LITERAL("scoped_dir_")], as character codes. *)
Definition scoped_dir : list Z := [115; 99; 111; 112; 101; 100; 95; 100; 105; 114].
Definition scoped_dir_ : list Z := scoped_dir ++ [95].

Section FileSystem.

(** The state of the file system and the functions of
    crbase/files/file_util.h, which is not among the sources: each takes the
    file system and gives back its result and the file system afterwards;
    the two that write a path through a pointer also take the path stored
    there and give back the one they leave there. *)
Variable FS : Type.
Variable CreateNewTempDirectory : list Z -> FilePath -> FS -> bool * FilePath * FS.
Variable CreateDirectory : FilePath -> FS -> bool * FS.
Variable CreateTemporaryDirInDir : FilePath -> list Z -> FilePath -> FS -> bool * FilePath * FS.
Variable DirectoryExists : FilePath -> FS -> bool * FS.
Variable DeleteFile : FilePath -> bool -> FS -> bool * FS.

(** [class ScopedTempDir { FilePath path_; }], together with the file
    system its member functions act on. *)
Record t := mk { path_ : FilePath; fs : FS }.

(** [ScopedTempDir::ScopedTempDir() {}] *)
Definition ctor (files : FS) : t := mk [] files.

(** [bool ScopedTempDir::CreateUniqueTempDir() {
       if (!path_.empty()) return false;
       if (!crbase::CreateNewTempDirectory(CR_FILE_PATH_LITERAL("scoped_dir"),
                                           &path_))
         return false;
       return true;
     }] *)
Definition CreateUniqueTempDir (s : t) : bool * t :=
  if negb (FilePath_empty (path_ s)) then (false, s)
  else
    let '(ok, path, files) := CreateNewTempDirectory scoped_dir (path_ s) (fs s) in
    if negb ok then (false, mk path files) else (true, mk path files).

(** [bool ScopedTempDir::CreateUniqueTempDirUnderPath(const FilePath& base_path) {
       if (!path_.empty()) return false;
       if (!crbase::CreateDirectory(base_path)) return false;
       if (!crbase::CreateTemporaryDirInDir(base_path,
                                            CR_FILE_PATH_LITERAL("scoped_dir_"),
                                            &path_))
         return false;
       return true;
     }] *)
Definition CreateUniqueTempDirUnderPath (base_path : FilePath) (s : t) : bool * t :=
  if negb (FilePath_empty (path_ s)) then (false, s)
  else
    let '(made, files) := CreateDirectory base_path (fs s) in
    if negb made then (false, mk (path_ s) files)
    else
      let '(ok, path, files') :=
        CreateTemporaryDirInDir base_path scoped_dir_ (path_ s) files in
      if negb ok then (false, mk path files') else (true, mk path files').

(** [bool ScopedTempDir::Set(const FilePath& path) {
       if (!path_.empty()) return false;
       if (!DirectoryExists(path) && !crbase::CreateDirectory(path))
         return false;
       path_ = path;
       return true;
     }] *)
Definition Set_ (path : FilePath) (s : t) : bool * t :=
  if negb (FilePath_empty (path_ s)) then (false, s)
  else
    let '(found, files) := DirectoryExists path (fs s) in
    if found then (true, mk path files)
    else
      let '(made, files') := CreateDirectory path files in
      if negb made then (false, mk (path_ s) files') else (true, mk path files').

(** [bool ScopedTempDir::Delete() {
       if (path_.empty()) return false;
       bool ret = crbase::DeleteFile(path_, true);
       if (ret) { path_.clear(); }
       return ret;
     }] *)
Definition Delete (s : t) : bool * t :=
  if FilePath_empty (path_ s) then (false, s)
  else
    let '(ret, files) := DeleteFile (path_ s) true (fs s) in
    if ret then (true, mk [] files) else (false, mk (path_ s) files).

(** [FilePath ScopedTempDir::Take() {
       FilePath ret = path_;
       path_ = FilePath();
       return ret;
     }] *)
Definition Take (s : t) : FilePath * t := (path_ s, mk [] (fs s)).

(** [bool ScopedTempDir::IsValid() const {
       return !path_.empty() && DirectoryExists(path_); }] *)
Definition IsValid (s : t) : bool * t :=
  if negb (FilePath_empty (path_ s)) then
    let '(found, files) := DirectoryExists (path_ s) (fs s) in
    (found, mk (path_ s) files)
  else (false, s).

(** [ScopedTempDir::~ScopedTempDir() {
       if (!path_.empty() && !Delete())
         CR_DLOG(WARNING) << "Could not delete temp dir in dtor.";
     }]
    The result says whether the warning is logged. *)
Definition dtor (s : t) : bool * t :=
  if negb (FilePath_empty (path_ s)) then
    let '(deleted, s') := Delete s in (negb deleted, s')
  else (false, s).

End FileSystem.

End ScopedTempDir.

(* ===================================================================== *)
(** ** winbase/files/file.cc                                              *)
(* ===================================================================== *)

Module File.

Import String.StringSyntax.
Local Open Scope string_scope.

(** The enumerators of [File::Error] that [ErrorToString] switches over. *)
Inductive Error :=
| FILE_OK
| FILE_ERROR_FAILED
| FILE_ERROR_IN_USE
| FILE_ERROR_EXISTS
| FILE_ERROR_NOT_FOUND
| FILE_ERROR_ACCESS_DENIED
| FILE_ERROR_TOO_MANY_OPENED
| FILE_ERROR_NO_MEMORY
| FILE_ERROR_NO_SPACE
| FILE_ERROR_NOT_A_DIRECTORY
| FILE_ERROR_INVALID_OPERATION
| FILE_ERROR_SECURITY
| FILE_ERROR_ABORT
| FILE_ERROR_NOT_A_FILE
| FILE_ERROR_NOT_EMPTY
| FILE_ERROR_INVALID_URL
| FILE_ERROR_IO
| FILE_ERROR_MAX.

(** [WINBASE_NOTREACHED()] is fatal in a build with assertions. *)
Inductive Failure := NotReached.

(** [std::string File::ErrorToString(Error error) {
       switch (error) {
         case FILE_OK: return "FILE_OK";
         ...
         case FILE_ERROR_IO: return "FILE_ERROR_IO";
         case FILE_ERROR_MAX: break;
       }
       WINBASE_NOTREACHED();
       return the empty string;
     }] *)
Definition ErrorToString (DCHECK_IS_ON : bool) (error : Error) : Failure + String.string :=
  match error with
  | FILE_OK => inr "FILE_OK"
  | FILE_ERROR_FAILED => inr "FILE_ERROR_FAILED"
  | FILE_ERROR_IN_USE => inr "FILE_ERROR_IN_USE"
  | FILE_ERROR_EXISTS => inr "FILE_ERROR_EXISTS"
  | FILE_ERROR_NOT_FOUND => inr "FILE_ERROR_NOT_FOUND"
  | FILE_ERROR_ACCESS_DENIED => inr "FILE_ERROR_ACCESS_DENIED"
  | FILE_ERROR_TOO_MANY_OPENED => inr "FILE_ERROR_TOO_MANY_OPENED"
  | FILE_ERROR_NO_MEMORY => inr "FILE_ERROR_NO_MEMORY"
  | FILE_ERROR_NO_SPACE => inr "FILE_ERROR_NO_SPACE"
  | FILE_ERROR_NOT_A_DIRECTORY => inr "FILE_ERROR_NOT_A_DIRECTORY"
  | FILE_ERROR_INVALID_OPERATION => inr "FILE_ERROR_INVALID_OPERATION"
  | FILE_ERROR_SECURITY => inr "FILE_ERROR_SECURITY"
  | FILE_ERROR_ABORT => inr "FILE_ERROR_ABORT"
  | FILE_ERROR_NOT_A_FILE => inr "FILE_ERROR_NOT_A_FILE"
  | FILE_ERROR_NOT_EMPTY => inr "FILE_ERROR_NOT_EMPTY"
  | FILE_ERROR_INVALID_URL => inr "FILE_ERROR_INVALID_URL"
  | FILE_ERROR_IO => inr "FILE_ERROR_IO"
  | FILE_ERROR_MAX => if DCHECK_IS_ON then inl NotReached else inr String.EmptyString
  end.

End File.

(* ===================================================================== *)
(** ** winbase/threading/thread_task_runner_handle.cc                     *)
(* ===================================================================== *)

Module ThreadTaskRunnerHandle.

Local Open Scope try_scope.
Import Try.

(** A [scoped_refptr<SingleThreadTaskRunner>] by the task runner it points
    to; [None] is the null pointer. *)
Definition TaskRunner : Type := option positive.

(** [class ThreadTaskRunnerHandle { scoped_refptr<SingleThreadTaskRunner> task_runner_; }] *)
Record t := mk { task_runner_ : TaskRunner }.

(** What the functions of this file act on, for one thread: the slot of
    [thread_task_runner_tls] and the [ThreadTaskRunnerHandle] objects alive,
    by address. *)
Record Thread := mkThread {
  tls : option addr;
  handles : gmap addr t
}.

Inductive Site :=
| Get_current                   (* WINBASE_CHECK(current) *)
| Override_sequenced            (* WINBASE_DCHECK(!SequencedTaskRunnerHandle::IsSet() || IsSet()) *)
| Restore_expected              (* WINBASE_DCHECK_EQ(expected_task_runner_before_restore, ...) *)
| Ctor_thread                   (* WINBASE_DCHECK(task_runner_->BelongsToCurrentThread()) *)
| Ctor_sequenced                (* WINBASE_DCHECK(!SequencedTaskRunnerHandle::IsSet()) *)
| Dtor_thread                   (* WINBASE_DCHECK(task_runner_->BelongsToCurrentThread()) *)
| Dtor_tls.                     (* WINBASE_DCHECK_EQ(thread_task_runner_tls.Pointer()->Get(), this) *)

Inductive Failure :=
| CheckFailed (site : Site)     (* a CHECK, fatal in every build *)
| DcheckFailed (site : Site)    (* a DCHECK, in a build that has them *)
| NullPointer                   (* [->] on a null pointer *)
| WildPointer.                  (* a pointer to a handle that is gone *)

(** The closure a [ScopedClosureRunner] returned by [OverrideForTesting]
    holds: one of the two lambdas of that function with its bound
    arguments. *)
Inductive Closure :=
| ReleaseTopLevel (ttrh_to_release : addr)
| RestoreTaskRunner (task_runner_to_restore : TaskRunner)
                    (expected_task_runner_before_restore : TaskRunner).

Section Build.

(** Whether the build has its DCHECKs, and the two functions of other files
    that the DCHECKs call. *)
Variable DCHECK_IS_ON : bool.
Variable SequencedTaskRunnerHandle_IsSet : Thread -> bool.
Variable BelongsToCurrentThread : positive -> bool.

Definition CHECK (cond : bool) (site : Site) : M Failure Thread unit :=
  if negb cond then fail (CheckFailed site) else ret tt.

(** The condition of a DCHECK is evaluated only where DCHECKs are on. *)
Definition DCHECK (cond : M Failure Thread bool) (site : Site) : M Failure Thread unit :=
  if DCHECK_IS_ON
  then let* holds := cond in
       if (holds : bool) then ret tt else fail (DcheckFailed site)
  else ret tt.

(** [ttrh->task_runner_] *)
Definition task_runner_of (ttrh : addr) : M Failure Thread TaskRunner :=
  let* found := gets (fun th => handles th !! ttrh) in
  match found with
  | Some h => ret (task_runner_ h)
  | None => fail WildPointer
  end.

Definition set_task_runner (ttrh : addr) (r : TaskRunner) : M Failure Thread unit :=
  modify (fun th => mkThread (tls th) (<[ttrh := mk r]> (handles th))).

(** [task_runner_->BelongsToCurrentThread()] *)
Definition belongs (r : TaskRunner) : M Failure Thread bool :=
  match r with
  | Some runner => ret (BelongsToCurrentThread runner)
  | None => fail NullPointer
  end.

(** [bool ThreadTaskRunnerHandle::IsSet() {
       return !!thread_task_runner_tls.Pointer()->Get(); }] *)
Definition IsSet : M Failure Thread bool :=
  gets (fun th => bool_decide (is_Some (tls th))).

(** [scoped_refptr<SingleThreadTaskRunner> ThreadTaskRunnerHandle::Get() {
       ThreadTaskRunnerHandle* current = thread_task_runner_tls.Pointer()->Get();
       WINBASE_CHECK(current) << ...;
       return current->task_runner_;
     }] *)
Definition Get : M Failure Thread TaskRunner :=
  let* current := gets tls in
  CHECK (bool_decide (is_Some current)) Get_current >>
  match current with
  | Some ttrh => task_runner_of ttrh
  | None => fail NullPointer
  end.

(** [ThreadTaskRunnerHandle::ThreadTaskRunnerHandle(
         scoped_refptr<SingleThreadTaskRunner> task_runner)
         : task_runner_(std::move(task_runner)) {
       WINBASE_DCHECK(task_runner_->BelongsToCurrentThread());
       WINBASE_DCHECK(!SequencedTaskRunnerHandle::IsSet());
       thread_task_runner_tls.Pointer()->Set(this);
     }]
    for an object constructed at the address [this]. *)
Definition ctor (this : addr) (task_runner : TaskRunner) : M Failure Thread unit :=
  set_task_runner this task_runner >>
  DCHECK (belongs task_runner) Ctor_thread >>
  DCHECK (let* set := gets SequencedTaskRunnerHandle_IsSet in ret (negb set))
         Ctor_sequenced >>
  modify (fun th => mkThread (Some this) (handles th)).

(** [ThreadTaskRunnerHandle::~ThreadTaskRunnerHandle() {
       WINBASE_DCHECK(task_runner_->BelongsToCurrentThread());
       WINBASE_DCHECK_EQ(thread_task_runner_tls.Pointer()->Get(), this);
       thread_task_runner_tls.Pointer()->Set(nullptr);
     }]
    after which the object is gone. *)
Definition dtor (this : addr) : M Failure Thread unit :=
  let* r := task_runner_of this in
  DCHECK (belongs r) Dtor_thread >>
  DCHECK (let* current := gets tls in ret (bool_decide (current = Some this)))
         Dtor_tls >>
  modify (fun th => mkThread None (handles th)) >>
  modify (fun th => mkThread (tls th) (delete this (handles th))).

(** [ScopedClosureRunner ThreadTaskRunnerHandle::OverrideForTesting(
         scoped_refptr<SingleThreadTaskRunner> overriding_task_runner) {
       WINBASE_DCHECK(!SequencedTaskRunnerHandle::IsSet() || IsSet());
       if (!IsSet()) {
         auto top_level_ttrh = std::make_unique<ThreadTaskRunnerHandle>(
             std::move(overriding_task_runner));
         return ScopedClosureRunner(winbase::BindOnce(
             [](std::unique_ptr<ThreadTaskRunnerHandle> ttrh_to_release) {},
             std::move(top_level_ttrh)));
       }
       ThreadTaskRunnerHandle* ttrh = thread_task_runner_tls.Pointer()->Get();
       ttrh->task_runner_.swap(overriding_task_runner);
       auto no_running_during_override =
           std::make_unique<RunLoop::ScopedDisallowRunningForTesting>();
       return ScopedClosureRunner(winbase::BindOnce(
           [](...) { ... },
           std::move(overriding_task_runner),
           winbase::Unretained(ttrh->task_runner_.get()),
           std::move(no_running_during_override)));
     }]
    The run loop, on which [ScopedDisallowRunningForTesting] acts, is not
    part of [Thread]. *)
Definition OverrideForTesting (overriding_task_runner : TaskRunner)
    : M Failure Thread Closure :=
  DCHECK (let* sequenced := gets SequencedTaskRunnerHandle_IsSet in
          if negb sequenced then ret true else IsSet)
         Override_sequenced >>
  let* set := IsSet in
  if negb set
  then
    let* top_level_ttrh := gets (fun th => fresh (dom (handles th))) in
    ctor top_level_ttrh overriding_task_runner >>
    ret (ReleaseTopLevel top_level_ttrh)
  else
    let* current := gets tls in
    match current with
    | None => fail NullPointer
    | Some ttrh =>
        let* previous := task_runner_of ttrh in
        set_task_runner ttrh overriding_task_runner >>
        let* expected := task_runner_of ttrh in
        ret (RestoreTaskRunner previous expected)
    end.

(** Running the closure, which a [ScopedClosureRunner] does once.  The first
    lambda has an empty body and destroys the handle it was given; the
    second is
    [[](scoped_refptr<SingleThreadTaskRunner> task_runner_to_restore,
        SingleThreadTaskRunner* expected_task_runner_before_restore,
        std::unique_ptr<RunLoop::ScopedDisallowRunningForTesting>
            no_running_during_override) {
       ThreadTaskRunnerHandle* ttrh = thread_task_runner_tls.Pointer()->Get();
       WINBASE_DCHECK_EQ(expected_task_runner_before_restore,
                         ttrh->task_runner_.get()) << ...;
       ttrh->task_runner_.swap(task_runner_to_restore);
     }] *)
Definition Run (closure : Closure) : M Failure Thread unit :=
  match closure with
  | ReleaseTopLevel ttrh_to_release => dtor ttrh_to_release
  | RestoreTaskRunner task_runner_to_restore expected_task_runner_before_restore =>
      let* current := gets tls in
      match current with
      | None => fail NullPointer
      | Some ttrh =>
          DCHECK (let* r := task_runner_of ttrh in
                  ret (bool_decide (expected_task_runner_before_restore = r)))
                 Restore_expected >>
          let* _ := task_runner_of ttrh in
          set_task_runner ttrh task_runner_to_restore
      end
  end.

(** Overrides made one inside the other, and closures run one after the
    other. *)
Fixpoint override_all (rs : list TaskRunner) : M Failure Thread (list Closure) :=
  match rs with
  | [] => ret []
  | r :: rs' =>
      let* c := OverrideForTesting r in
      let* cs := override_all rs' in
      ret (c :: cs)
  end.

Fixpoint run_all (cs : list Closure) : M Failure Thread unit :=
  match cs with
  | [] => ret tt
  | c :: cs' => Run c >> run_all cs'
  end.

End Build.

End ThreadTaskRunnerHandle.

(* ===================================================================== *)
(** ** Properties of the reference count                                  *)
(* ===================================================================== *)

Section RefCountedBaseFacts.

Import RefCountedBase.

Lemma wrap32_small z : 0 <= z <= uint32_max -> wrap32 z = z.
Proof. unfold wrap32, uint32_max. intros Hz. apply Z.mod_small. lia. Qed.

Lemma wrap32_range z : is_uint32 (wrap32 z).
Proof.
  unfold is_uint32, wrap32, uint32_max.
  pose proof (Z.mod_pos_bound z (2 ^ 32) ltac:(lia)). lia.
Qed.

Lemma AddRef_run o : AddRef o = Done tt (mk (wrap32 (ref_count_ o + 1))).
Proof. reflexivity. Qed.

Lemma Release_run o :
  Release o = Done (wrap32 (ref_count_ o - 1) =? 0) (mk (wrap32 (ref_count_ o - 1))).
Proof. reflexivity. Qed.

Lemma Adopted_run o : Adopted o = Done tt o.
Proof. reflexivity. Qed.

(** No member of RefCountedBase can end in a fatal outcome. *)
Lemma AddRef_never_fatal o : dcheck_failures (AddRef o) = 0%nat.
Proof. reflexivity. Qed.

Lemma Release_never_fatal o : dcheck_failures (Release o) = 0%nat.
Proof. reflexivity. Qed.

End RefCountedBaseFacts.

(** C2, as stated, at the largest count: AddRef on a count of
    [2^32 - 1] (which is [>= 1]) leaves the count at [0], not one higher. *)
Lemma AddRef_at_uint32_max_wraps :
  let o := RefCountedBase.mk uint32_max in
  1 <= RefCountedBase.ref_count_ o /\
  RefCountedBase.AddRef o = Done tt (RefCountedBase.mk 0) /\
  0 <> RefCountedBase.ref_count_ o + 1.
Proof. cbv zeta. split; [|split]; [ unfold uint32_max; simpl; lia | reflexivity | discriminate ]. Qed.

(** C2 (amended): for every RefCountedBase object whose count [c] satisfies
    [1 <= c] (and is a [uint32_t]), [Release()] returns normally, leaves the
    count at exactly [c - 1], and returns [true] iff that new count is zero;
    [AddRef()] always returns normally and leaves the count at [c + 1],
    except at [c = 2^32 - 1], where the count wraps to [0]. *)
Theorem Release_decrements_AddRef_increments_mod :
  forall o : RefCountedBase.t,
    let c := RefCountedBase.ref_count_ o in
    1 <= c <= uint32_max ->
    (exists (r : bool) (o' : RefCountedBase.t),
        RefCountedBase.Release o = Done r o' /\
        RefCountedBase.ref_count_ o' = c - 1 /\
        (r = true <-> RefCountedBase.ref_count_ o' = 0)) /\
    (exists o' : RefCountedBase.t,
        RefCountedBase.AddRef o = Done tt o' /\
        RefCountedBase.ref_count_ o' = (if c =? uint32_max then 0 else c + 1)).
Proof.
  intros o c Hc. split.
  - exists (c - 1 =? 0), (RefCountedBase.mk (c - 1)).
    rewrite Release_run. fold c. rewrite wrap32_small by lia.
    split; [reflexivity|]. split; [reflexivity|]. simpl. apply Z.eqb_eq.
  - eexists. rewrite AddRef_run. split; [reflexivity|]. fold c. simpl.
    destruct (Z.eqb_spec c uint32_max) as [->|Hne].
    + reflexivity.
    + apply wrap32_small. lia.
Qed.

Lemma Release_decrements_AddRef_increments_mod_witness :
  1 <= 3 <= uint32_max /\
  (exists (r : bool) (o' : RefCountedBase.t),
      RefCountedBase.Release (RefCountedBase.mk 3) = Done r o' /\
      RefCountedBase.ref_count_ o' = 3 - 1 /\
      (r = true <-> RefCountedBase.ref_count_ o' = 0)) /\
  (exists o' : RefCountedBase.t,
      RefCountedBase.AddRef (RefCountedBase.mk 3) = Done tt o' /\
      RefCountedBase.ref_count_ o' = (if 3 =? uint32_max then 0 else 3 + 1)).
Proof.
  split.
  - unfold uint32_max. lia.
  - apply (Release_decrements_AddRef_increments_mod (RefCountedBase.mk 3)).
    unfold uint32_max. simpl. lia.
Defined.

(** C9: the count of RefCountedBase is a [uint32_t] ([uint32_max] is
    [2^32 - 1]) and [Release()] wraps: on a count of [0] it leaves
    [2^32 - 1] and returns [false]; [RefCounted::Release()] then does not
    call [Traits::Destruct], whatever the traits are, and nothing is
    reported.  Every call leaves a value of the type's range, so the count
    is never negative, and no call ends in a fatal outcome. *)
Theorem Release_at_zero_wraps_silently :
  uint32_max = 2 ^ 32 - 1 /\
  RefCountedBase.Release (RefCountedBase.mk 0)
    = Done false (RefCountedBase.mk (2 ^ 32 - 1)) /\
  (forall (T : Type) (traits : RefCounted.Traits T) (members : T),
      @RefCounted.Release T traits (RefCounted.mk (RefCountedBase.mk 0) members)
        = Done tt (RefCounted.mk (RefCountedBase.mk (2 ^ 32 - 1)) members)) /\
  (forall o : RefCountedBase.t,
      exists (r : bool) (o' : RefCountedBase.t),
        RefCountedBase.Release o = Done r o' /\
        0 <= RefCountedBase.ref_count_ o' <= uint32_max /\
        dcheck_failures (RefCountedBase.Release o) = 0%nat).
Proof.
  split; [reflexivity|]. split; [reflexivity|]. split.
  - intros T traits members. reflexivity.
  - intros o. rewrite Release_run. do 2 eexists. split; [reflexivity|].
    split; [apply wrap32_range | reflexivity].
Qed.

(** *** The adoption check *)

(** With the assertions of the debug build, the adoption contract of the
    specification holds: AddRef without adoption is fatal, AddRef after
    adoption is not. *)
Lemma Debug_AddRef_without_adoption_is_fatal :
  DebugRefCountedBase.AddRef (DebugRefCountedBase.ctor kStartRefCountFromOneTag)
  = Crash (DcheckFailed DcheckNeedsAdoptRef).
Proof. reflexivity. Qed.

Lemma Debug_AddRef_after_adoption_succeeds :
  (DebugRefCountedBase.Adopted >> DebugRefCountedBase.AddRef)
    (DebugRefCountedBase.ctor kStartRefCountFromOneTag)
  = Done tt (DebugRefCountedBase.mk 2 false false).
Proof. reflexivity. Qed.

(** Whenever the debug build completes a call, this build does the same to
    the members it has kept. *)
Lemma AddRef_refines_debug d d' :
  DebugRefCountedBase.AddRef d = Done tt d' ->
  RefCountedBase.AddRef (DebugRefCountedBase.erase d)
  = Done tt (DebugRefCountedBase.erase d').
Proof.
  destruct d as [c needs dtor]. unfold DebugRefCountedBase.AddRef, bind, gets. simpl.
  destruct dtor; simpl; [discriminate|]. destruct needs; simpl; [discriminate|].
  unfold modify. intros [= <-]. reflexivity.
Qed.

Lemma Release_refines_debug d r d' :
  DebugRefCountedBase.Release d = Done r d' ->
  RefCountedBase.Release (DebugRefCountedBase.erase d)
  = Done r (DebugRefCountedBase.erase d').
Proof.
  destruct d as [c needs dtor].
  unfold DebugRefCountedBase.Release, bind, gets, modify. simpl.
  destruct dtor; simpl; [discriminate|]. intros [= <- <-]. reflexivity.
Qed.

(** C3, as stated, on a start-from-one payload whose first reference was
    not adopted: AddRef returns normally with a count of 2; no assertion
    fires, let alone exactly one. *)
Lemma AddRef_without_adoption_trips_nothing :
  let o := RefCountedBase.ctor kStartRefCountFromOneTag in
  RefCountedBase.AddRef o = Done tt (RefCountedBase.mk 2) /\
  dcheck_failures (RefCountedBase.AddRef o) <> 1%nat.
Proof. split; [reflexivity | discriminate]. Qed.

(** C3 (amended): in this build the "needs adoption" assertion is absent.
    For every payload constructed with the start-from-one policy, AddRef()
    trips no assertion and raises the count from 1 to 2, both when the first
    reference was taken without adoption and when [Adopted()] was called
    first; [Adopted()] changes nothing. *)
Theorem needs_adoption_assertion_absent :
  forall (T : Type) (members : T),
    let payload := RefCounted.ctor kStartRefCountFromOneTag members in
    let o := RefCountedBase.ctor kStartRefCountFromOneTag in
    RefCounted.base payload = o /\
    RefCounted.AddRef payload = Done tt (RefCounted.mk (RefCountedBase.mk 2) members) /\
    RefCountedBase.AddRef o = Done tt (RefCountedBase.mk 2) /\
    dcheck_failures (RefCountedBase.AddRef o) = 0%nat /\
    RefCountedBase.Adopted o = Done tt o /\
    (RefCountedBase.Adopted >> RefCountedBase.AddRef) o = Done tt (RefCountedBase.mk 2) /\
    dcheck_failures ((RefCountedBase.Adopted >> RefCountedBase.AddRef) o) = 0%nat.
Proof. intros T members. cbv zeta. repeat split. Qed.

(** *** Sequences of AddRef and Release on one payload *)

Section RefCountedCalls.

Import RefCounted.

Lemma call_step c o : destructor_runs o = 0%nat -> call c o = Done tt (step c o).
Proof.
  destruct c, o as [[n] d]; unfold call, freed, step, count, destructor_runs, bind, gets;
    cbn [self base]; intros ->; cbn [Nat.eqb negb].
  - reflexivity.
  - unfold Release, bind, on_base, zoom. simpl. destruct (wrap32 (n - 1) =? 0); reflexivity.
Qed.

Lemma call_freed c o : destructor_runs o <> 0%nat -> call c o = Crash WildPointer.
Proof.
  intros Hd. unfold call, freed, bind, gets.
  destruct (Nat.eqb_spec (destructor_runs o) 0) as [E|_]; [contradiction | reflexivity].
Qed.

Lemma calls_cons c cs o :
  destructor_runs o = 0%nat -> calls (c :: cs) o = calls cs (step c o).
Proof. intros Hd. simpl. unfold bind. rewrite call_step by exact Hd. reflexivity. Qed.

Lemma calls_freed c cs o :
  destructor_runs o <> 0%nat -> calls (c :: cs) o = Crash WildPointer.
Proof. intros Hd. simpl. unfold bind. rewrite call_freed by exact Hd. reflexivity. Qed.

Lemma calls_on_live_cons c cs o :
  calls_on_live (c :: cs) o = Nat.eqb (destructor_runs o) 0 && calls_on_live cs (step c o).
Proof.
  simpl. destruct (Nat.eqb_spec (destructor_runs o) 0) as [E|E]; [|reflexivity].
  rewrite call_step by exact E. reflexivity.
Qed.


Lemma calls_not_live cs : forall o,
  calls_on_live cs o = false -> calls cs o = Crash WildPointer.
Proof.
  induction cs as [|c cs IH]; intros o Hcalls; [discriminate|].
  rewrite calls_on_live_cons in Hcalls.
  destruct (Nat.eqb_spec (destructor_runs o) 0) as [E|E].
  - rewrite calls_cons by exact E. apply IH. exact Hcalls.
  - apply calls_freed. exact E.
Qed.






Lemma live_not_destroyed cs o : live cs o -> Nat.eqb (destructor_runs o) 0 = true.
Proof. intros (-> & _). reflexivity. Qed.



End RefCountedCalls.


(** Calls that go on after the destructor has run use a payload that
    [delete] has freed: the payload must not be used once it is destroyed. *)
Lemma calls_after_destruction_are_use_after_free :
  RefCounted.calls [RefCounted.CallRelease; RefCounted.CallAddRef; RefCounted.CallRelease]
                   (RefCounted.with_count 1) = Crash WildPointer /\
  RefCounted.calls_on_live
    [RefCounted.CallRelease; RefCounted.CallAddRef; RefCounted.CallRelease]
    (RefCounted.with_count 1) = false.
Proof. split; reflexivity. Qed.



(* ===================================================================== *)
(** ** Properties of callback handles                                     *)
(* ===================================================================== *)

Section WorldFacts.

Implicit Types (w : World) (p : addr) (bs : BindState).

Lemma AddRef_at w p bs :
  objects w !! p = Some bs ->
  RefCountedThreadSafe.AddRef p w
  = Done tt (mkWorld (<[p := add_count 1 bs]> (objects w)) (destroyed w)).
Proof.
  intros Hp. unfold RefCountedThreadSafe.AddRef, at_object. rewrite Hp.
  destruct bs as [[[[n]] inv d ic] args]. reflexivity.
Qed.

Lemma ReleaseImpl_run (o : RefCountedThreadSafeBase.t) :
  RefCountedThreadSafeBase.Release o
  = Done (RefCountedThreadSafeBase.count o - 1 =? 0)
         (RefCountedThreadSafeBase.mk
            (AtomicRefCount.mk (RefCountedThreadSafeBase.count o - 1))).
Proof.
  destruct o as [[n]].
  unfold RefCountedThreadSafeBase.Release, RefCountedThreadSafeBase.ReleaseImpl,
    RefCountedThreadSafeBase.on_count, RefCountedThreadSafeBase.count,
    AtomicRefCount.Decrement, bind, zoom, modify, gets, ret.
  simpl. destruct (n - 1 =? 0); reflexivity.
Qed.

Lemma Release_at w p bs :
  objects w !! p = Some bs ->
  RefCountedThreadSafe.Release p w
  = Done tt
      (if BindStateBase.count (bind_base bs) - 1 =? 0
       then mkWorld (delete p (objects w)) ((p, add_count (-1) bs) :: destroyed w)
       else mkWorld (<[p := add_count (-1) bs]> (objects w)) (destroyed w)).
Proof.
  intros Hp. destruct bs as [[rc inv d ic] args].
  unfold RefCountedThreadSafe.Release, bind, at_object. rewrite Hp.
  unfold BindStateBase.on_ref_counted, zoom. simpl. rewrite ReleaseImpl_run.
  unfold add_count, BindStateBase.count. simpl.
  destruct (RefCountedThreadSafeBase.count rc - 1 =? 0); simpl; [|reflexivity].
  unfold BindStateBaseRefCountTraits.Destruct, bind, at_object, call_destructor. simpl.
  rewrite lookup_insert_eq. simpl. rewrite lookup_insert_eq.
  rewrite insert_insert_eq, delete_insert_eq. reflexivity.
Qed.

Lemma count_at_insert w p bs d :
  count_at (mkWorld (<[p := add_count d bs]> (objects w)) (destroyed w)) p
  = Some (BindStateBase.count (bind_base bs) + d).
Proof. unfold count_at. simpl. rewrite lookup_insert_eq. reflexivity. Qed.

End WorldFacts.

Section CallbackFacts.

Implicit Types (w : World) (p : addr) (bs : BindState) (c : CallbackBase.t).

Lemma scoped_refptr_copy_ctor_run w p bs :
  objects w !! p = Some bs ->
  scoped_refptr.copy_ctor (Some p) w
  = Done (Some p) (mkWorld (<[p := add_count 1 bs]> (objects w)) (destroyed w)).
Proof.
  intros Hp. unfold scoped_refptr.copy_ctor, bind. rewrite (AddRef_at _ _ _ Hp). reflexivity.
Qed.

Lemma EqualsInternal_spec (a b : CallbackBase.t) :
  CallbackBase.EqualsInternal a b = true
  <-> CallbackBase.bind_state_ a = CallbackBase.bind_state_ b.
Proof.
  unfold CallbackBase.EqualsInternal, scoped_refptr.eq, scoped_refptr.get.
  apply bool_decide_eq_true.
Qed.

Lemma is_null_spec c :
  CallbackBase.is_null c = true <-> CallbackBase.bind_state_ c = None.
Proof. unfold CallbackBase.is_null, scoped_refptr.get. apply bool_decide_eq_true. Qed.

Lemma IsCancelled_run w p bs :
  objects w !! p = Some bs ->
  CallbackBase.IsCancelled (CallbackBase.mk (Some p)) w
  = Done (BindStateBase_IsCancelled bs) w.
Proof.
  intros Hp. unfold CallbackBase.IsCancelled, scoped_refptr.arrow. simpl. rewrite Hp.
  unfold gets. rewrite (insert_id _ _ _ Hp). destruct w; reflexivity.
Qed.

(** What the bind operation leaves: a new bind state at an address that was
    free, with the default predicate and a count of one, and a callback
    pointing at it. *)
Lemma Bind_run tag inv d args w :
  let p := fresh (dom (objects w)) in
  objects w !! p = None /\
  Bind tag inv d args w
  = Done (CallbackBase.mk (Some p))
         (mkWorld
            (<[p := mkBindState
                      (BindStateBase.mk
                         (RefCountedThreadSafeBase.mk (AtomicRefCount.mk 1))
                         inv d BindStateBase.addr_of_ReturnFalse)
                      args]> (objects w))
            (destroyed w)).
Proof.
  intros p. split; [apply not_elem_of_dom, is_fresh|].
  unfold Bind, bind. fold p. destruct tag; simpl.
  - unfold scoped_refptr.from_raw, scoped_refptr.copy_ctor, bind.
    erewrite AddRef_at by (simpl; apply lookup_insert_eq).
    simpl. rewrite insert_insert_eq. reflexivity.
  - unfold scoped_refptr.AdoptRef, bind, at_object. simpl. rewrite lookup_insert_eq.
    simpl. rewrite insert_insert_eq. reflexivity.
Qed.

End CallbackFacts.

(** C4, as stated, for a copy and a move made by assignment to a handle
    that already references the same bind state (count 2, one reference for
    each handle): the copy leaves the count at 2, it is not increased by one;
    the move takes the count to 1, it is not left unchanged. *)
Lemma assignment_onto_the_same_object_does_not_follow_the_rule :
  let w := sample_world 2 in
  let c := CallbackBase.mk (Some 1%positive) in
  let this := CallbackBase.mk (Some 1%positive) in
  CallbackBase.is_null c = false /\
  count_at w 1%positive = Some 2 /\
  (exists w1,
      CallbackBaseCopyable.copy_assign this c w = Done c w1 /\
      count_at w1 1%positive = Some 2 /\ 2 <> 2 + 1) /\
  (exists w2,
      CallbackBase.move_assign this c w = Done (CallbackBase.mk None, c) w2 /\
      count_at w2 1%positive = Some 1 /\ 1 <> 2).
Proof.
  cbv zeta. split; [reflexivity|]. split; [reflexivity|]. split.
  - eexists. split; [reflexivity|]. split; [reflexivity | lia].
  - eexists. split; [reflexivity|]. split; [reflexivity | lia].
Qed.

Section AssignmentFacts.

Implicit Types (w : World) (p q : addr) (bs bq : BindState) (c : CallbackBase.t).

Lemma scoped_refptr_dtor_run w q bq :
  objects w !! q = Some bq ->
  scoped_refptr.dtor (Some q) w = Done tt (after_release w q bq).
Proof. intros Hq. unfold scoped_refptr.dtor. apply Release_at. exact Hq. Qed.

Lemma scoped_refptr_copy_assign_run w p bs (this : scoped_refptr.t) :
  objects w !! p = Some bs ->
  scoped_refptr.copy_assign this (Some p) w
  = match this with
    | None => Done (Some p) (after_add_ref w p bs)
    | Some q =>
        match objects (after_add_ref w p bs) !! q with
        | Some bq => Done (Some p) (after_release (after_add_ref w p bs) q bq)
        | None => Crash WildPointer
        end
    end.
Proof.
  intros Hp. unfold scoped_refptr.copy_assign, bind.
  rewrite (scoped_refptr_copy_ctor_run _ _ _ Hp). fold (after_add_ref w p bs).
  destruct this as [q|]; [|reflexivity].
  destruct (objects (after_add_ref w p bs) !! q) as [bq|] eqn:Hq.
  - rewrite (scoped_refptr_dtor_run _ _ _ Hq). reflexivity.
  - unfold scoped_refptr.dtor, RefCountedThreadSafe.Release, bind, at_object.
    rewrite Hq. reflexivity.
Qed.

Lemma scoped_refptr_move_assign_run w (this r : scoped_refptr.t) :
  scoped_refptr.move_assign this r w
  = match this with
    | None => Done (None, r) w
    | Some q =>
        match objects w !! q with
        | Some bq => Done (None, r) (after_release w q bq)
        | None => Crash WildPointer
        end
    end.
Proof.
  unfold scoped_refptr.move_assign, scoped_refptr.move_ctor, bind, ret.
  destruct this as [q|]; [|reflexivity].
  destruct (objects w !! q) as [bq|] eqn:Hq.
  - rewrite (scoped_refptr_dtor_run _ _ _ Hq). reflexivity.
  - unfold scoped_refptr.dtor, RefCountedThreadSafe.Release, bind, at_object.
    rewrite Hq. reflexivity.
Qed.

(** One reference taken and given back leaves the world as it was. *)
Lemma add_ref_then_release w p bs :
  objects w !! p = Some bs ->
  BindStateBase.count (bind_base bs) <> 0 ->
  after_release (after_add_ref w p bs) p (add_count 1 bs) = w.
Proof.
  intros Hp Hn. destruct w as [objs gone]. destruct bs as [[[[n]] inv d ic] args].
  unfold after_release, after_add_ref, add_count, BindStateBase.count,
    RefCountedThreadSafeBase.count in *. cbn in *.
  replace (n + 1 - 1) with n by lia.
  replace (n =? 0) with false by (symmetry; apply Z.eqb_neq; exact Hn).
  rewrite insert_insert_eq. replace (n + 1 + -1) with n by lia.
  rewrite insert_id by exact Hp. reflexivity.
Qed.

Lemma count_after_release w q bq :
  count_at (after_release w q bq) q
  = if BindStateBase.count (bind_base bq) - 1 =? 0 then None
    else Some (BindStateBase.count (bind_base bq) - 1).
Proof.
  unfold after_release, count_at.
  destruct (BindStateBase.count (bind_base bq) - 1 =? 0); cbn [objects].
  - rewrite lookup_delete_eq. reflexivity.
  - rewrite lookup_insert_eq. cbn. unfold add_count, BindStateBase.count,
      RefCountedThreadSafeBase.count. cbn. reflexivity.
Qed.

Lemma count_after_release_other w q bq p :
  p <> q -> count_at (after_release w q bq) p = count_at w p.
Proof.
  intros Hne. unfold after_release, count_at.
  destruct (BindStateBase.count (bind_base bq) - 1 =? 0); cbn [objects].
  - rewrite lookup_delete_ne by congruence. reflexivity.
  - rewrite lookup_insert_ne by congruence. reflexivity.
Qed.

End AssignmentFacts.

(** C4 (amended): for every non-null owning handle (a callback, or the
    scoped reference inside it) that points at a live bind state.
    Constructing a copy of it returns a handle to the identical object (the
    two compare equal), raises that object's count by exactly one and
    changes nothing else; constructing a handle by moving it hands the
    pointer to the destination, leaves the source null, and leaves the world,
    so every count, as it was.  Assigning it to a destination does the same
    to the source and to the destination's new value, and besides releases
    the reference the destination held before: none when the destination was
    null; the same object's when the destination already referenced it, so
    that a copy assignment leaves its count as it was and a move assignment
    leaves it one lower; another object's otherwise, which loses one
    reference (and is destroyed when that was its last) while the source's
    object gains one by a copy and none by a move. *)
Theorem copy_adds_one_reference_move_adds_none :
  forall (w : World) (c : CallbackBase.t) (p : addr) (bs : BindState),
    CallbackBase.bind_state_ c = Some p ->
    objects w !! p = Some bs ->
    let n := BindStateBase.count (bind_base bs) in
    let w' := mkWorld (<[p := add_count 1 bs]> (objects w)) (destroyed w) in
    (count_at w p = Some n /\ count_at w' p = Some (n + 1) /\
     (forall q, q <> p -> objects w' !! q = objects w !! q) /\
     destroyed w' = destroyed w) /\
    (exists c',
        CallbackBaseCopyable.copy_ctor c w = Done c' w' /\
        CallbackBase.copy_ctor c w = Done c' w' /\
        CallbackBase.bind_state_ c' = CallbackBase.bind_state_ c /\
        CallbackBase.EqualsInternal c c' = true) /\
    scoped_refptr.copy_ctor (Some p) w = Done (Some p) w' /\
    (exists source destination,
        CallbackBase.move_ctor c w = Done (source, destination) w /\
        CallbackBase.bind_state_ destination = Some p /\
        CallbackBase.bind_state_ source = None /\
        CallbackBase.is_null source = true) /\
    scoped_refptr.move_ctor (Some p) w = Done (None, Some p) w /\
    (let this := CallbackBase.mk None in
     CallbackBaseCopyable.copy_assign this c w = Done c w' /\
     CallbackBase.copy_assign this c w = Done c w' /\
     CallbackBase.move_assign this c w = Done (CallbackBase.mk None, c) w) /\
    (let this := CallbackBase.mk (Some p) in
     CallbackBaseCopyable.copy_assign this c w
       = Done c (after_release w' p (add_count 1 bs)) /\
     CallbackBase.copy_assign this c w
       = Done c (after_release w' p (add_count 1 bs)) /\
     (n <> 0 -> after_release w' p (add_count 1 bs) = w) /\
     CallbackBase.move_assign this c w
       = Done (CallbackBase.mk None, c) (after_release w p bs) /\
     count_at (after_release w p bs) p = (if n - 1 =? 0 then None else Some (n - 1))) /\
    (forall (q : addr) (bq : BindState),
        q <> p -> objects w !! q = Some bq ->
        let this := CallbackBase.mk (Some q) in
        let m := BindStateBase.count (bind_base bq) in
        CallbackBaseCopyable.copy_assign this c w = Done c (after_release w' q bq) /\
        CallbackBase.copy_assign this c w = Done c (after_release w' q bq) /\
        count_at (after_release w' q bq) p = Some (n + 1) /\
        count_at (after_release w' q bq) q = (if m - 1 =? 0 then None else Some (m - 1)) /\
        CallbackBase.move_assign this c w
          = Done (CallbackBase.mk None, c) (after_release w q bq) /\
        count_at (after_release w q bq) p = Some n /\
        count_at (after_release w q bq) q = (if m - 1 =? 0 then None else Some (m - 1))).
Proof.
  intros w [r] p bs Hc Hp n w'. simpl in Hc. subst r.
  assert (Hw' : w' = after_add_ref w p bs) by reflexivity.
  assert (Hcopy : forall this : scoped_refptr.t,
            CallbackBaseCopyable.copy_assign (CallbackBase.mk this)
              (CallbackBase.mk (Some p)) w
            = CallbackBase.copy_assign (CallbackBase.mk this)
                (CallbackBase.mk (Some p)) w) by reflexivity.
  assert (Hn : count_at w p = Some n) by (unfold count_at; rewrite Hp; reflexivity).
  assert (Hn' : count_at w' p = Some (n + 1)) by apply count_at_insert.
  split; [|split; [|split; [|split; [|split; [|split; [|split]]]]]].
  - split; [exact Hn|]. split; [exact Hn'|].
    split; [|reflexivity]. intros q Hq. simpl. apply lookup_insert_ne. congruence.
  - exists (CallbackBase.mk (Some p)).
    unfold CallbackBaseCopyable.copy_ctor, CallbackBase.copy_ctor,
      scoped_refptr.copy_assign, bind. cbn [CallbackBase.bind_state_].
    rewrite (scoped_refptr_copy_ctor_run _ _ _ Hp). fold w'. simpl.
    repeat split. apply EqualsInternal_spec. reflexivity.
  - apply scoped_refptr_copy_ctor_run. exact Hp.
  - exists (CallbackBase.mk None), (CallbackBase.mk (Some p)). repeat split.
  - reflexivity.
  - cbv zeta. rewrite Hcopy.
    unfold CallbackBase.copy_assign, CallbackBase.move_assign, bind.
    cbn [CallbackBase.bind_state_].
    rewrite (scoped_refptr_copy_assign_run w p bs None Hp), scoped_refptr_move_assign_run.
    repeat split.
  - cbv zeta. rewrite Hcopy.
    unfold CallbackBase.copy_assign, CallbackBase.move_assign, bind.
    cbn [CallbackBase.bind_state_].
    rewrite (scoped_refptr_copy_assign_run w p bs (Some p) Hp), scoped_refptr_move_assign_run.
    rewrite <- Hw'.
    assert (Hl : objects w' !! p = Some (add_count 1 bs)) by apply lookup_insert_eq.
    rewrite Hl, Hp.
    split; [reflexivity|]. split; [reflexivity|]. split.
    + intros Hne. rewrite Hw'. apply add_ref_then_release; assumption.
    + split; [reflexivity|]. apply count_after_release.
  - intros q bq Hq Hbq. cbv zeta. rewrite Hcopy.
    unfold CallbackBase.copy_assign, CallbackBase.move_assign, bind.
    cbn [CallbackBase.bind_state_].
    rewrite (scoped_refptr_copy_assign_run w p bs (Some q) Hp), scoped_refptr_move_assign_run.
    rewrite <- Hw'.
    assert (Hl : objects w' !! q = Some bq).
    { unfold w'. cbn [objects]. rewrite lookup_insert_ne by congruence. exact Hbq. }
    rewrite Hl, Hbq.
    split; [reflexivity|]. split; [reflexivity|].
    split; [rewrite count_after_release_other by congruence; exact Hn'|].
    split; [apply count_after_release|].
    split; [reflexivity|].
    split; [rewrite count_after_release_other by congruence; exact Hn|].
    apply count_after_release.
Qed.

Lemma copy_adds_one_reference_move_adds_none_witness :
  let w := sample_world 2 in
  let c := CallbackBase.mk (Some 1%positive) in
  let w' := mkWorld (<[1%positive := add_count 1 (sample_bind_state 2)]> (objects w))
                    (destroyed w) in
  (CallbackBase.bind_state_ c = Some 1%positive /\
   objects w !! 1%positive = Some (sample_bind_state 2)) /\
  count_at w 1%positive = Some 2 /\
  count_at w' 1%positive = Some 3 /\
  CallbackBaseCopyable.copy_ctor c w = Done c w' /\
  CallbackBase.move_ctor c w = Done (CallbackBase.mk None, c) w /\
  CallbackBaseCopyable.copy_assign (CallbackBase.mk None) c w = Done c w' /\
  CallbackBaseCopyable.copy_assign c c w = Done c w /\
  CallbackBase.move_assign (CallbackBase.mk None) c w = Done (CallbackBase.mk None, c) w.
Proof.
  cbv zeta.
  pose proof (copy_adds_one_reference_move_adds_none (sample_world 2)
                (CallbackBase.mk (Some 1%positive)) 1%positive (sample_bind_state 2)
                eq_refl eq_refl) as H.
  cbv zeta in H.
  destruct H as ((H0 & H1 & _) & _ & _ & _ & _ & (Hnull & _ & Hmove) & (Hsame & _ & Hback & _) & _).
  split; [split; reflexivity|].
  split; [exact H0|]. split; [exact H1|]. split; [reflexivity|]. split; [reflexivity|].
  split; [exact Hnull|]. split; [|exact Hmove].
  etrans; [exact Hsame|]. exact (f_equal (Done _) (Hback ltac:(discriminate))).
Defined.

(** C5: [EqualsInternal] returns true iff the two handles hold the same
    pointer, that is, reference the identical bind-state instance (two null
    handles hold the same null pointer); and two callbacks bound one after
    the other from the same function, destructor and argument values are
    both non-null, capture equal values, sit at different addresses, and
    compare unequal. *)
Theorem EqualsInternal_is_reference_identity :
  (forall a b : CallbackBase.t,
      CallbackBase.EqualsInternal a b = true
      <-> CallbackBase.bind_state_ a = CallbackBase.bind_state_ b) /\
  (forall (tag : StartRefCountTag) (inv : InvokeFuncStorage) (d : DestructorFunc)
          (args : list Z) (w : World),
      exists a w1 b w2 pa pb bsa bsb,
        Bind tag inv d args w = Done a w1 /\
        Bind tag inv d args w1 = Done b w2 /\
        CallbackBase.bind_state_ a = Some pa /\
        CallbackBase.bind_state_ b = Some pb /\
        objects w2 !! pa = Some bsa /\
        objects w2 !! pb = Some bsb /\
        bound_args_ bsa = bound_args_ bsb /\
        bind_base bsa = bind_base bsb /\
        pa <> pb /\
        CallbackBase.EqualsInternal a b = false).
Proof.
  split; [exact EqualsInternal_spec|].
  intros tag inv d args w.
  destruct (Bind_run tag inv d args w) as (Hfree1 & Hrun1).
  set (pa := fresh (dom (objects w))) in *.
  set (bs := mkBindState _ args) in Hrun1.
  set (w1 := mkWorld (<[pa := bs]> (objects w)) (destroyed w)) in *.
  destruct (Bind_run tag inv d args w1) as (Hfree2 & Hrun2).
  set (pb := fresh (dom (objects w1))) in *.
  fold bs in Hrun2.
  assert (Hne : pa <> pb).
  { intros E. rewrite <- E in Hfree2. unfold w1 in Hfree2. simpl in Hfree2.
    rewrite lookup_insert_eq in Hfree2. discriminate. }
  eexists _, w1, _, _, pa, pb, bs, bs.
  split; [exact Hrun1|]. split; [exact Hrun2|].
  split; [reflexivity|]. split; [reflexivity|].
  split; [simpl; rewrite lookup_insert_ne by congruence; apply lookup_insert_eq|].
  split; [simpl; apply lookup_insert_eq|].
  split; [reflexivity|]. split; [reflexivity|]. split; [exact Hne|].
  apply not_true_is_false. rewrite EqualsInternal_spec. simpl. congruence.
Qed.

(** C6: for every well-formed callback handle, [is_null()] is true iff the
    handle references no bind state; [Reset()] returns normally and leaves
    the handle null, so [is_null()] is then true; the world changes exactly
    by one [Release] of the bind state the handle referenced: its count is
    one lower, and it is destroyed when that takes the count to zero. *)
Theorem Reset_nulls_the_handle_and_releases :
  forall (w : World) (c : CallbackBase.t),
    handle_ok w c ->
    (CallbackBase.is_null c = true <-> CallbackBase.bind_state_ c = None) /\
    exists c' w',
      CallbackBase.Reset c w = Done c' w' /\
      CallbackBase.bind_state_ c' = None /\
      CallbackBase.is_null c' = true /\
      match CallbackBase.bind_state_ c with
      | None => w' = w
      | Some p =>
          RefCountedThreadSafe.Release p w = Done tt w' /\
          exists bs, objects w !! p = Some bs /\
            let n := BindStateBase.count (bind_base bs) in
            (n - 1 <> 0 ->
               count_at w' p = Some (n - 1) /\ destroyed w' = destroyed w) /\
            (n - 1 = 0 ->
               objects w' !! p = None /\
               destroyed w' = (p, add_count (-1) bs) :: destroyed w)
      end.
Proof.
  intros w [r] Hok. split; [apply is_null_spec|].
  unfold handle_ok in Hok. simpl in *. destruct r as [p|].
  - destruct Hok as [bs Hp].
    unfold CallbackBase.Reset, scoped_refptr.assign_nullptr, scoped_refptr.dtor, bind.
    simpl. rewrite (Release_at _ _ _ Hp).
    eexists _, _. split; [reflexivity|]. split; [reflexivity|]. split; [reflexivity|].
    split; [reflexivity|]. exists bs. split; [exact Hp|]. cbv zeta.
    destruct (Z.eqb_spec (BindStateBase.count (bind_base bs) - 1) 0) as [E|E].
    + split; [intros; contradiction|]. intros _. simpl.
      split; [apply lookup_delete_eq | reflexivity].
    + split; [|intros; contradiction]. intros _.
      split; [|reflexivity].
      replace (BindStateBase.count (bind_base bs) - 1)
        with (BindStateBase.count (bind_base bs) + -1) by lia.
      apply count_at_insert.
  - exists (CallbackBase.mk None), w. repeat split.
Qed.

Lemma Reset_nulls_the_handle_and_releases_witness :
  let w := sample_world 2 in
  let c := CallbackBase.mk (Some 1%positive) in
  handle_ok w c /\
  CallbackBase.is_null c = false /\
  exists c' w',
    CallbackBase.Reset c w = Done c' w' /\
    CallbackBase.is_null c' = true /\
    count_at w 1%positive = Some 2 /\
    count_at w' 1%positive = Some 1.
Proof.
  cbv zeta.
  assert (Hok : handle_ok (sample_world 2) (CallbackBase.mk (Some 1%positive))).
  { unfold handle_ok. simpl. exists (sample_bind_state 2). reflexivity. }
  split; [exact Hok|]. split; [reflexivity|].
  destruct (Reset_nulls_the_handle_and_releases _ _ Hok)
    as (_ & c' & w' & Hreset & _ & Hnull & Hrel & _).
  exists c', w'. split; [exact Hreset|]. split; [exact Hnull|].
  split; [reflexivity|].
  cbv in Hrel. injection Hrel as <-. reflexivity.
Defined.

(** C7: the two-argument constructor of BindStateBase installs
    [&ReturnFalse] as the cancellation predicate, whatever the other
    arguments; and for every non-null callback that references a live bind
    state so constructed (its count having changed by any [k] since),
    [IsCancelled()] returns [false] and changes nothing. *)
Theorem default_cancellation_predicate_returns_false :
  forall (tag : StartRefCountTag) (inv : InvokeFuncStorage) (d : DestructorFunc)
         (args : list Z) (k : Z) (w : World) (c : CallbackBase.t) (p : addr),
    CallbackBase.bind_state_ c = Some p ->
    objects w !! p = Some (add_count k (mkBindState (BindStateBase.ctor2 tag inv d) args)) ->
    BindStateBase.is_cancelled_ (BindStateBase.ctor2 tag inv d)
      = BindStateBase.addr_of_ReturnFalse /\
    BindStateBase.ctor2 tag inv d
      = BindStateBase.ctor3 tag inv d BindStateBase.addr_of_ReturnFalse /\
    CallbackBase.is_null c = false /\
    CallbackBase.IsCancelled c w = Done false w.
Proof.
  intros tag inv d args k w [r] p Hc Hp. simpl in Hc. subst r.
  split; [reflexivity|]. split; [reflexivity|]. split; [reflexivity|].
  rewrite (IsCancelled_run _ _ _ Hp). reflexivity.
Qed.

Lemma default_cancellation_predicate_returns_false_witness :
  let w := sample_world 2 in
  let c := CallbackBase.mk (Some 1%positive) in
  (CallbackBase.bind_state_ c = Some 1%positive /\
   objects w !! 1%positive
     = Some (add_count 2 (mkBindState
                            (BindStateBase.ctor2 kStartRefCountFromZeroTag 7%N 9%N) [3]))) /\
  CallbackBase.IsCancelled c w = Done false w.
Proof.
  cbv zeta. split; [split; reflexivity|].
  apply (default_cancellation_predicate_returns_false
           kStartRefCountFromZeroTag 7%N 9%N [3] 2 (sample_world 2)
           (CallbackBase.mk (Some 1%positive)) 1%positive eq_refl eq_refl).
Defined.

(** C10: [IsCancelled()] has no check of its own for a null callback.  For
    every world and every callback handle: when the bind-state reference is
    null the call is a null dereference (not a reported assertion failure);
    the call is a null dereference exactly when [is_null()] is true; and on a
    non-null handle to a live bind state it returns that bind state's
    predicate's answer and changes nothing. *)
Theorem IsCancelled_on_null_callback_dereferences_null :
  forall (w : World) (c : CallbackBase.t),
    (CallbackBase.IsCancelled c w = Crash NullDereference
     <-> CallbackBase.is_null c = true) /\
    (CallbackBase.bind_state_ c = None ->
     CallbackBase.IsCancelled c w = Crash NullDereference) /\
    dcheck_failures (CallbackBase.IsCancelled c w) = 0%nat /\
    (forall p bs,
        CallbackBase.bind_state_ c = Some p -> objects w !! p = Some bs ->
        CallbackBase.is_null c = false /\
        CallbackBase.IsCancelled c w = Done (BindStateBase_IsCancelled bs) w).
Proof.
  intros w [r]. destruct r as [p|]; simpl.
  - split; [|split; [|split]].
    + split; [|discriminate].
      unfold CallbackBase.IsCancelled, scoped_refptr.arrow. simpl.
      destruct (objects w !! p); discriminate.
    + discriminate.
    + unfold CallbackBase.IsCancelled, scoped_refptr.arrow. simpl.
      destruct (objects w !! p); reflexivity.
    + intros q bs [= <-] Hp. split; [reflexivity|]. apply IsCancelled_run. exact Hp.
  - split; [|split; [|split]].
    + split; reflexivity.
    + reflexivity.
    + reflexivity.
    + intros q bs Hq. discriminate.
Qed.

(* ===================================================================== *)
(** ** Further properties of the reference count                          *)
(* ===================================================================== *)

Section RefCountedArithmetic.

Import RefCounted.

Lemma wrap32_idem_add a b : wrap32 (wrap32 a + b) = wrap32 (a + b).
Proof. unfold wrap32. apply Zplus_mod_idemp_l. Qed.

Lemma step_count c o :
  count (step c o)
  = wrap32 (count o + match c with CallAddRef => 1 | CallRelease => -1 end).
Proof. destruct c; reflexivity. Qed.

Lemma adds_bounds cs : 0 <= adds cs <= Z.of_nat (length cs).
Proof. induction cs as [|[] cs IH]; cbn [adds length]; lia. Qed.

End RefCountedArithmetic.

(** X1: for a count that is a [uint32_t] value, [HasOneRef()] answers what
    the next [Release()] will return: it is true exactly when the count is
    one, which is exactly when [Release()] takes the count to zero and tells
    its caller to destroy the object.  [HasOneRef()] itself changes
    nothing. *)
Theorem HasOneRef_tells_whether_Release_destroys :
  forall o : RefCountedBase.t,
    is_uint32 (RefCountedBase.ref_count_ o) ->
    exists (r : bool) (o' : RefCountedBase.t),
      RefCountedBase.HasOneRef o = Done r o /\
      RefCountedBase.Release o = Done r o' /\
      (r = true <-> RefCountedBase.ref_count_ o = 1) /\
      (r = true <-> RefCountedBase.ref_count_ o' = 0).
Proof.
  intros [c] Hc. unfold is_uint32, uint32_max in Hc. simpl in Hc.
  exists (c =? 1), (RefCountedBase.mk (wrap32 (c - 1))).
  assert (Hw : wrap32 (c - 1) = if c =? 0 then uint32_max else c - 1).
  { destruct (Z.eqb_spec c 0) as [-> | Hne]; [reflexivity|].
    apply wrap32_small. unfold uint32_max. lia. }
  split; [reflexivity|]. split.
  - rewrite Release_run. simpl. f_equal. rewrite Hw.
    destruct (Z.eqb_spec c 0) as [-> | Hne]; [reflexivity|].
    destruct (Z.eqb_spec c 1), (Z.eqb_spec (c - 1) 0); try reflexivity; lia.
  - split; [apply Z.eqb_eq|]. simpl. rewrite Hw, Z.eqb_eq.
    destruct (Z.eqb_spec c 0) as [-> | Hne]; unfold uint32_max; lia.
Qed.

Lemma HasOneRef_tells_whether_Release_destroys_witness :
  is_uint32 (RefCountedBase.ref_count_ (RefCountedBase.mk 1)) /\
  exists (r : bool) (o' : RefCountedBase.t),
    RefCountedBase.HasOneRef (RefCountedBase.mk 1) = Done r (RefCountedBase.mk 1) /\
    RefCountedBase.Release (RefCountedBase.mk 1) = Done r o' /\
    (r = true <-> RefCountedBase.ref_count_ (RefCountedBase.mk 1) = 1) /\
    (r = true <-> RefCountedBase.ref_count_ o' = 0).
Proof.
  assert (H : is_uint32 (RefCountedBase.ref_count_ (RefCountedBase.mk 1)))
    by (unfold is_uint32, uint32_max; simpl; lia).
  split; [exact H|].
  exact (HasOneRef_tells_whether_Release_destroys (RefCountedBase.mk 1) H).
Defined.

(** X2: [AddRef()] and [Release()] undo each other on every [uint32_t]
    count, the two ends included.  [AddRef()] followed by [Release()] gives
    the count back, and that [Release()] returns true exactly when the count
    was zero (a fresh start-from-zero object that is referenced once and
    released is destroyed).  [Release()] followed by [AddRef()] gives the
    count back as well, but the [Release()] in the middle has already
    returned true when the count was one. *)
Theorem AddRef_and_Release_undo_each_other :
  forall o : RefCountedBase.t,
    is_uint32 (RefCountedBase.ref_count_ o) ->
    (let* _ := RefCountedBase.AddRef in RefCountedBase.Release) o
      = Done (RefCountedBase.ref_count_ o =? 0) o /\
    (let* r := RefCountedBase.Release in RefCountedBase.AddRef >> ret r) o
      = Done (RefCountedBase.ref_count_ o =? 1) o.
Proof.
  intros [c] Hc. unfold is_uint32, uint32_max in Hc. simpl in Hc.
  assert (Hup : wrap32 (wrap32 (c + 1) - 1) = c).
  { replace (wrap32 (c + 1) - 1) with (wrap32 (c + 1) + -1) by lia.
    rewrite wrap32_idem_add. replace (c + 1 + -1) with c by lia.
    apply wrap32_small. unfold uint32_max. lia. }
  assert (Hdown : wrap32 (wrap32 (c - 1) + 1) = c).
  { rewrite wrap32_idem_add. replace (c - 1 + 1) with c by lia.
    apply wrap32_small. unfold uint32_max. lia. }
  split.
  - cbn -[wrap32 Z.eqb Z.sub Z.add]. rewrite Hup. reflexivity.
  - cbn -[wrap32 Z.eqb Z.sub Z.add]. rewrite Hdown. f_equal.
    destruct (Z.eqb_spec c 0) as [-> | Hne]; [reflexivity|].
    rewrite wrap32_small by (unfold uint32_max; lia).
    destruct (Z.eqb_spec c 1), (Z.eqb_spec (c - 1) 0); try reflexivity; lia.
Qed.

Lemma AddRef_and_Release_undo_each_other_witness :
  let o := RefCountedBase.mk uint32_max in
  is_uint32 (RefCountedBase.ref_count_ o) /\
  (let* _ := RefCountedBase.AddRef in RefCountedBase.Release) o = Done false o /\
  (let* r := RefCountedBase.Release in RefCountedBase.AddRef >> ret r) o = Done false o.
Proof.
  cbv zeta.
  assert (H : is_uint32 (RefCountedBase.ref_count_ (RefCountedBase.mk uint32_max)))
    by (unfold is_uint32, uint32_max; simpl; lia).
  split; [exact H|].
  exact (AddRef_and_Release_undo_each_other (RefCountedBase.mk uint32_max) H).
Defined.

(** X3: the count is the number of outstanding references.  For a sequence
    of [AddRef()] and [Release()] calls on a payload that is alive at the
    start and whose count is a [uint32_t] value: if no call is made after the
    destructor has run, every call returns, the count afterwards is the count
    before, plus the number of [AddRef()]s, minus the number of [Release()]s,
    reduced modulo [2^32], and the destructor has run at most once; if some
    call is made after the destructor has run, the sequence is a use after
    free. *)
Theorem count_is_the_number_of_outstanding_references :
  forall (cs : list RefCounted.Call) (o : RefCounted.t RefCounted.Counted),
    is_uint32 (RefCounted.count o) ->
    RefCounted.destructor_runs o = 0%nat ->
    (RefCounted.calls_on_live cs o = true ->
       exists o',
         RefCounted.calls cs o = Done tt o' /\
         RefCounted.count o'
         = wrap32 (RefCounted.count o + RefCounted.adds cs - RefCounted.releases cs) /\
         (RefCounted.destructor_runs o' <= 1)%nat) /\
    (RefCounted.calls_on_live cs o = false ->
       RefCounted.calls cs o = Crash WildPointer).
Proof.
  intros cs o Ho Hd. split; [|apply calls_not_live].
  revert o Ho Hd. induction cs as [|c cs IH]; intros o Ho Hd Hcalls.
  - exists o. split; [reflexivity|]. split; [|lia].
    cbn [RefCounted.adds RefCounted.releases]. rewrite wrap32_small; [lia|].
    unfold is_uint32 in Ho. lia.
  - rewrite calls_on_live_cons in Hcalls. apply andb_true_iff in Hcalls as [_ Hrest].
    rewrite calls_cons by exact Hd.
    assert (Hs : is_uint32 (RefCounted.count (RefCounted.step c o)))
      by (rewrite step_count; apply wrap32_range).
    assert (Hformula : forall x,
              x = wrap32 (RefCounted.count (RefCounted.step c o)
                          + RefCounted.adds cs - RefCounted.releases cs) ->
              x = wrap32 (RefCounted.count o + RefCounted.adds (c :: cs)
                          - RefCounted.releases (c :: cs))).
    { intros x ->. rewrite step_count.
      match goal with
      | |- wrap32 (wrap32 ?x + ?a - ?b) = _ =>
          replace (wrap32 x + a - b) with (wrap32 x + (a - b)) by lia
      end.
      rewrite wrap32_idem_add. f_equal.
      destruct c; cbn [RefCounted.adds RefCounted.releases]; lia. }
    destruct (Nat.eq_dec (RefCounted.destructor_runs (RefCounted.step c o)) 0%nat)
      as [Hd' | Hd'].
    + destruct (IH (RefCounted.step c o) Hs Hd' Hrest) as (o' & Hrun & Hcount & Hruns).
      exists o'. split; [exact Hrun|]. split; [apply Hformula; exact Hcount | exact Hruns].
    + destruct cs as [|c' cs].
      * exists (RefCounted.step c o). split; [reflexivity|]. split.
        -- apply Hformula. cbn [RefCounted.adds RefCounted.releases].
           rewrite wrap32_small; [lia|]. unfold is_uint32 in Hs. lia.
        -- destruct c, o as [[n] d];
             unfold RefCounted.step, RefCounted.destructor_runs, RefCounted.count in *;
             cbn [RefCounted.self RefCounted.base RefCountedBase.ref_count_] in *.
           ++ lia.
           ++ subst d. destruct (wrap32 (n - 1) =? 0); lia.
      * rewrite calls_on_live_cons in Hrest. apply andb_true_iff in Hrest as [E _].
        apply Nat.eqb_eq in E. contradiction.
Qed.

Lemma count_is_the_number_of_outstanding_references_witness :
  let cs := [RefCounted.CallAddRef; RefCounted.CallAddRef; RefCounted.CallRelease] in
  let o := RefCounted.ctor kStartRefCountFromZeroTag 0%nat in
  (is_uint32 (RefCounted.count o) /\ RefCounted.destructor_runs o = 0%nat /\
   RefCounted.calls_on_live cs o = true) /\
  exists o',
    RefCounted.calls cs o = Done tt o' /\
    RefCounted.count o' = 1.
Proof.
  cbv zeta.
  assert (H : is_uint32 (RefCounted.count (RefCounted.ctor kStartRefCountFromZeroTag 0%nat)))
    by (unfold is_uint32, uint32_max, RefCounted.count; simpl; lia).
  assert (Hd : RefCounted.destructor_runs (RefCounted.ctor kStartRefCountFromZeroTag 0%nat)
               = 0%nat) by reflexivity.
  assert (Hl : RefCounted.calls_on_live
                 [RefCounted.CallAddRef; RefCounted.CallAddRef; RefCounted.CallRelease]
                 (RefCounted.ctor kStartRefCountFromZeroTag 0%nat) = true) by reflexivity.
  split; [split; [exact H | split; [exact Hd | exact Hl]]|].
  destruct (proj1 (count_is_the_number_of_outstanding_references
                     [RefCounted.CallAddRef; RefCounted.CallAddRef; RefCounted.CallRelease]
                     _ H Hd) Hl)
    as (o' & Hrun & Hcount & _).
  exists o'. split; [exact Hrun|]. rewrite Hcount. reflexivity.
Defined.

(* ===================================================================== *)
(** ** Properties of ObserverList                                         *)
(* ===================================================================== *)

Section ObserverListFacts.

Import Try ObserverList.
Local Open Scope try_scope.

Variable DCHECK_IS_ON : bool.
Implicit Types (o : t) (l : list Observer) (p q : positive) (obs : Observer).

Lemma present_app l1 l2 : present (l1 ++ l2) = present l1 ++ present l2.
Proof. unfold present. apply omap_app. Qed.

Lemma elem_of_present l p : p ∈ present l <-> Some p ∈ l.
Proof.
  unfold present. rewrite list_elem_of_omap. split.
  - intros (x & Hx & Hid). simpl in Hid. subst x. exact Hx.
  - intros H. exists (Some p). split; [exact H | reflexivity].
Qed.

Lemma HasObserver_true obs o : HasObserver obs o = true <-> obs ∈ observers_ o.
Proof. unfold HasObserver. apply bool_decide_eq_true. Qed.

Lemma HasObserver_false obs o : HasObserver obs o = false <-> obs ∉ observers_ o.
Proof. unfold HasObserver. apply bool_decide_eq_false. Qed.

Lemma find_None obs l : find obs l = None <-> obs ∉ l.
Proof.
  unfold find. destruct (list_find _ l) as [[i x]|] eqn:E; simpl.
  - split; [discriminate|]. intros Hn. apply list_find_Some in E as (Hi & -> & _).
    exfalso. apply Hn. eapply list_elem_of_lookup_2. exact Hi.
  - split; [|reflexivity]. intros _ Hin.
    rewrite list_find_None in E. rewrite Forall_forall in E. apply (E obs); [exact Hin|reflexivity].
Qed.

Lemma find_Some obs l i :
  find obs l = Some i <-> l !! i = Some obs /\ forall j, (j < i)%nat -> l !! j <> Some obs.
Proof.
  unfold find. destruct (list_find _ l) as [[k x]|] eqn:E; simpl.
  - apply list_find_Some in E as (Hk & -> & Hbefore). split.
    + intros [= <-]. split; [exact Hk|]. intros j Hj Hjx.
      apply (Hbefore j obs Hjx Hj). reflexivity.
    + intros (Hi & Hfirst). f_equal.
      destruct (Nat.lt_trichotomy k i) as [Hlt | [-> | Hgt]]; [|reflexivity|].
      * exfalso. apply (Hfirst k Hlt). exact Hk.
      * exfalso. apply (Hbefore i obs Hi Hgt). reflexivity.
  - split; [discriminate|]. intros (Hi & _). exfalso.
    rewrite list_find_None in E. rewrite Forall_forall in E. apply (E obs); [|reflexivity].
    eapply list_elem_of_lookup_2. exact Hi.
Qed.

End ObserverListFacts.

Section ObserverListMutations.

Import Try ObserverList.
Local Open Scope try_scope.

Implicit Types (o : t) (l : list Observer) (p q : positive) (obs : Observer).

Lemma present_snoc l p : present (l ++ [Some p]) = present l ++ [p].
Proof. rewrite present_app. reflexivity. Qed.

Lemma present_insert_None l i :
  present (<[i := None]> l) = present (take i l) ++ present (drop (S i) l).
Proof.
  revert i. induction l as [|x l IH]; intros [|i]; simpl; try reflexivity.
  unfold present in *. simpl. rewrite IH. destruct x; reflexivity.
Qed.

Lemma present_delete l i :
  present (delete i l) = present (take i l) ++ present (drop (S i) l).
Proof.
  revert i. induction l as [|x l IH]; intros [|i]; simpl; try reflexivity.
  unfold present in *. simpl. rewrite IH. destruct x; reflexivity.
Qed.

Lemma present_split l i p :
  l !! i = Some (Some p) ->
  present l = present (take i l) ++ p :: present (drop (S i) l).
Proof.
  intros Hi. rewrite <- (take_drop_middle l i (Some p) Hi) at 1.
  rewrite present_app. reflexivity.
Qed.

Lemma present_replicate_None n : present (replicate n None) = [].
Proof. induction n; [reflexivity | exact IHn]. Qed.

Lemma present_filter l : present (filter (fun x => x <> None) l) = present l.
Proof.
  induction l as [|[p|] l IH]; [reflexivity | |].
  - rewrite filter_cons_True by discriminate. unfold present in *. simpl. f_equal. exact IH.
  - rewrite filter_cons_False by (intros H; apply H; reflexivity). exact IH.
Qed.

Lemma filter_not_None l : filter (fun x => x <> None) l = Some <$> present l.
Proof.
  induction l as [|[p|] l IH]; [reflexivity | |].
  - rewrite filter_cons_True by discriminate. unfold present in *. simpl. f_equal. exact IH.
  - rewrite filter_cons_False by (intros H; apply H; reflexivity). exact IH.
Qed.

End ObserverListMutations.

Section ObserverListOperations.

Import Try ObserverList.
Local Open Scope try_scope.

Variable DCHECK_IS_ON : bool.
Implicit Types (o : t) (l : list Observer) (p q : positive) (obs : Observer).

Lemma AddObserver_run o p :
  AddObserver DCHECK_IS_ON (Some p) o
  = if HasObserver (Some p) o
    then (if DCHECK_IS_ON then Fail (DcheckFailed AddObserver_twice) else Ok tt o)
    else Ok tt (set_observers (observers_ o ++ [Some p]) o).
Proof.
  unfold AddObserver, DCHECK, bind, gets.
  rewrite (bool_decide_eq_true_2 (is_Some (Some p))) by (eexists; reflexivity).
  rewrite andb_false_r. simpl.
  destruct (HasObserver (Some p) o); [|reflexivity].
  destruct DCHECK_IS_ON; reflexivity.
Qed.

Lemma RemoveObserver_run o p :
  0 <= live_iterator_count_ o ->
  RemoveObserver DCHECK_IS_ON (Some p) o
  = Ok tt match find (Some p) (observers_ o) with
          | None => o
          | Some i =>
              if live_iterator_count_ o =? 0
              then set_observers (delete i (observers_ o)) o
              else set_observers (<[i := None]> (observers_ o)) o
          end.
Proof.
  intros Hc. unfold RemoveObserver, DCHECK, bind, gets.
  rewrite (bool_decide_eq_true_2 (is_Some (Some p))) by (eexists; reflexivity).
  rewrite andb_false_r. simpl.
  destruct (find (Some p) (observers_ o)) as [i|]; [|reflexivity].
  replace (0 <=? live_iterator_count_ o) with true by (symmetry; apply Z.leb_le; exact Hc).
  rewrite andb_false_r. simpl.
  destruct (live_iterator_count_ o =? 0); reflexivity.
Qed.

Lemma Clear_run o :
  0 <= live_iterator_count_ o ->
  Clear DCHECK_IS_ON o
  = Ok tt (if live_iterator_count_ o =? 0
           then set_observers [] o
           else set_observers (replicate (length (observers_ o)) None) o).
Proof.
  intros Hc. unfold Clear, DCHECK, bind, gets.
  replace (0 <=? live_iterator_count_ o) with true by (symmetry; apply Z.leb_le; exact Hc).
  rewrite andb_false_r. simpl.
  destruct (live_iterator_count_ o =? 0); reflexivity.
Qed.

Lemma filter_ne_not_in {A} `{EqDecision A} (x : A) (l : list A) :
  x ∉ l -> filter (fun y => y <> x) l = l.
Proof.
  induction l as [|y l IH]; intros Hn; [reflexivity|].
  apply not_elem_of_cons in Hn as [Hne Hn].
  rewrite filter_cons_True by congruence. f_equal. apply IH. exact Hn.
Qed.

Lemma filter_ne_middle {A} `{EqDecision A} (x : A) (l1 l2 : list A) :
  x ∉ l1 -> x ∉ l2 -> filter (fun y => y <> x) (l1 ++ x :: l2) = l1 ++ l2.
Proof.
  intros H1 H2. rewrite filter_app, filter_cons_False by (intros H; apply H; reflexivity).
  rewrite !filter_ne_not_in by assumption. reflexivity.
Qed.

(** Where an observer sits in a well-formed vector, it sits nowhere else. *)
Lemma only_slot l i p :
  NoDup (present l) -> l !! i = Some (Some p) ->
  (Some p ∉ take i l) /\ (Some p ∉ drop (S i) l).
Proof.
  intros Hnd Hi. rewrite (present_split l i p Hi) in Hnd.
  apply NoDup_app in Hnd as (_ & Hdisj & Hnd2).
  apply NoDup_cons in Hnd2 as (Hnotin & _).
  split.
  - intros Hin. apply elem_of_present in Hin.
    apply (Hdisj p Hin). left.
  - intros Hin. apply elem_of_present in Hin. contradiction.
Qed.

End ObserverListOperations.

Section ObserverListTheorems.

Import Try ObserverList.
Local Open Scope try_scope.

Implicit Types (o : t) (l : list Observer) (p q : positive) (obs : Observer).

(** X4: [AddObserver] of a non-null observer that is not in the list appends
    it at the end and changes nothing else; of one that is already in the
    list it changes nothing in a build without DCHECKs and is fatal
    ([NOTREACHED]) in a build with them.  So it returns exactly when the
    build has no DCHECKs or the observer was not in the list, and it fails in
    no other way; when it returns the observer is in the list afterwards, and
    a well-formed list stays well formed: no observer is ever held twice. *)
Theorem AddObserver_adds_at_most_once :
  forall (DCHECK_IS_ON : bool) (o : t) (p : positive),
    match AddObserver DCHECK_IS_ON (Some p) o with
    | Ok _ o' =>
        (DCHECK_IS_ON = false \/ HasObserver (Some p) o = false) /\
        HasObserver (Some p) o' = true /\
        observers_ o' = (if HasObserver (Some p) o then observers_ o
                         else observers_ o ++ [Some p]) /\
        live_iterator_count_ o' = live_iterator_count_ o /\
        policy_ o' = policy_ o /\
        (well_formed o -> well_formed o')
    | Fail e =>
        DCHECK_IS_ON = true /\ HasObserver (Some p) o = true /\
        e = DcheckFailed AddObserver_twice
    end.
Proof.
  intros D o p. rewrite AddObserver_run.
  destruct (HasObserver (Some p) o) eqn:Hhas.
  - destruct D; [repeat split|]. split; [left; reflexivity|].
    repeat split; try assumption; apply H.
  - split; [right; reflexivity|].
    split; [|split; [reflexivity|split; [reflexivity|split; [reflexivity|]]]].
    + apply HasObserver_true. simpl. apply elem_of_app. right. apply list_elem_of_singleton. reflexivity.
    + intros (Hnd & Hc). split; [|exact Hc]. simpl. rewrite present_snoc.
      apply NoDup_app. split; [exact Hnd|]. split; [|apply NoDup_singleton].
      intros x Hx Hxp. apply list_elem_of_singleton in Hxp. subst x.
      apply HasObserver_false in Hhas. apply Hhas. apply elem_of_present. exact Hx.
Qed.

(** X5: on a well-formed list [RemoveObserver] always returns; afterwards
    the observer is not in the list and the other observers are the same, in
    the same order.  With no live iterator its slot is erased; with a live
    iterator the vector keeps its length and every other slot its content,
    and the observer's slot is nulled.  An observer that is not in the list
    leaves the list as it was. *)
Theorem RemoveObserver_removes_exactly_one :
  forall (DCHECK_IS_ON : bool) (o : t) (p : positive),
    well_formed o ->
    exists o',
      RemoveObserver DCHECK_IS_ON (Some p) o = Ok tt o' /\
      HasObserver (Some p) o' = false /\
      present (observers_ o') = filter (fun q => q <> p) (present (observers_ o)) /\
      well_formed o' /\
      live_iterator_count_ o' = live_iterator_count_ o /\
      policy_ o' = policy_ o /\
      (live_iterator_count_ o = 0 ->
         observers_ o' = filter (fun x => x <> Some p) (observers_ o)) /\
      (live_iterator_count_ o <> 0 ->
         length (observers_ o') = length (observers_ o) /\
         forall (i : nat) (x : Observer), observers_ o !! i = Some x ->
           observers_ o' !! i = Some (if decide (x = Some p) then None else x)) /\
      (HasObserver (Some p) o = false -> o' = o).
Proof.
  intros D [l c pol] p (Hnd & Hc). simpl in *.
  rewrite RemoveObserver_run by exact Hc. simpl.
  destruct (find (Some p) l) as [i|] eqn:Hfind.
  - apply find_Some in Hfind as (Hi & _).
    destruct (only_slot l i p Hnd Hi) as (Hbefore & Hafter).
    assert (Hl : l = take i l ++ Some p :: drop (S i) l)
      by (symmetry; apply take_drop_middle; exact Hi).
    assert (Hpb : p ∉ present (take i l)) by (rewrite elem_of_present; exact Hbefore).
    assert (Hpa : p ∉ present (drop (S i) l)) by (rewrite elem_of_present; exact Hafter).
    assert (Hpres : present (take i l) ++ present (drop (S i) l)
                    = filter (fun q => q <> p) (present l)).
    { rewrite (present_split l i p Hi). rewrite filter_ne_middle by assumption. reflexivity. }
    assert (Hnd' : NoDup (present (take i l) ++ present (drop (S i) l))).
    { rewrite Hpres. apply NoDup_filter. exact Hnd. }
    assert (Hnotin : p ∉ present (take i l) ++ present (drop (S i) l)).
    { rewrite elem_of_app. tauto. }
    destruct (c =? 0) eqn:Ec;
      [apply Z.eqb_eq in Ec; subst c | apply Z.eqb_neq in Ec];
      eexists; (split; [reflexivity|]); unfold well_formed;
      cbn [observers_ set_observers live_iterator_count_ policy_].
    + split; [apply HasObserver_false; cbn [observers_ set_observers]; rewrite <- elem_of_present, present_delete; exact Hnotin|].
      split; [rewrite present_delete; exact Hpres|].
      split; [split; [rewrite present_delete; exact Hnd' | simpl; lia]|].
      split; [reflexivity|]. split; [reflexivity|].
      split; [|split; [intros H; contradiction|]].
      * intros _. rewrite Hl at 2. rewrite filter_ne_middle by assumption.
        rewrite delete_take_drop. reflexivity.
      * intros Hhas. apply HasObserver_false in Hhas. exfalso. apply Hhas. simpl.
        eapply list_elem_of_lookup_2. exact Hi.
    + split; [apply HasObserver_false; cbn [observers_ set_observers]; rewrite <- elem_of_present, present_insert_None; exact Hnotin|].
      split; [rewrite present_insert_None; exact Hpres|].
      split; [split; [rewrite present_insert_None; exact Hnd' | simpl; exact Hc]|].
      split; [reflexivity|]. split; [reflexivity|].
      split; [intros H; contradiction|]. split.
      * intros _. split; [apply length_insert|].
        intros j x Hj. destruct (decide (i = j)) as [E | Hij]; [subst j|].
        -- pose proof (eq_trans (eq_sym Hi) Hj) as Hx. injection Hx as <-.
           rewrite decide_True by reflexivity.
           apply list_lookup_insert_eq. eapply lookup_lt_Some. exact Hi.
        -- rewrite list_lookup_insert_ne by exact Hij. etrans; [exact Hj|]. f_equal.
           rewrite decide_False; [reflexivity|]. intros ->.
           destruct (Nat.lt_trichotomy j i) as [Hlt | [Heq | Hgt]]; [| congruence |].
           ++ apply Hbefore. eapply list_elem_of_lookup_2. rewrite lookup_take_lt by exact Hlt. exact Hj.
           ++ apply Hafter. eapply list_elem_of_lookup_2.
              rewrite lookup_drop. replace (S i + (j - S i))%nat with j by lia. exact Hj.
      * intros Hhas. apply HasObserver_false in Hhas. exfalso. apply Hhas. simpl.
        eapply list_elem_of_lookup_2. exact Hi.
  - apply find_None in Hfind.
    assert (Hp : p ∉ present l) by (rewrite elem_of_present; exact Hfind).
    exists (mk l c pol). split; [reflexivity|]. simpl.
    split; [apply HasObserver_false; exact Hfind|].
    split; [rewrite filter_ne_not_in by exact Hp; reflexivity|].
    split; [split; assumption|]. split; [reflexivity|]. split; [reflexivity|].
    split; [intros _; rewrite filter_ne_not_in by exact Hfind; reflexivity|].
    split; [|reflexivity].
    intros _. split; [reflexivity|]. intros j x Hj. etrans; [exact Hj|]. f_equal.
    rewrite decide_False; [reflexivity|]. intros ->. apply Hfind.
    eapply list_elem_of_lookup_2. exact Hj.
Qed.

End ObserverListTheorems.

Section ObserverListDuringIteration.

Import Try ObserverList.
Local Open Scope try_scope.

Implicit Types (o : t) (l : list Observer) (p q : positive) (obs : Observer).

(** X6: [Clear] (given a count of live iterators that is not negative)
    always returns and leaves no observer in the list.  With no live
    iterator the vector is emptied; with a live iterator it keeps its length,
    every slot nulled, so [might_have_observers()] still answers as before
    although no observer is left. *)
Theorem Clear_removes_every_observer :
  forall (DCHECK_IS_ON : bool) (o : t),
    0 <= live_iterator_count_ o ->
    exists o',
      Clear DCHECK_IS_ON o = Ok tt o' /\
      (forall p, HasObserver (Some p) o' = false) /\
      present (observers_ o') = [] /\
      live_iterator_count_ o' = live_iterator_count_ o /\
      policy_ o' = policy_ o /\
      (live_iterator_count_ o = 0 ->
         observers_ o' = [] /\ might_have_observers o' = false) /\
      (live_iterator_count_ o <> 0 ->
         length (observers_ o') = length (observers_ o) /\
         might_have_observers o' = might_have_observers o).
Proof.
  intros D [l c pol] Hc. simpl in Hc. rewrite Clear_run by exact Hc.
  cbn [live_iterator_count_ observers_].
  destruct (c =? 0) eqn:Ec; [apply Z.eqb_eq in Ec | apply Z.eqb_neq in Ec];
    eexists; (split; [reflexivity|]); cbn [observers_ set_observers live_iterator_count_ policy_].
  - split; [intros p; apply HasObserver_false; simpl; apply not_elem_of_nil|].
    split; [reflexivity|]. split; [reflexivity|]. split; [reflexivity|].
    split; [intros _; split; reflexivity | intros H; contradiction].
  - split.
    { intros p. apply HasObserver_false. cbn [observers_].
      intros Hin. apply elem_of_replicate in Hin as [Hin _]. discriminate. }
    split; [apply present_replicate_None|]. split; [reflexivity|]. split; [reflexivity|].
    split; [intros H; contradiction|]. intros _.
    split; [apply length_replicate|].
    unfold might_have_observers. cbn [observers_]. destruct l; reflexivity.
Qed.

(** One change made while an iterator is live. *)
Lemma mutate_while_iterated D m o o' :
  live_iterator_count_ o <> 0 ->
  mutate D m o = Ok tt o' ->
  live_iterator_count_ o' = live_iterator_count_ o /\
  policy_ o' = policy_ o /\
  (length (observers_ o) <= length (observers_ o'))%nat /\
  (forall (i : nat) p, (i < length (observers_ o))%nat ->
     observers_ o' !! i = Some (Some p) -> observers_ o !! i = Some (Some p)).
Proof.
  intros Hc. destruct o as [l c pol]. cbn [live_iterator_count_ observers_ policy_] in *.
  assert (Ec : (c =? 0) = false) by (apply Z.eqb_neq; exact Hc).
  destruct m as [obs | obs |]; cbn [mutate].
  - unfold AddObserver, DCHECK, bind, gets, modify, fail, ret.
    destruct (D && negb (bool_decide (is_Some obs))); cbn; [discriminate|].
    destruct (HasObserver obs _); cbn.
    + destruct D; cbn; [discriminate|]. intros [= <-]. simpl.
      repeat split; try lia. intros i p _ H. exact H.
    + intros [= <-]. cbn [set_observers observers_ live_iterator_count_ policy_].
      split; [reflexivity|]. split; [reflexivity|]. split; [rewrite length_app; lia|].
      intros i p Hi H. rewrite lookup_app_l in H by exact Hi. exact H.
  - unfold RemoveObserver, DCHECK, bind, gets, modify, fail, ret.
    destruct (D && negb (bool_decide (is_Some obs))); cbn -[find]; [discriminate|].
    destruct (find obs l) as [k|]; cbn.
    + match goal with |- context [if ?b then _ else _] => destruct b end;
        cbn; [discriminate|].
      rewrite ?Ec. cbn. intros [= <-].
      cbn [set_observers observers_ live_iterator_count_ policy_].
      split; [reflexivity|]. split; [reflexivity|]. split; [rewrite length_insert; lia|].
      intros i p Hi H. apply list_lookup_insert_Some in H as [(_ & Hx & _) | (_ & H)];
        [discriminate | exact H].
    + intros [= <-]. simpl. repeat split; try lia. intros i p _ H. exact H.
  - unfold Clear, DCHECK, bind, gets, modify, fail, ret. cbn.
    match goal with |- context [if ?b then _ else _] => destruct b end;
      cbn; [discriminate|].
    rewrite ?Ec. cbn. intros [= <-].
    cbn [set_observers observers_ live_iterator_count_ policy_].
    split; [reflexivity|]. split; [reflexivity|]. split; [rewrite length_replicate; lia|].
    intros i p Hi H. apply lookup_replicate in H as [H _]. discriminate.
Qed.

(** X7: while an iterator is live (the count is not zero), no sequence of
    [AddObserver], [RemoveObserver] and [Clear] calls that returns shrinks
    the vector or moves an observer: the count and the policy are unchanged,
    the vector is at least as long, and an observer found afterwards in one
    of the old slots was in that very slot before.  So the index an iterator
    holds stays in range and never comes to point at another observer. *)
Theorem mutations_keep_iterators_valid :
  forall (DCHECK_IS_ON : bool) (ms : list Mutation) (o o' : t),
    live_iterator_count_ o <> 0 ->
    mutate_all DCHECK_IS_ON ms o = Ok tt o' ->
    live_iterator_count_ o' = live_iterator_count_ o /\
    policy_ o' = policy_ o /\
    (length (observers_ o) <= length (observers_ o'))%nat /\
    (forall (i : nat) (p : positive), (i < length (observers_ o))%nat ->
       observers_ o' !! i = Some (Some p) -> observers_ o !! i = Some (Some p)).
Proof.
  intros D ms. induction ms as [|m ms IH]; intros o o' Hc Hrun.
  - injection Hrun as <-. repeat split; try lia. intros i p _ H. exact H.
  - cbn [mutate_all] in Hrun. unfold bind in Hrun.
    destruct (mutate D m o) as [[] o1|] eqn:Hm; [|discriminate].
    destruct (mutate_while_iterated D m o o1 Hc Hm) as (Hc1 & Hp1 & Hl1 & Hs1).
    destruct (IH o1 o' ltac:(rewrite Hc1; exact Hc) Hrun) as (Hc2 & Hp2 & Hl2 & Hs2).
    split; [congruence|]. split; [congruence|]. split; [lia|].
    intros i p Hi H. apply Hs1; [exact Hi|]. apply Hs2; [lia | exact H].
Qed.

End ObserverListDuringIteration.

Section ObserverListMutationWitnesses.

Import Try ObserverList.
Local Open Scope try_scope.

Lemma RemoveObserver_removes_exactly_one_witness :
  let o := mk [Some 5%positive; None; Some 2%positive] 1 ALL in
  well_formed o /\
  exists o',
    RemoveObserver true (Some 5%positive) o = Ok tt o' /\
    HasObserver (Some 5%positive) o' = false /\
    present (observers_ o') = [2%positive].
Proof.
  cbv zeta.
  assert (Hwf : well_formed (mk [Some 5%positive; None; Some 2%positive] 1 ALL)).
  { split; [|cbn; lia]. cbn. repeat constructor; rewrite ?not_elem_of_cons; intuition (try discriminate);
    eapply not_elem_of_nil; eassumption. }
  split; [exact Hwf|].
  destruct (RemoveObserver_removes_exactly_one true _ 5%positive Hwf)
    as (o' & Hrun & Hhas & Hpresent & _).
  exists o'. split; [exact Hrun|]. split; [exact Hhas|].
  rewrite Hpresent. reflexivity.
Defined.

Lemma Clear_removes_every_observer_witness :
  let o := mk [Some 5%positive; None; Some 2%positive] 1 ALL in
  0 <= live_iterator_count_ o /\
  exists o',
    Clear true o = Ok tt o' /\
    present (observers_ o') = [] /\
    might_have_observers o' = true.
Proof.
  cbv zeta.
  assert (Hc : 0 <= live_iterator_count_ (mk [Some 5%positive; None; Some 2%positive] 1 ALL))
    by (cbn; lia).
  split; [exact Hc|].
  destruct (Clear_removes_every_observer true _ Hc)
    as (o' & Hrun & _ & Hpresent & _ & _ & _ & Hlive).
  exists o'. split; [exact Hrun|]. split; [exact Hpresent|].
  destruct Hlive as (_ & ->); [cbn; lia | reflexivity].
Defined.

Lemma mutations_keep_iterators_valid_witness :
  let o := mk [Some 5%positive; None; Some 2%positive] 1 ALL in
  let o' := mk [None; None; Some 2%positive; Some 7%positive] 1 ALL in
  let ms := [DoRemoveObserver (Some 5%positive); DoAddObserver (Some 7%positive)] in
  live_iterator_count_ o <> 0 /\
  mutate_all true ms o = Ok tt o' /\
  (length (observers_ o) <= length (observers_ o'))%nat.
Proof.
  cbv zeta.
  assert (Hc : live_iterator_count_ (mk [Some 5%positive; None; Some 2%positive] 1 ALL) <> 0)
    by (cbn; lia).
  assert (Hrun : mutate_all true
                   [DoRemoveObserver (Some 5%positive); DoAddObserver (Some 7%positive)]
                   (mk [Some 5%positive; None; Some 2%positive] 1 ALL)
                 = Ok tt (mk [None; None; Some 2%positive; Some 7%positive] 1 ALL))
    by (vm_compute; reflexivity).
  split; [exact Hc|]. split; [exact Hrun|].
  exact (proj1 (proj2 (proj2 (mutations_keep_iterators_valid true _ _ _ Hc Hrun)))).
Defined.

End ObserverListMutationWitnesses.

Section ObserverListIteration.

Import Try ObserverList.
Local Open Scope try_scope.

Variable DCHECK_IS_ON : bool.
Variable allow_reentrancy : bool.
Variable SIZE_MAX : nat.

Implicit Types (o : t) (l w : list Observer) (p q : positive) (obs : Observer).

Lemma leading_nulls_le l : (leading_nulls l <= length l)%nat.
Proof. induction l as [|[p|] l IH]; simpl; lia. Qed.

Lemma leading_nulls_lookup l k :
  (k < leading_nulls l)%nat -> l !! k = Some None.
Proof.
  revert k. induction l as [|[p|] l IH]; intros k Hk; simpl in Hk; try lia.
  destruct k as [|k]; [reflexivity|]. simpl. apply IH. lia.
Qed.

Lemma present_drop_leading_nulls l : present (drop (leading_nulls l) l) = present l.
Proof. induction l as [|[p|] l IH]; simpl; try reflexivity. exact IH. Qed.

Lemma leading_nulls_drop l : leading_nulls (drop (leading_nulls l) l) = O.
Proof. induction l as [|[p|] l IH]; simpl; try reflexivity. exact IH. Qed.

Lemma leading_nulls_0_head l x l' :
  leading_nulls l = O -> l = x :: l' -> exists p, x = Some p.
Proof. intros H ->. destruct x as [p|]; [eauto | discriminate]. Qed.

Lemma drop_head w j x :
  w !! j = Some x -> drop j w = x :: drop (S j) w.
Proof. intros H. apply drop_S. exact H. Qed.

Lemma skip_null_slots_run l m : forall fuel i,
  (i <= m)%nat -> (m <= length l)%nat -> (m - i <= fuel)%nat ->
  skip_null_slots fuel l m i = Some (i + leading_nulls (drop i (take m l)))%nat.
Proof.
  induction fuel as [|fuel IH]; intros i Hi Hm Hfuel.
  - assert (i = m) as -> by lia. simpl. rewrite Nat.ltb_irrefl. simpl.
    rewrite drop_ge by (rewrite length_take; lia). simpl. f_equal. lia.
  - destruct (Nat.ltb_spec i m) as [Hlt | Hge].
    + destruct (lookup_lt_is_Some_2 l i ltac:(lia)) as [x Hx].
      assert (Hw : take m l !! i = Some x) by (rewrite lookup_take_lt by exact Hlt; exact Hx).
      rewrite (drop_head _ _ _ Hw). simpl.
      replace (i <? m)%nat with true by (symmetry; apply Nat.ltb_lt; exact Hlt). simpl.
      destruct x as [p|].
      * rewrite bool_decide_eq_false_2 by (rewrite Hx; discriminate). f_equal. simpl. lia.
      * rewrite bool_decide_eq_true_2 by exact Hx.
        rewrite IH by lia. f_equal. simpl. lia.
    + assert (i = m) as -> by lia. simpl.
      rewrite Nat.ltb_irrefl. simpl.
      rewrite drop_ge by (rewrite length_take; lia). simpl. f_equal. lia.
Qed.

Lemma window_length m l : length (window m l) = Nat.min m (length l).
Proof. unfold window. rewrite length_take. lia. Qed.

Lemma window_all m l : (length l <= m)%nat -> window m l = l.
Proof. intros H. unfold window. apply take_ge. lia. Qed.

Lemma EnsureValidIndex_run o j m :
  (j <= length (window m (observers_ o)))%nat ->
  EnsureValidIndex DCHECK_IS_ON (mkIter true j m) o
  = Ok (mkIter true (j + leading_nulls (drop j (window m (observers_ o)))) m) o.
Proof.
  intros Hj. rewrite window_length in Hj.
  unfold EnsureValidIndex, DCHECK, clamped_max_index, bind, gets, ret, fail.
  cbn [list_ index_ max_index_ negb]. rewrite andb_false_r.
  rewrite skip_null_slots_run by lia. reflexivity.
Qed.

Lemma Iter_neq_end o j m :
  Iter_neq (mkIter true j m) Iter_default o
  = Ok (negb (Nat.eqb j (length (window m (observers_ o))))) o.
Proof.
  rewrite window_length.
  unfold Iter_neq, Iter_eq, is_end, clamped_max_index, bind, gets, ret.
  cbn [list_ index_ max_index_ negb Iter_default].
  destruct (Nat.eqb j _); reflexivity.
Qed.

Lemma Iter_deref_run o j m p :
  window m (observers_ o) !! j = Some (Some p) ->
  Iter_deref DCHECK_IS_ON (mkIter true j m) o = Ok p o.
Proof.
  intros Hj.
  assert (Hlt : (j < Nat.min m (length (observers_ o)))%nat).
  { rewrite <- window_length. eapply lookup_lt_Some. exact Hj. }
  unfold window in Hj. rewrite lookup_take_lt in Hj by exact Hlt.
  unfold Iter_deref, GetCurrent, DCHECK, clamped_max_index, bind, gets, ret, fail.
  cbn [list_ index_ max_index_ negb]. rewrite andb_false_r.
  replace (j <? Nat.min m (length (observers_ o)))%nat with true
    by (symmetry; apply Nat.ltb_lt; exact Hlt).
  cbn [negb]. rewrite andb_false_r.
  replace (observers_ o !! j) with (Some (Some p)).
  rewrite (bool_decide_eq_true_2 (is_Some (Some p))) by (eexists; reflexivity).
  cbn [negb]. rewrite andb_false_r. reflexivity.
Qed.

Lemma Iter_incr_run o j m :
  (j < length (window m (observers_ o)))%nat ->
  Iter_incr DCHECK_IS_ON (mkIter true j m) o
  = Ok (mkIter true (S j + leading_nulls (drop (S j) (window m (observers_ o)))) m) o.
Proof.
  intros Hj. unfold Iter_incr. cbn [list_ index_ max_index_].
  apply EnsureValidIndex_run. lia.
Qed.

Lemma Iter_ctor_run o :
  allow_reentrancy = true \/ live_iterator_count_ o = 0 ->
  let m := match policy_ o with
           | ALL => SIZE_MAX
           | EXISTING_ONLY => length (observers_ o)
           end in
  Iter_ctor DCHECK_IS_ON allow_reentrancy SIZE_MAX o
  = Ok (mkIter true (leading_nulls (window m (observers_ o))) m)
       (set_count (live_iterator_count_ o + 1) o).
Proof.
  intros Hre m. unfold Iter_ctor, DCHECK, bind, gets, modify, ret, fail. fold m.
  cbn [list_ negb]. rewrite andb_false_r. cbn beta iota.
  replace (allow_reentrancy || (live_iterator_count_ o =? 0)) with true.
  2:{ symmetry. destruct Hre as [-> | ->]; [reflexivity|]. rewrite Z.eqb_refl. apply orb_true_r. }
  cbn [negb]. rewrite andb_false_r. cbn beta iota.
  rewrite EnsureValidIndex_run by lia. rewrite drop_0. reflexivity.
Qed.

Lemma Iter_dtor_run o j m :
  0 < live_iterator_count_ o ->
  Iter_dtor DCHECK_IS_ON (mkIter true j m) o
  = Ok tt (if live_iterator_count_ o - 1 =? 0
           then set_observers (filter (fun x => x <> None) (observers_ o))
                              (set_count (live_iterator_count_ o - 1) o)
           else set_count (live_iterator_count_ o - 1) o).
Proof.
  intros Hc. unfold Iter_dtor, DCHECK, bind, gets, modify, ret, fail, Compact.
  cbn [list_ negb]. cbn beta iota.
  replace (0 <? live_iterator_count_ o) with true by (symmetry; apply Z.ltb_lt; exact Hc).
  cbn [negb]. rewrite andb_false_r. cbn beta iota.
  cbn [set_count live_iterator_count_].
  destruct (live_iterator_count_ o - 1 =? 0); reflexivity.
Qed.

End ObserverListIteration.

Section ObserverListLoops.

Import Try ObserverList.
Local Open Scope try_scope.

Variable DCHECK_IS_ON : bool.
Variable allow_reentrancy : bool.
Variable SIZE_MAX : nat.

Implicit Types (o : t) (l w : list Observer) (p q : positive) (obs : Observer).

(** A slot the iterator stands on, inside its window, holds an observer. *)
Lemma standing_slot w j :
  (j < length w)%nat -> leading_nulls (drop j w) = O ->
  exists p, w !! j = Some (Some p) /\ present (drop j w) = p :: present (drop (S j) w).
Proof.
  intros Hj Hlead. destruct (lookup_lt_is_Some_2 w j Hj) as [x Hx].
  rewrite (drop_head _ _ _ Hx) in Hlead.
  destruct x as [p|]; [|discriminate]. exists p. split; [exact Hx|].
  rewrite (drop_head _ _ _ Hx). reflexivity.
Qed.

Lemma for_loop_plain o m : forall fuel j acc,
  (j <= length (window m (observers_ o)))%nat ->
  leading_nulls (drop j (window m (observers_ o))) = O ->
  (length (window m (observers_ o)) - j <= fuel)%nat ->
  for_loop DCHECK_IS_ON fuel leave_list (mkIter true j m) Iter_default acc o
  = Ok (mkIter true (length (window m (observers_ o))) m,
        acc ++ present (drop j (window m (observers_ o)))) o.
Proof.
  set (w := window m (observers_ o)).
  intros fuel. induction fuel as [|fuel IH]; intros j acc Hj Hlead Hfuel.
  - assert (j = length w) as -> by lia.
    cbn [for_loop]. unfold bind. rewrite Iter_neq_end. fold w. rewrite Nat.eqb_refl.
    cbn. rewrite drop_all, app_nil_r. reflexivity.
  - cbn [for_loop]. unfold bind. rewrite Iter_neq_end. fold w.
    destruct (Nat.eqb_spec j (length w)) as [-> | Hne]; cbn [negb].
    + cbn. rewrite drop_all, app_nil_r. reflexivity.
    + destruct (standing_slot w j ltac:(lia) Hlead) as (p & Hp & Hpres).
      rewrite (Iter_deref_run DCHECK_IS_ON o j m p Hp). unfold leave_list at 1. cbn [ret].
      rewrite (Iter_incr_run DCHECK_IS_ON o j m) by (fold w; lia). fold w.
      pose proof (leading_nulls_le (drop (S j) w)) as Hle. rewrite length_drop in Hle.
      rewrite IH.
      * rewrite <- drop_drop, present_drop_leading_nulls, Hpres, <- app_assoc. reflexivity.
      * lia.
      * rewrite <- drop_drop. apply leading_nulls_drop.
      * lia.
Qed.

Lemma all_null_replicate l :
  (forall k, (k < length l)%nat -> l !! k = Some None) -> l = replicate (length l) None.
Proof.
  intros H. apply list_eq. intros k.
  destruct (Nat.lt_ge_cases k (length l)) as [Hlt | Hge].
  - rewrite (H k Hlt). symmetry. apply lookup_replicate. split; [reflexivity | exact Hlt].
  - rewrite lookup_ge_None_2 by exact Hge. symmetry.
    apply lookup_ge_None_2. rewrite length_replicate. exact Hge.
Qed.

(** The loop whose body removes the observer it is run on. *)
Lemma for_loop_remove_self l c pol m : forall fuel j acc (L : list Observer),
  0 < c -> (length l <= m)%nat ->
  length L = length l ->
  (forall k, (k < j)%nat -> L !! k = Some None) ->
  drop j L = drop j l ->
  (j <= length l)%nat -> leading_nulls (drop j l) = O -> (length l - j <= fuel)%nat ->
  for_loop DCHECK_IS_ON fuel (remove_self DCHECK_IS_ON)
           (mkIter true j m) Iter_default acc (mk L c pol)
  = Ok (mkIter true (length l) m, acc ++ present (drop j l))
       (mk (replicate (length l) None) c pol).
Proof.
  intros fuel. induction fuel as [|fuel IH];
    intros j acc L Hc Hm HlenL Hnulls Hdrop Hj Hlead Hfuel;
    cbn [for_loop]; unfold bind; rewrite Iter_neq_end; cbn [observers_];
    rewrite (window_all m L) by lia; rewrite HlenL.
  - assert (j = length l) as -> by lia. rewrite Nat.eqb_refl. cbn.
    rewrite drop_all, app_nil_r. rewrite <- HlenL.
    rewrite <- (all_null_replicate L) by (intros k Hk; apply Hnulls; lia). reflexivity.
  - destruct (Nat.eqb_spec j (length l)) as [-> | Hne]; cbn [negb].
    + cbn. rewrite drop_all, app_nil_r. rewrite <- HlenL.
      rewrite <- (all_null_replicate L) by (intros k Hk; apply Hnulls; lia). reflexivity.
    + destruct (standing_slot l j ltac:(lia) Hlead) as (p & Hp & Hpres).
      assert (HLj : L !! j = Some (Some p)).
      { rewrite <- (Nat.add_0_r j), <- lookup_drop, Hdrop, lookup_drop, Nat.add_0_r. exact Hp. }
      rewrite (Iter_deref_run DCHECK_IS_ON (mk L c pol) j m p)
        by (cbn [observers_]; rewrite window_all by lia; exact HLj).
      unfold remove_self at 1.
      rewrite (RemoveObserver_run DCHECK_IS_ON (mk L c pol) p) by (cbn; lia).
      cbn [observers_ live_iterator_count_].
      assert (Hfind : find (Some p) L = Some j).
      { apply find_Some. split; [exact HLj|]. intros k Hk. rewrite (Hnulls k Hk). discriminate. }
      rewrite Hfind. replace (c =? 0) with false by (symmetry; apply Z.eqb_neq; lia).
      cbn beta iota. unfold set_observers. cbn [observers_ live_iterator_count_ policy_].
      assert (Hdrop' : drop (S j) (<[j := None]> L) = drop (S j) l).
      { rewrite drop_insert_lt by lia.
        replace (S j) with (j + 1)%nat by lia.
        rewrite <- !drop_drop, Hdrop. reflexivity. }
      rewrite (Iter_incr_run DCHECK_IS_ON (mk (<[j := None]> L) c pol) j m)
        by (cbn [observers_]; rewrite window_all by (rewrite length_insert; lia);
            rewrite length_insert; lia).
      cbn [observers_]. rewrite (window_all m (<[j := None]> L)) by (rewrite length_insert; lia).
      rewrite Hdrop'.
      pose proof (leading_nulls_le (drop (S j) l)) as Hle. rewrite length_drop in Hle.
      rewrite IH.
      * rewrite <- drop_drop, present_drop_leading_nulls, Hpres, <- app_assoc. reflexivity.
      * exact Hc.
      * exact Hm.
      * rewrite length_insert. exact HlenL.
      * intros k Hk. destruct (Nat.lt_trichotomy k j) as [Hlt | [-> | Hgt]].
        -- rewrite list_lookup_insert_ne by lia. apply Hnulls. exact Hlt.
        -- apply list_lookup_insert_eq. lia.
        -- replace k with (S j + (k - S j))%nat by lia.
           rewrite <- lookup_drop, Hdrop'. apply leading_nulls_lookup. lia.
      * rewrite <- !drop_drop, Hdrop'. reflexivity.
      * lia.
      * rewrite <- drop_drop. apply leading_nulls_drop.
      * lia.
Qed.

End ObserverListLoops.

Section ObserverListRangeFor.

Import Try ObserverList.
Local Open Scope try_scope.

Implicit Types (o : t) (l w : list Observer) (p q : positive).

Lemma for_loop_at_end D fuel body acc o :
  for_loop D fuel body Iter_default Iter_default acc o = Ok (Iter_default, acc) o.
Proof. destruct fuel; reflexivity. Qed.

Lemma policy_bound_covers SIZE_MAX o :
  (length (observers_ o) <= SIZE_MAX)%nat ->
  (length (observers_ o) <= match policy_ o with
                            | ALL => SIZE_MAX
                            | EXISTING_ONLY => length (observers_ o)
                            end)%nat.
Proof. destruct (policy_ o); lia. Qed.

(** X8: a range-for over the list whose body leaves the list alone runs the
    body on exactly the observers in the list, each once, in the order they
    were added, skipping the null slots; it needs no more turns than the
    vector has slots and trips no assertion (the iteration is the outermost
    one, or the list allows reentrancy).  When the outermost iterator is
    destroyed the null slots are compacted away; otherwise the list is as it
    was. *)
Theorem range_for_notifies_each_observer_once :
  forall (DCHECK_IS_ON allow_reentrancy : bool) (SIZE_MAX fuel : nat) (o : t),
    allow_reentrancy = true \/ live_iterator_count_ o = 0 ->
    0 <= live_iterator_count_ o ->
    (length (observers_ o) <= SIZE_MAX)%nat ->
    (length (observers_ o) <= fuel)%nat ->
    range_for DCHECK_IS_ON allow_reentrancy SIZE_MAX fuel leave_list o
    = Ok (present (observers_ o))
         (if live_iterator_count_ o =? 0
          then set_observers (Some <$> present (observers_ o)) o
          else o).
Proof.
  intros D ar SM fuel o Hre Hc Hmax Hfuel.
  unfold range_for, begin, end_, bind, gets, ret. cbn beta iota.
  destruct (bool_decide_reflect (observers_ o = [])) as [Hnil | Hne].
  - rewrite for_loop_at_end. cbn.
    destruct o as [l c pol]. cbn in *. subst l. cbn. destruct (c =? 0); reflexivity.
  - pose proof (policy_bound_covers SM o Hmax) as Hm.
    rewrite (Iter_ctor_run D ar SM o Hre). cbv zeta.
    set (m := match policy_ o with ALL => SM | EXISTING_ONLY => length (observers_ o) end) in *.
    rewrite window_all by exact Hm.
    rewrite (for_loop_plain D (set_count (live_iterator_count_ o + 1) o) m);
      cbn [set_count observers_]; rewrite ?window_all by exact Hm.
    + cbn [fst snd]. unfold Iter_dtor at 1. cbn [negb Iter_default list_]. unfold ret.
      rewrite Iter_dtor_run by (cbn; lia). cbn [live_iterator_count_ observers_].
      rewrite present_drop_leading_nulls. f_equal.
      destruct o as [l c pol]. cbn.
      replace (c + 1 - 1) with c by lia. destruct (c =? 0); [|reflexivity].
      unfold set_observers. cbn. rewrite filter_not_None. reflexivity.
    + apply leading_nulls_le.
    + apply leading_nulls_drop.
    + pose proof (leading_nulls_le (observers_ o)). lia.
Qed.

Lemma range_for_notifies_each_observer_once_witness :
  let o := mk [Some 5%positive; None; Some 2%positive] 0 EXISTING_ONLY in
  (true = true \/ live_iterator_count_ o = 0) /\
  0 <= live_iterator_count_ o /\
  (length (observers_ o) <= 8)%nat /\
  range_for true true 8 3 leave_list o
  = Ok [5%positive; 2%positive] (mk [Some 5%positive; Some 2%positive] 0 EXISTING_ONLY).
Proof.
  cbv zeta. split; [left; reflexivity|]. split; [cbn; lia|]. split; [cbn; lia|].
  apply (range_for_notifies_each_observer_once true true 8 3
           (mk [Some 5%positive; None; Some 2%positive] 0 EXISTING_ONLY)).
  - left. reflexivity.
  - cbn. lia.
  - cbn. lia.
  - cbn. lia.
Defined.

(** X9: a range-for in which every notified observer removes itself runs
    the body on every observer of the list exactly once, in order, although
    the list changes under the iterator, and leaves the list empty once the
    iterator is destroyed.  No assertion trips, even when an observer sits in
    two slots. *)
Theorem range_for_survives_observers_removing_themselves :
  forall (DCHECK_IS_ON allow_reentrancy : bool) (SIZE_MAX fuel : nat) (o : t),
    live_iterator_count_ o = 0 ->
    (length (observers_ o) <= SIZE_MAX)%nat ->
    (length (observers_ o) <= fuel)%nat ->
    range_for DCHECK_IS_ON allow_reentrancy SIZE_MAX fuel (remove_self DCHECK_IS_ON) o
    = Ok (present (observers_ o)) (set_observers [] o).
Proof.
  intros D ar SM fuel o Hc Hmax Hfuel.
  unfold range_for, begin, end_, bind, gets, ret. cbn beta iota.
  destruct (bool_decide_reflect (observers_ o = [])) as [Hnil | Hne].
  - rewrite for_loop_at_end. cbn.
    destruct o as [l c pol]. cbn in *. subst l. reflexivity.
  - pose proof (policy_bound_covers SM o Hmax) as Hm.
    rewrite (Iter_ctor_run D ar SM o (or_intror Hc)). cbv zeta.
    set (m := match policy_ o with ALL => SM | EXISTING_ONLY => length (observers_ o) end) in *.
    rewrite window_all by exact Hm.
    destruct o as [l c pol]. cbn [observers_ live_iterator_count_ policy_ set_count] in *.
    subst c. unfold set_count at 1. cbn [observers_ live_iterator_count_ policy_].
    rewrite (for_loop_remove_self D l (0 + 1) pol m).
    + cbn [fst snd]. unfold Iter_dtor at 1. cbn [negb Iter_default list_]. unfold ret.
      rewrite Iter_dtor_run by (cbn; lia). cbn [live_iterator_count_ observers_].
      rewrite present_drop_leading_nulls. f_equal.
      cbn. unfold set_observers. cbn. f_equal.
      rewrite filter_not_None, present_replicate_None. reflexivity.
    + lia.
    + exact Hm.
    + reflexivity.
    + apply leading_nulls_lookup.
    + reflexivity.
    + apply leading_nulls_le.
    + apply leading_nulls_drop.
    + pose proof (leading_nulls_le l). lia.
Qed.

Lemma range_for_survives_observers_removing_themselves_witness :
  let o := mk [Some 5%positive; None; Some 2%positive] 0 ALL in
  live_iterator_count_ o = 0 /\
  range_for true false 8 3 (remove_self true) o
  = Ok [5%positive; 2%positive] (mk [] 0 ALL).
Proof.
  cbv zeta. split; [reflexivity|].
  apply (range_for_survives_observers_removing_themselves true false 8 3
           (mk [Some 5%positive; None; Some 2%positive] 0 ALL)).
  - reflexivity.
  - cbn. lia.
  - cbn. lia.
Defined.

End ObserverListRangeFor.

Section ObserverListPolicyFacts.

Import Try ObserverList.
Local Open Scope try_scope.

Variable DCHECK_IS_ON : bool.
Implicit Types (o : t) (l w : list Observer) (p q a new : positive) (ps xs ys : list positive).

(** One turn of the loop. *)
Lemma for_loop_turn fuel body j m acc o p o' :
  window m (observers_ o) !! j = Some (Some p) ->
  body p o = Ok tt o' ->
  (j < length (window m (observers_ o')))%nat ->
  for_loop DCHECK_IS_ON (S fuel) body (mkIter true j m) Iter_default acc o
  = for_loop DCHECK_IS_ON fuel body
      (mkIter true (S j + leading_nulls (drop (S j) (window m (observers_ o')))) m)
      Iter_default (acc ++ [p]) o'.
Proof.
  intros Hp Hbody Hj'.
  assert (Hj : (j < length (window m (observers_ o)))%nat) by (eapply lookup_lt_Some; exact Hp).
  cbn [for_loop]. unfold bind. rewrite Iter_neq_end.
  replace (Nat.eqb j (length (window m (observers_ o)))) with false
    by (symmetry; apply Nat.eqb_neq; lia).
  cbn [negb]. rewrite (Iter_deref_run DCHECK_IS_ON o j m p Hp). rewrite Hbody.
  rewrite (Iter_incr_run DCHECK_IS_ON o' j m Hj'). reflexivity.
Qed.

(** The loop over a part of the list on which the body does nothing. *)
Lemma for_loop_inert o m body : forall fuel j acc,
  (forall p, p ∈ present (drop j (window m (observers_ o))) -> body p o = Ok tt o) ->
  (j <= length (window m (observers_ o)))%nat ->
  leading_nulls (drop j (window m (observers_ o))) = O ->
  (length (window m (observers_ o)) - j <= fuel)%nat ->
  for_loop DCHECK_IS_ON fuel body (mkIter true j m) Iter_default acc o
  = Ok (mkIter true (length (window m (observers_ o))) m,
        acc ++ present (drop j (window m (observers_ o)))) o.
Proof.
  set (w := window m (observers_ o)).
  intros fuel. induction fuel as [|fuel IH]; intros j acc Hbody Hj Hlead Hfuel.
  - assert (j = length w) as -> by lia.
    cbn [for_loop]. unfold bind. rewrite Iter_neq_end. fold w. rewrite Nat.eqb_refl.
    cbn. rewrite drop_all, app_nil_r. reflexivity.
  - destruct (Nat.eqb_spec j (length w)) as [-> | Hne].
    + cbn [for_loop]. unfold bind. rewrite Iter_neq_end. fold w. rewrite Nat.eqb_refl.
      cbn. rewrite drop_all, app_nil_r. reflexivity.
    + destruct (standing_slot w j ltac:(lia) Hlead) as (p & Hp & Hpres).
      rewrite (for_loop_turn fuel body j m acc o p o Hp);
        [| apply Hbody; rewrite Hpres; left | fold w; lia].
      fold w.
      pose proof (leading_nulls_le (drop (S j) w)) as Hle. rewrite length_drop in Hle.
      rewrite IH.
      * rewrite <- drop_drop, present_drop_leading_nulls, Hpres, <- app_assoc. reflexivity.
      * intros q Hq. apply Hbody. rewrite Hpres. right.
        rewrite <- drop_drop, present_drop_leading_nulls in Hq. exact Hq.
      * lia.
      * rewrite <- drop_drop. apply leading_nulls_drop.
      * lia.
Qed.

Lemma present_fmap_Some ps : present (Some <$> ps) = ps.
Proof. induction ps as [|p ps IH]; [reflexivity|]. unfold present in *. simpl. f_equal. exact IH. Qed.

Lemma leading_nulls_drop_fmap_Some ps k : leading_nulls (drop k (Some <$> ps)) = O.
Proof.
  rewrite <- fmap_drop. destruct (drop k ps); reflexivity.
Qed.

End ObserverListPolicyFacts.

Section ObserverListPolicy.

Import Try ObserverList.
Local Open Scope try_scope.

Variable DCHECK_IS_ON : bool.
Implicit Types (o : t) (l w : list Observer) (p q a new : positive) (ps xs ys zs : list positive).

Lemma add_when_notified_other a new p o :
  p <> a -> add_when_notified DCHECK_IS_ON a new p o = Ok tt o.
Proof. intros Hne. unfold add_when_notified. rewrite decide_False by exact Hne. reflexivity. Qed.

(** The turns before observer [a] is reached: nothing changes. *)
Lemma for_loop_before_adder a new m c pol rest : forall xs done acc fuel,
  a ∉ xs ->
  (length (done ++ xs ++ rest) <= m)%nat ->
  for_loop DCHECK_IS_ON (length xs + fuel) (add_when_notified DCHECK_IS_ON a new)
           (mkIter true (length done) m) Iter_default acc
           (mk (Some <$> (done ++ xs ++ rest)) c pol)
  = for_loop DCHECK_IS_ON fuel (add_when_notified DCHECK_IS_ON a new)
           (mkIter true (length done + length xs) m) Iter_default (acc ++ xs)
           (mk (Some <$> (done ++ xs ++ rest)) c pol).
Proof.
  induction xs as [|x xs IH]; intros done acc fuel Ha Hm.
  - cbn [length Nat.add]. rewrite Nat.add_0_r, app_nil_r. reflexivity.
  - apply not_elem_of_cons in Ha as [Hax Ha].
    cbn [length Nat.add].
    set (l := Some <$> (done ++ (x :: xs) ++ rest)).
    assert (Hwin : window m l = l) by (apply window_all; unfold l; rewrite length_fmap; exact Hm).
    assert (Hx : l !! length done = Some (Some x)).
    { unfold l. rewrite list_lookup_fmap, lookup_app_r by lia.
      rewrite Nat.sub_diag. reflexivity. }
    rewrite (for_loop_turn DCHECK_IS_ON (length xs + fuel) _ (length done) m acc
               (mk l c pol) x (mk l c pol)).
    + cbn [observers_]. rewrite Hwin. unfold l at 1. rewrite leading_nulls_drop_fmap_Some.
      rewrite Nat.add_0_r.
      replace (S (length done)) with (length (done ++ [x])) by (rewrite length_app; simpl; lia).
      unfold l. replace (done ++ (x :: xs) ++ rest) with ((done ++ [x]) ++ xs ++ rest)
        by (rewrite <- app_assoc; reflexivity).
      rewrite IH.
      * rewrite <- app_assoc. rewrite length_app. cbn [length].
        replace (length done + 1 + length xs)%nat with (length done + S (length xs))%nat by lia.
        reflexivity.
      * exact Ha.
      * rewrite <- app_assoc. exact Hm.
    + cbn [observers_]. rewrite Hwin. exact Hx.
    + apply add_when_notified_other. congruence.
    + cbn [observers_]. rewrite Hwin. eapply lookup_lt_Some. exact Hx.
Qed.

(** The whole loop: up to [a], the turn in which [a] adds [new], and the
    rest of the iterator's window [xs ++ a :: zs] over the longer vector. *)
Lemma for_loop_with_adder a new m c pol xs ys zs fuel :
  a ∉ xs -> a ∉ zs -> new ∉ xs ++ a :: ys ->
  (length (xs ++ a :: ys) <= m)%nat ->
  window m (Some <$> ((xs ++ a :: ys) ++ [new])) = Some <$> (xs ++ a :: zs) ->
  (length xs + S (length zs) <= fuel)%nat ->
  for_loop DCHECK_IS_ON fuel (add_when_notified DCHECK_IS_ON a new)
           (mkIter true 0 m) Iter_default [] (mk (Some <$> (xs ++ a :: ys)) c pol)
  = Ok (mkIter true (length (xs ++ a :: zs)) m, xs ++ a :: zs)
       (mk (Some <$> ((xs ++ a :: ys) ++ [new])) c pol).
Proof.
  intros Hxs Hzs Hnew Hm Hwin Hfuel.
  set (l := Some <$> (xs ++ a :: ys)).
  set (l' := Some <$> ((xs ++ a :: ys) ++ [new])) in *.
  replace fuel with (length xs + S (fuel - length xs - 1))%nat by lia.
  pose proof (for_loop_before_adder a new m c pol (a :: ys) xs [] []
                (S (fuel - length xs - 1)) Hxs Hm) as Hbefore.
  cbn [app length Nat.add] in Hbefore. fold l in Hbefore. rewrite Hbefore. clear Hbefore.
  assert (Hwl : window m l = l) by (apply window_all; unfold l; rewrite length_fmap; exact Hm).
  assert (Ha : l !! length xs = Some (Some a)).
  { unfold l. rewrite list_lookup_fmap, lookup_app_r by lia. rewrite Nat.sub_diag. reflexivity. }
  assert (Hadd : add_when_notified DCHECK_IS_ON a new a (mk l c pol) = Ok tt (mk l' c pol)).
  { unfold add_when_notified. rewrite decide_True by reflexivity. rewrite AddObserver_run.
    rewrite (proj2 (HasObserver_false (Some new) (mk l c pol))).
    - unfold set_observers. cbn [observers_ live_iterator_count_ policy_].
      unfold l, l'. rewrite (fmap_app _ (xs ++ a :: ys) [new]). reflexivity.
    - cbn [observers_]. unfold l. intros Hin. apply Hnew.
      apply elem_of_present in Hin. rewrite present_fmap_Some in Hin. exact Hin. }
  rewrite (for_loop_turn DCHECK_IS_ON _ _ (length xs) m xs (mk l c pol) a (mk l' c pol)).
  - cbn [observers_]. rewrite Hwin.
    rewrite leading_nulls_drop_fmap_Some, Nat.add_0_r.
    rewrite (for_loop_inert DCHECK_IS_ON (mk l' c pol) m); cbn [observers_]; rewrite ?Hwin.
    + rewrite length_fmap. f_equal. f_equal.
      rewrite <- fmap_drop, present_fmap_Some.
      replace (S (length xs)) with (length (xs ++ [a])) by (rewrite length_app; simpl; lia).
      replace (xs ++ a :: zs) with ((xs ++ [a]) ++ zs) by (rewrite <- app_assoc; reflexivity).
      rewrite drop_app_length. rewrite <- app_assoc. reflexivity.
    + intros p Hp. apply add_when_notified_other. intros ->. apply Hzs.
      rewrite <- fmap_drop, present_fmap_Some in Hp.
      replace (S (length xs)) with (length (xs ++ [a])) in Hp by (rewrite length_app; simpl; lia).
      replace (xs ++ a :: zs) with ((xs ++ [a]) ++ zs) in Hp by (rewrite <- app_assoc; reflexivity).
      rewrite drop_app_length in Hp. exact Hp.
    + rewrite length_fmap, length_app. simpl. lia.
    + apply leading_nulls_drop_fmap_Some.
    + rewrite length_fmap, length_app. simpl. lia.
  - cbn [observers_]. rewrite Hwl. exact Ha.
  - exact Hadd.
  - cbn [observers_]. rewrite Hwin, length_fmap, length_app. simpl. lia.
Qed.

End ObserverListPolicy.

Section ObserverListPolicyTheorem.

Import Try ObserverList.
Local Open Scope try_scope.

Implicit Types (p q a new : positive) (ps xs ys zs : list positive).

(** X10: the two notification policies.  In a list of distinct observers
    with no iteration in progress, let observer [a] add a new observer when
    it is notified.  The range-for then notifies every observer of the list
    in order and, after them, the new observer under [ALL], but not under
    [EXISTING_ONLY]; either way the new observer ends up at the end of the
    list. *)
Theorem observer_added_during_notification_follows_the_policy :
  forall (DCHECK_IS_ON allow_reentrancy : bool) (SIZE_MAX fuel : nat)
         (policy : ObserverListPolicy) (xs ys : list positive) (a new : positive),
    a ∉ xs -> a ∉ ys -> new ∉ xs ++ a :: ys ->
    (length (xs ++ a :: ys) < SIZE_MAX)%nat ->
    (length (xs ++ a :: ys) < fuel)%nat ->
    range_for DCHECK_IS_ON allow_reentrancy SIZE_MAX fuel
              (add_when_notified DCHECK_IS_ON a new)
              (mk (Some <$> (xs ++ a :: ys)) 0 policy)
    = Ok (match policy with
          | ALL => (xs ++ a :: ys) ++ [new]
          | EXISTING_ONLY => xs ++ a :: ys
          end)
         (mk (Some <$> ((xs ++ a :: ys) ++ [new])) 0 policy).
Proof.
  intros D ar SM fuel pol xs ys a new Hxs Hys Hnew Hmax Hfuel.
  set (ps := xs ++ a :: ys) in *.
  assert (Hlen : length ps = (length xs + S (length ys))%nat)
    by (unfold ps; rewrite length_app; reflexivity).
  assert (Hna : new <> a).
  { intros ->. apply Hnew. unfold ps. apply elem_of_app. right. left. }
  unfold range_for, begin, end_, bind, gets, ret. cbn beta iota. cbn [observers_].
  rewrite bool_decide_eq_false_2
    by (unfold ps; destruct xs; discriminate).
  rewrite (Iter_ctor_run D ar SM (mk (Some <$> ps) 0 pol) (or_intror eq_refl)).
  cbv zeta. cbn [observers_ policy_ live_iterator_count_]. unfold set_count.
  cbn [observers_ policy_ live_iterator_count_].
  assert (Hlead : forall m, (length ps <= m)%nat ->
            leading_nulls (window m (Some <$> ps)) = O).
  { intros m Hm. rewrite window_all by (rewrite length_fmap; exact Hm).
    exact (leading_nulls_drop_fmap_Some ps 0). }
  assert (Hfinal : forall j m (zs : list positive),
    Iter_dtor D (mkIter true j m) (mk (Some <$> (ps ++ [new])) (0 + 1) pol)
    = Ok tt (mk (Some <$> (ps ++ [new])) 0 pol)).
  { intros j m zs. rewrite Iter_dtor_run by (cbn; lia). cbn.
    unfold set_observers. cbn. rewrite filter_not_None, present_fmap_Some. reflexivity. }
  destruct pol.
  - rewrite Hlead by lia.
    rewrite (for_loop_with_adder D a new SM (0 + 1) ALL xs ys (ys ++ [new])).
    + cbn [fst snd]. unfold Iter_dtor at 1. cbn [negb Iter_default list_].
      unfold ret. fold ps. rewrite (Hfinal _ _ []). f_equal. unfold ps. rewrite <- app_assoc. reflexivity.
    + exact Hxs.
    + intros Hin. apply elem_of_app in Hin as [Hin | Hin]; [contradiction|].
      apply list_elem_of_singleton in Hin. congruence.
    + exact Hnew.
    + fold ps. lia.
    + fold ps. rewrite window_all by (rewrite length_fmap, length_app; simpl; lia).
      unfold ps. rewrite <- app_assoc. reflexivity.
    + rewrite length_app. simpl. lia.
  - rewrite Hlead by (rewrite length_fmap; lia).
    rewrite (for_loop_with_adder D a new (length (Some <$> ps)) (0 + 1) EXISTING_ONLY xs ys ys).
    + cbn [fst snd]. unfold Iter_dtor at 1. cbn [negb Iter_default list_].
      unfold ret. fold ps. rewrite (Hfinal _ _ []). reflexivity.
    + exact Hxs.
    + exact Hys.
    + exact Hnew.
    + fold ps. rewrite length_fmap. lia.
    + fold ps. unfold window. rewrite !length_fmap, length_app.
      replace (Nat.min (length ps) (length ps + length [new])) with (length ps) by lia.
      rewrite fmap_app, <- (length_fmap Some ps), take_app_length. reflexivity.
    + lia.
Qed.

Lemma observer_added_during_notification_follows_the_policy_witness :
  let l := [Some 1%positive; Some 2%positive; Some 3%positive] in
  ((2%positive ∉ [1%positive]) /\ (2%positive ∉ [3%positive]) /\
   (9%positive ∉ [1%positive] ++ 2%positive :: [3%positive])) /\
  range_for true true 8 4 (add_when_notified true 2 9) (mk l 0 ALL)
  = Ok [1%positive; 2%positive; 3%positive; 9%positive]
       (mk (l ++ [Some 9%positive]) 0 ALL) /\
  range_for true true 8 4 (add_when_notified true 2 9) (mk l 0 EXISTING_ONLY)
  = Ok [1%positive; 2%positive; 3%positive]
       (mk (l ++ [Some 9%positive]) 0 EXISTING_ONLY).
Proof.
  cbv zeta.
  assert (H1 : 2%positive ∉ [1%positive]) by (rewrite list_elem_of_singleton; discriminate).
  assert (H2 : 2%positive ∉ [3%positive]) by (rewrite list_elem_of_singleton; discriminate).
  assert (H3 : 9%positive ∉ [1%positive] ++ 2%positive :: [3%positive]).
  { cbn [app]. rewrite !not_elem_of_cons. repeat split; try discriminate. apply not_elem_of_nil. }
  split; [repeat split; assumption|]. split.
  - apply (observer_added_during_notification_follows_the_policy true true 8 4 ALL
             [1%positive] [3%positive] 2%positive 9%positive H1 H2 H3); cbn; lia.
  - apply (observer_added_during_notification_follows_the_policy true true 8 4 EXISTING_ONLY
             [1%positive] [3%positive] 2%positive 9%positive H1 H2 H3); cbn; lia.
Defined.

End ObserverListPolicyTheorem.

Section ObserverListLifetime.

Import Try ObserverList.
Local Open Scope try_scope.

Implicit Types (o : t) (l : list Observer) (p q : positive).

Lemma Iter_ctor_any (D ar : bool) (SM : nat) o :
  Iter_ctor D ar SM o
  = if D && negb (ar || (live_iterator_count_ o =? 0))
    then Fail (DcheckFailed Iter_reentrancy)
    else let m := match policy_ o with
                  | ALL => SM
                  | EXISTING_ONLY => length (observers_ o)
                  end in
         Ok (mkIter true (leading_nulls (window m (observers_ o))) m)
            (set_count (live_iterator_count_ o + 1) o).
Proof.
  unfold Iter_ctor, DCHECK, bind, gets, modify, ret, fail.
  cbn [list_ negb]. rewrite andb_false_r. cbn beta iota.
  destruct (D && negb (ar || (live_iterator_count_ o =? 0))); [reflexivity|].
  cbn beta iota zeta.
  rewrite EnsureValidIndex_run by lia. rewrite drop_0. reflexivity.
Qed.

(** X11: iterating a list that is already being iterated.  [begin()] on a
    list with observers and a live iterator hands out a second iterator and
    counts it, unless the list was instantiated with [allow_reentrancy]
    false and the build has its assertions, where it is refused.  On an
    empty vector [begin()] is the default iterator: nothing is counted and
    nothing is checked, so iterating an empty list is never refused. *)
Theorem nested_iteration_needs_allow_reentrancy :
  forall (DCHECK_IS_ON allow_reentrancy : bool) (SIZE_MAX : nat) (o : t),
    live_iterator_count_ o <> 0 ->
    (observers_ o = [] ->
       begin DCHECK_IS_ON allow_reentrancy SIZE_MAX o = Ok Iter_default o) /\
    (observers_ o <> [] ->
       match begin DCHECK_IS_ON allow_reentrancy SIZE_MAX o with
       | Ok it o' =>
           (DCHECK_IS_ON = false \/ allow_reentrancy = true) /\
           list_ it = true /\
           live_iterator_count_ o' = live_iterator_count_ o + 1 /\
           observers_ o' = observers_ o
       | Fail e =>
           DCHECK_IS_ON = true /\ allow_reentrancy = false /\
           e = DcheckFailed Iter_reentrancy
       end).
Proof.
  intros D ar SM o Hc. unfold begin, bind, gets, ret. cbn beta iota. split.
  - intros ->. reflexivity.
  - intros Hne. rewrite bool_decide_eq_false_2 by exact Hne.
    rewrite Iter_ctor_any.
    replace (live_iterator_count_ o =? 0) with false by (symmetry; apply Z.eqb_neq; exact Hc).
    rewrite orb_false_r.
    destruct D, ar; cbn; repeat split; auto.
Qed.

Lemma nested_iteration_needs_allow_reentrancy_witness :
  let o := mk [Some 5%positive] 1 ALL in
  live_iterator_count_ o <> 0 /\
  begin true false 8 o = Fail (DcheckFailed Iter_reentrancy) /\
  exists it o', begin true true 8 o = Ok it o' /\ live_iterator_count_ o' = 2.
Proof.
  cbv zeta.
  assert (H : live_iterator_count_ (mk [Some 5%positive] 1 ALL) <> 0) by (cbn; lia).
  assert (Hne : observers_ (mk [Some 5%positive] 1 ALL) <> []) by (cbn; discriminate).
  split; [exact H|].
  pose proof (proj2 (nested_iteration_needs_allow_reentrancy true false 8 _ H) Hne) as H1.
  pose proof (proj2 (nested_iteration_needs_allow_reentrancy true true 8 _ H) Hne) as H2.
  split.
  - destruct (begin true false 8 _) as [it o'|e].
    + destruct H1 as ([E|E] & _); discriminate E.
    + destruct H1 as (_ & _ & ->). reflexivity.
  - destruct (begin true true 8 _) as [it o'|e].
    + exists it, o'. split; [reflexivity|]. destruct H2 as (_ & _ & -> & _). reflexivity.
    + destruct H2 as (_ & E & _). discriminate E.
Defined.

(** X12: the destructor of a list instantiated with [check_empty].  It
    compacts the vector and asserts that nothing is left: it fails, in a
    build with assertions, exactly when some observer is still in the list;
    null slots left behind by removals during an iteration do not count.
    Without [check_empty] the destructor checks and changes nothing. *)
Theorem dtor_asserts_that_no_observer_is_left :
  forall (DCHECK_IS_ON check_empty : bool) (o : t),
    (check_empty = false -> dtor DCHECK_IS_ON check_empty o = Ok tt o) /\
    (check_empty = true ->
       match dtor DCHECK_IS_ON check_empty o with
       | Ok _ o' =>
           (DCHECK_IS_ON = false \/ forall p, HasObserver (Some p) o = false) /\
           observers_ o' = Some <$> present (observers_ o) /\
           live_iterator_count_ o' = live_iterator_count_ o /\
           policy_ o' = policy_ o
       | Fail e =>
           DCHECK_IS_ON = true /\ (exists p, HasObserver (Some p) o = true) /\
           e = DcheckFailed Dtor_not_empty
       end).
Proof.
  intros D ce [l c pol]. split; intros ->; [reflexivity|].
  unfold dtor, Compact, DCHECK, bind, gets, modify, ret, fail, set_observers.
  cbn [observers_ live_iterator_count_ policy_]. rewrite filter_not_None.
  destruct (present l) as [|p ps] eqn:Hp.
  - cbn. rewrite andb_false_r. split; [|repeat split].
    right. intros p. apply HasObserver_false. cbn [observers_].
    rewrite <- elem_of_present, Hp. apply not_elem_of_nil.
  - cbn. rewrite andb_true_r. destruct D.
    + split; [reflexivity|]. split; [|reflexivity].
      exists p. apply HasObserver_true. cbn [observers_].
      rewrite <- elem_of_present, Hp. left.
    + split; [left; reflexivity|]. repeat split.
Qed.

End ObserverListLifetime.

Section ObserverListIteratorCopies.

Import Try ObserverList.
Local Open Scope try_scope.

Implicit Types (o : t) (it : Iter).

(** X13: copies of an iterator are counted.  Copying an iterator that points
    at the list gives an iterator with the same index and bound and adds one
    to the count of live iterators; destroying the copy while the original
    is alive gives the list back exactly as it was, null slots included,
    since the vector is compacted only when the last iterator goes.  The
    postfix increment returns such a copy, standing where the iterator stood,
    and advances the iterator as the prefix increment does.  Copying or
    destroying an end iterator touches nothing. *)
Theorem iterator_copies_are_counted :
  forall (DCHECK_IS_ON : bool) (it : Iter) (o : t),
    0 < live_iterator_count_ o ->
    (list_ it = true ->
       Iter_copy it o = Ok it (set_count (live_iterator_count_ o + 1) o) /\
       Iter_dtor DCHECK_IS_ON it (set_count (live_iterator_count_ o + 1) o) = Ok tt o /\
       forall it' o',
         Iter_incr DCHECK_IS_ON it o = Ok it' o' ->
         o' = o /\
         Iter_post_incr DCHECK_IS_ON it o
         = Ok (it, it') (set_count (live_iterator_count_ o + 1) o)) /\
    (list_ it = false ->
       Iter_copy it o = Ok it o /\ Iter_dtor DCHECK_IS_ON it o = Ok tt o).
Proof.
  intros D [lst j m] [l c pol] Hc. cbn [live_iterator_count_ list_] in *. split; intros ->.
  - assert (Hcopy : Iter_copy (mkIter true j m) (mk l c pol)
                    = Ok (mkIter true j m) (mk l (c + 1) pol)) by reflexivity.
    split; [exact Hcopy|]. split.
    + rewrite Iter_dtor_run by (cbn; lia). cbn [live_iterator_count_ set_count].
      replace (c + 1 - 1) with c by lia.
      replace (c =? 0) with false by (symmetry; apply Z.eqb_neq; lia).
      reflexivity.
    + intros it' o' Hincr.
      assert (Ho : o' = mk l c pol /\
                   Iter_incr D (mkIter true j m) (mk l (c + 1) pol)
                   = Ok it' (mk l (c + 1) pol)).
      { revert Hincr.
        unfold Iter_incr, EnsureValidIndex, DCHECK, clamped_max_index, bind, gets, ret, fail.
        cbn [list_ index_ max_index_ negb observers_]. rewrite andb_false_r.
        destruct (skip_null_slots _ _ _ _) as [i|]; [|discriminate].
        intros [= <- <-]. split; reflexivity. }
      destruct Ho as (-> & Hincr'). split; [reflexivity|].
      unfold Iter_post_incr, bind. rewrite Hcopy, Hincr'. reflexivity.
  - split; reflexivity.
Qed.

Lemma iterator_copies_are_counted_witness :
  let o := mk [Some 5%positive; None; Some 2%positive] 1 ALL in
  let it := mkIter true 0 8 in
  0 < live_iterator_count_ o /\
  Iter_copy it o = Ok it (mk [Some 5%positive; None; Some 2%positive] 2 ALL) /\
  Iter_post_incr true it o
  = Ok (it, mkIter true 2 8) (mk [Some 5%positive; None; Some 2%positive] 2 ALL).
Proof.
  cbv zeta.
  assert (H : 0 < live_iterator_count_ (mk [Some 5%positive; None; Some 2%positive] 1 ALL))
    by (cbn; lia).
  split; [exact H|].
  destruct (proj1 (iterator_copies_are_counted true (mkIter true 0 8) _ H) eq_refl)
    as (Hcopy & _ & Hpost).
  split; [exact Hcopy|].
  exact (proj2 (Hpost (mkIter true 2 8) _ eq_refl)).
Defined.

End ObserverListIteratorCopies.
(* ===================================================================== *)
(** ** Properties of the UTF conversions                                  *)
(* ===================================================================== *)

Section UtfFacts.

Import utf.

(** [code_point & 0xFFFE] clears bit 0 of the low 16 bits. *)
Lemma land_FFFE (c : Z) : Z.land c 0xFFFE = 2 * ((c mod 0x10000) / 2).
Proof.
  change 0xFFFE with (Z.ldiff (Z.ones 16) (Z.ones 1)).
  rewrite Z.ldiff_land, Z.land_assoc, <- Z.ldiff_land.
  rewrite Z.land_ones by lia. rewrite Z.ldiff_ones_r by lia.
  rewrite Z.shiftr_div_pow2, Z.shiftl_mul_pow2 by lia.
  change (2 ^ 16) with 0x10000. change (2 ^ 1) with 2. lia.
Qed.

Lemma land_FFFE_eq (c : Z) :
  Z.land c 0xFFFE = 0xFFFE <-> 0xFFFE <= c mod 0x10000.
Proof.
  rewrite land_FFFE.
  pose proof (Z.mod_pos_bound c 0x10000 ltac:(lia)) as Hm.
  pose proof (Z.div_mod (c mod 0x10000) 2 ltac:(lia)) as Hd.
  pose proof (Z.mod_pos_bound (c mod 0x10000) 2 ltac:(lia)) as Hr.
  lia.
Qed.

Lemma kErrorCodePoint_valid : IsValidCodepoint (wrap32 kErrorCodePoint) = true.
Proof. reflexivity. Qed.

End UtfFacts.

(** X14: [IsValidCharacter] accepts exactly the valid code points that are
    not non-characters: a [uint32_t] value is a valid character iff it is a
    valid code point (below [0xD800], or from [0xE000] to [0x10FFFF]), lies
    outside [U+FDD0..U+FDEF], and its low 16 bits are neither [0xFFFE] nor
    [0xFFFF]. *)
Theorem IsValidCharacter_excludes_exactly_the_noncharacters :
  forall code_point : Z,
    is_uint32 code_point ->
    (utf.IsValidCharacter code_point = true <->
     utf.IsValidCodepoint code_point = true /\
     ~ (0xFDD0 <= code_point <= 0xFDEF) /\
     code_point mod 0x10000 < 0xFFFE).
Proof.
  intros c [Hc _]. unfold utf.IsValidCharacter, utf.IsValidCodepoint.
  pose proof (land_FFFE_eq c) as Hland.
  pose proof (Z.mod_pos_bound c 0x10000 ltac:(lia)) as Hm.
  assert (Hsmall : c < 0x10000 -> c mod 0x10000 = c)
    by (intros; apply Z.mod_small; lia).
  destruct (Z.ltb_spec c 0xD800), (Z.leb_spec 0xE000 c), (Z.ltb_spec c 0xFDD0),
    (Z.ltb_spec 0xFDEF c), (Z.leb_spec c 0x10FFFF),
    (Z.eqb_spec (Z.land c 0xFFFE) 0xFFFE);
    cbn; split; try (intros; exfalso; lia); try (intros; lia);
    try discriminate; try (intros (? & ? & ?); try discriminate; exfalso; lia).
Qed.

Lemma IsValidCharacter_excludes_exactly_the_noncharacters_witness :
  is_uint32 0x1FFFE /\
  utf.IsValidCodepoint 0x1FFFE = true /\
  ~ (utf.IsValidCharacter 0x1FFFE = true).
Proof.
  assert (H : is_uint32 0x1FFFE) by (unfold is_uint32, uint32_max; lia).
  split; [exact H|]. split; [reflexivity|].
  intros Hv.
  apply (IsValidCharacter_excludes_exactly_the_noncharacters 0x1FFFE H) in Hv.
  destruct Hv as (_ & _ & Hlow). vm_compute in Hlow. discriminate Hlow.
Defined.

Section DoUTFConversionFacts.

Import utf.

Variable CBU16_IS_SINGLE : Z -> bool.
Variable CBU16_IS_LEAD : Z -> bool.
Variable CBU16_IS_TRAIL : Z -> bool.
Variable CBU16_GET_SUPPLEMENTARY : Z -> Z -> Z.

Variable src : list Z.
Hypothesis src_char16 : Forall is_char16 src.

Lemma read_in_range (k : Z) :
  0 <= k < Z.of_nat (length src) ->
  exists c, src !! Z.to_nat k = Some c /\ is_char16 c.
Proof.
  intros Hk. destruct (lookup_lt_is_Some_2 src (Z.to_nat k) ltac:(lia)) as (c & Hc).
  exists c. split; [exact Hc|].
  eapply Forall_forall; [exact src_char16|]. eapply list_elem_of_lookup_2. exact Hc.
Qed.

Lemma ConvertSingleChar_valid (ok : bool) (c : Z) :
  is_char16 c ->
  IsValidCodepoint (wrap32 (fst (ConvertSingleChar CBU16_IS_SINGLE ok c))) = true /\
  (snd (ConvertSingleChar CBU16_IS_SINGLE ok c) = false ->
   ok = false \/
   wrap32 (fst (ConvertSingleChar CBU16_IS_SINGLE ok c)) = wrap32 kErrorCodePoint).
Proof.
  intros Hc. unfold ConvertSingleChar.
  destruct (CBU16_IS_SINGLE c); cbn [negb orb].
  - destruct (IsValidCodepoint c) eqn:Hv; cbn [negb fst snd].
    + rewrite wrap32_small by (unfold is_char16, uint32_max in *; lia).
      split; [exact Hv | intros ->; left; reflexivity].
    + split; [reflexivity | intros _; right; reflexivity].
  - cbn [fst snd]. split; [reflexivity | intros _; right; reflexivity].
Qed.

Lemma converting_snoc (st : Conversion) (step : Z) (ok : bool) (cp : Z) :
  converting src st ->
  1 <= step <= 2 ->
  i st + step <= Z.of_nat (length src) ->
  IsValidCodepoint cp = true ->
  (ok = false -> success st = false \/ cp = wrap32 kErrorCodePoint) ->
  converting src (mkConversion (i st + step) ok (appended st ++ [cp])).
Proof.
  intros (Hi & Hvalid & Hcount & Hfail) Hstep Hlen Hcp Hok.
  unfold converting. cbn [i success appended]. rewrite length_app. cbn [length].
  split; [lia|]. split.
  - apply Forall_app. split; [exact Hvalid|]. constructor; [exact Hcp | constructor].
  - split; [lia|]. intros E. apply elem_of_app.
    destruct (Hok E) as [E' | ->]; [left; exact (Hfail E') | right; left].
Qed.

Lemma loop_body_run (st : Conversion) :
  converting src st -> i st < Z.of_nat (length src) - 1 ->
  exists st', loop_body CBU16_IS_SINGLE CBU16_IS_LEAD CBU16_IS_TRAIL
                        CBU16_GET_SUPPLEMENTARY src st = Some st' /\ converting src st' /\ i st < i st'.
Proof.
  intros Hst Hlt. pose proof Hst as (Hi & _).
  destruct (read_in_range (i st) ltac:(lia)) as (c & Hc & Hc16).
  destruct (read_in_range (i st + 1) ltac:(lia)) as (c' & Hc' & _).
  unfold loop_body. rewrite Hc, Hc'. cbn [mbind option_bind fmap option_fmap option_map].
  destruct (CBU16_IS_LEAD c); cbn [mbind option_bind].
  - destruct (CBU16_IS_TRAIL c'); cbn [mbind option_bind].
    + destruct (IsValidCodepoint (wrap32 (CBU16_GET_SUPPLEMENTARY c c'))) eqn:Hv; cbn [negb].
      * eexists. split; [reflexivity|]. split; [|cbn [i]; lia].
        apply converting_snoc; [exact Hst | lia | lia | exact Hv |].
        intros E. left. exact E.
      * eexists. split; [reflexivity|]. split; [|cbn [i]; lia].
        apply converting_snoc; [exact Hst | lia | lia | reflexivity |].
        intros _. right. reflexivity.
    + destruct (ConvertSingleChar_valid (success st) c Hc16) as (Hv & Hok).
      eexists. split; [reflexivity|]. split; [|cbn [i]; lia].
      apply converting_snoc; [exact Hst | lia | lia | exact Hv | exact Hok].
  - destruct (ConvertSingleChar_valid (success st) c Hc16) as (Hv & Hok).
    eexists. split; [reflexivity|]. split; [|cbn [i]; lia].
    apply converting_snoc; [exact Hst | lia | lia | exact Hv | exact Hok].
Qed.

Lemma while_loop_run (fuel : nat) : forall st,
  converting src st ->
  Z.of_nat (length src) - i st <= Z.of_nat fuel ->
  exists st',
    while_loop CBU16_IS_SINGLE CBU16_IS_LEAD CBU16_IS_TRAIL CBU16_GET_SUPPLEMENTARY
               fuel src (Z.of_nat (length src)) st = Some st' /\
    converting src st' /\ Z.of_nat (length src) - 1 <= i st'.
Proof.
  induction fuel as [|fuel IH]; intros st Hst Hfuel; cbn [while_loop];
    destruct (Z.ltb_spec (i st) (Z.of_nat (length src) - 1)) as [Hlt | Hge].
  - lia.
  - exists st. split; [reflexivity|]. split; [exact Hst | lia].
  - destruct (loop_body_run st Hst Hlt) as (st1 & -> & Hst1 & Hadv).
    apply IH; [exact Hst1 | lia].
  - exists st. split; [reflexivity|]. split; [exact Hst | lia].
Qed.

End DoUTFConversionFacts.

(** X15: the UTF-16 reader [DoUTFConversion(const char16* src, ...)],
    whatever the ICU macros compute.  On every string of [char16] values
    whose length fits [int32_t] it returns, having read every code unit:
    each code point it hands to [UnicodeAppendUnsafe] is a valid code point
    (never a surrogate, never above [0x10FFFF]), each stands for one or two
    code units of the source, and when it reports failure the output holds
    the replacement character [U+FFFD]. *)
Theorem DoUTFConversion_appends_only_valid_code_points :
  forall (CBU16_IS_SINGLE CBU16_IS_LEAD CBU16_IS_TRAIL : Z -> bool)
         (CBU16_GET_SUPPLEMENTARY : Z -> Z -> Z) (src : list Z),
    Forall utf.is_char16 src ->
    Z.of_nat (length src) <= 0x7FFFFFFF ->
    exists (ok : bool) (out : list Z),
      utf.DoUTFConversion CBU16_IS_SINGLE CBU16_IS_LEAD CBU16_IS_TRAIL
                          CBU16_GET_SUPPLEMENTARY src (Z.of_nat (length src))
      = Some (ok, out) /\
      Forall (fun cp => utf.IsValidCodepoint cp = true) out /\
      (length out <= length src <= 2 * length out)%nat /\
      (ok = false -> utf.kErrorCodePoint ∈ out).
Proof.
  intros SINGLE LEAD TRAIL SUPP src Hsrc _.
  assert (H0 : utf.converting src (utf.mkConversion 0 true [])).
  { unfold utf.converting. cbn [utf.i utf.success utf.appended length].
    split; [lia|]. split; [constructor|]. split; [lia | discriminate]. }
  destruct (while_loop_run SINGLE LEAD TRAIL SUPP src Hsrc (Z.to_nat (Z.of_nat (length src)))
              _ H0 ltac:(cbn [utf.i]; lia)) as (st & Hrun & Hst & Hexit).
  unfold utf.DoUTFConversion. rewrite Hrun.
  pose proof Hst as (Hi & Hvalid & Hcount & Hfail).
  destruct (Z.ltb_spec (utf.i st) (Z.of_nat (length src))) as [Hlt | Hge].
  - destruct (read_in_range src Hsrc (utf.i st) ltac:(lia)) as (c & -> & Hc16).
    destruct (ConvertSingleChar_valid SINGLE (utf.success st) c Hc16) as (Hv & Hok).
    pose proof (converting_snoc src st 1 _ _ Hst ltac:(lia) ltac:(lia) Hv Hok)
      as (_ & Hvalid' & Hcount' & Hfail').
    cbn [utf.i utf.success utf.appended] in *.
    eexists _, _. split; [reflexivity|]. split; [exact Hvalid'|]. split; [lia|].
    exact Hfail'.
  - eexists _, _. split; [reflexivity|]. split; [exact Hvalid|]. split; [lia|].
    exact Hfail.
Qed.

Lemma DoUTFConversion_appends_only_valid_code_points_witness :
  let src := [0x48; 0xD83D; 0xDE00; 0xDC00] in
  let IS_SINGLE := fun c => negb (Z.land c 0xF800 =? 0xD800) in
  let IS_LEAD := fun c => Z.land c 0xFC00 =? 0xD800 in
  let IS_TRAIL := fun c => Z.land c 0xFC00 =? 0xDC00 in
  let GET_SUPPLEMENTARY := fun lead trail => lead * 1024 + trail - 0x35FDC00 in
  (Forall utf.is_char16 src /\ Z.of_nat (length src) <= 0x7FFFFFFF) /\
  utf.DoUTFConversion IS_SINGLE IS_LEAD IS_TRAIL GET_SUPPLEMENTARY src 4
  = Some (false, [0x48; 0x1F600; 0xFFFD]) /\
  exists (ok : bool) (out : list Z),
    utf.DoUTFConversion IS_SINGLE IS_LEAD IS_TRAIL GET_SUPPLEMENTARY src 4
    = Some (ok, out) /\
    Forall (fun cp => utf.IsValidCodepoint cp = true) out.
Proof.
  cbv zeta.
  assert (H1 : Forall utf.is_char16 [0x48; 0xD83D; 0xDE00; 0xDC00])
    by (repeat constructor; unfold utf.is_char16; lia).
  assert (H2 : Z.of_nat (length [0x48; 0xD83D; 0xDE00; 0xDC00]) <= 0x7FFFFFFF)
    by (cbn; lia).
  split; [split; assumption|]. split; [vm_compute; reflexivity|].
  destruct (DoUTFConversion_appends_only_valid_code_points
              (fun c => negb (Z.land c 0xF800 =? 0xD800))
              (fun c => Z.land c 0xFC00 =? 0xD800)
              (fun c => Z.land c 0xFC00 =? 0xDC00)
              (fun lead trail => lead * 1024 + trail - 0x35FDC00)
              [0x48; 0xD83D; 0xDE00; 0xDC00] H1 H2)
    as (ok & out & Hrun & Hvalid & _).
  exists ok, out. split; [exact Hrun | exact Hvalid].
Defined.

(** X16: [ASCIIToUTF16] and [UTF16ToASCII] convert unit by unit, and their
    assertions are commented out.  On every string of [char]s, ASCII or not,
    [UTF16ToASCII(ASCIIToUTF16(s))] is [s] again.  A unit below [0x80] keeps
    its value in both directions; a [char] from [0x80] on keeps its value
    where [char] is unsigned and becomes [0xFF00 + c] where it is signed, so
    non-ASCII input is not widened to the code point of the same number. *)
Theorem ASCII_conversions_round_trip :
  forall (CHAR_IS_SIGNED : bool) (s : list Z),
    Forall utf.is_char s ->
    utf.UTF16ToASCII (utf.ASCIIToUTF16 CHAR_IS_SIGNED s) = s /\
    length (utf.ASCIIToUTF16 CHAR_IS_SIGNED s) = length s /\
    Forall utf.is_char16 (utf.ASCIIToUTF16 CHAR_IS_SIGNED s) /\
    (forall (k : nat) (c : Z), s !! k = Some c ->
       utf.ASCIIToUTF16 CHAR_IS_SIGNED s !! k
       = Some (if CHAR_IS_SIGNED && (0x80 <=? c) then 0xFF00 + c else c)) /\
    (forall u : list Z, Forall (fun c => 0 <= c < 0x80) u ->
       utf.UTF16ToASCII u = u /\
       utf.ASCIIToUTF16 CHAR_IS_SIGNED (utf.UTF16ToASCII u) = u).
Proof.
  intros sgn s Hs.
  assert (Hunit : forall c, utf.is_char c ->
            utf.char_to_char16 sgn c = (if sgn && (0x80 <=? c) then 0xFF00 + c else c)).
  { intros c Hc. unfold utf.is_char in Hc. unfold utf.char_to_char16.
    destruct sgn; cbn [andb]; [destruct (Z.leb_spec 0x80 c)|].
    - replace (c - 0x100) with (0xFF00 + c + -1 * 0x10000) by lia.
      rewrite Z.mod_add by lia. apply Z.mod_small. lia.
    - apply Z.mod_small. lia.
    - apply Z.mod_small. lia. }
  assert (Hback : forall c, utf.is_char c ->
            utf.char16_to_char (utf.char_to_char16 sgn c) = c).
  { intros c Hc. rewrite Hunit by exact Hc. unfold utf.is_char in Hc.
    unfold utf.char16_to_char.
    destruct (sgn && (0x80 <=? c)).
    - replace (0xFF00 + c) with (c + 0xFF * 0x100) by lia.
      rewrite Z.mod_add by lia. apply Z.mod_small. lia.
    - apply Z.mod_small. lia. }
  unfold utf.UTF16ToASCII, utf.ASCIIToUTF16.
  split; [|split; [|split; [|split]]].
  - rewrite <- list_fmap_compose. rewrite <- (list_fmap_id s) at 2.
    apply Forall_fmap_ext_1. eapply Forall_impl; [exact Hs|].
    intros c Hc. cbn. apply Hback. exact Hc.
  - apply length_fmap.
  - apply Forall_fmap. eapply Forall_impl; [exact Hs|].
    intros c Hc. cbn. unfold utf.is_char16, utf.char_to_char16.
    apply Z.mod_pos_bound. lia.
  - intros k c Hk. rewrite list_lookup_fmap, Hk. cbn. f_equal. apply Hunit.
    eapply Forall_forall; [exact Hs|]. eapply list_elem_of_lookup_2. exact Hk.
  - intros u Hu.
    assert (H1 : utf.char16_to_char <$> u = u).
    { rewrite <- (list_fmap_id u) at 2. apply Forall_fmap_ext_1.
      eapply Forall_impl; [exact Hu|]. intros c Hc. cbn beta in Hc. cbn.
      unfold utf.char16_to_char. apply Z.mod_small. lia. }
    split; [exact H1|]. rewrite H1.
    rewrite <- (list_fmap_id u) at 2. apply Forall_fmap_ext_1.
    eapply Forall_impl; [exact Hu|]. intros c Hc. cbn beta in Hc. cbn.
    rewrite Hunit by (unfold utf.is_char; lia).
    destruct (Z.leb_spec 0x80 c); [lia|]. rewrite andb_false_r. reflexivity.
Qed.

Lemma ASCII_conversions_round_trip_witness :
  Forall utf.is_char [0x41; 0xE9] /\
  utf.ASCIIToUTF16 true [0x41; 0xE9] = [0x41; 0xFFE9] /\
  utf.UTF16ToASCII (utf.ASCIIToUTF16 true [0x41; 0xE9]) = [0x41; 0xE9].
Proof.
  assert (H : Forall utf.is_char [0x41; 0xE9])
    by (repeat constructor; unfold utf.is_char; lia).
  split; [exact H|]. split; [vm_compute; reflexivity|].
  exact (proj1 (ASCII_conversions_round_trip true [0x41; 0xE9] H)).
Defined.
(* ===================================================================== *)
(** ** Properties of AtomicSequenceNumber                                 *)
(* ===================================================================== *)

Section AtomicSequenceNumberFacts.

Import AtomicSequenceNumber.

Lemma wrap_int_small z : int_min <= z <= int_max -> wrap_int z = z.
Proof.
  unfold int_min, int_max, wrap_int. intros H.
  rewrite Z.mod_small by lia. lia.
Qed.

Lemma wrap_int_succ z : wrap_int (wrap_int z + 1) = wrap_int (z + 1).
Proof.
  unfold wrap_int. f_equal.
  replace ((z + 2 ^ 31) mod 2 ^ 32 - 2 ^ 31 + 1 + 2 ^ 31)
    with ((z + 2 ^ 31) mod 2 ^ 32 + 1) by lia.
  rewrite Zplus_mod_idemp_l. f_equal. lia.
Qed.

Lemma wrap_int_inj_on (a b : Z) :
  0 <= a < 2 ^ 32 -> 0 <= b < 2 ^ 32 -> wrap_int a = wrap_int b -> a = b.
Proof.
  unfold wrap_int. intros Ha Hb H.
  assert (E : (a + 2 ^ 31) mod 2 ^ 32 = (b + 2 ^ 31) mod 2 ^ 32) by lia.
  pose proof (Z.div_mod (a + 2 ^ 31) (2 ^ 32) ltac:(lia)) as Da.
  pose proof (Z.div_mod (b + 2 ^ 31) (2 ^ 32) ltac:(lia)) as Db.
  assert (Hqa : 0 <= (a + 2 ^ 31) / 2 ^ 32 <= 1).
  { split; [apply Z.div_pos; lia|]. apply Z.lt_succ_r, Z.div_lt_upper_bound; lia. }
  assert (Hqb : 0 <= (b + 2 ^ 31) / 2 ^ 32 <= 1).
  { split; [apply Z.div_pos; lia|]. apply Z.lt_succ_r, Z.div_lt_upper_bound; lia. }
  pose proof (Z.mod_pos_bound (a + 2 ^ 31) (2 ^ 32) ltac:(lia)).
  pose proof (Z.mod_pos_bound (b + 2 ^ 31) (2 ^ 32) ltac:(lia)).
  lia.
Qed.

Lemma GetNext_times_from (n : nat) : forall k : nat,
  GetNext_times n (mk (wrap_int (Z.of_nat k)))
  = ((fun j : nat => wrap_int (Z.of_nat j)) <$> seq k n,
     mk (wrap_int (Z.of_nat (k + n)))).
Proof.
  induction n as [|n IH]; intros k.
  - cbn. rewrite Nat.add_0_r. reflexivity.
  - cbn [GetNext_times GetNext seq_ fst snd seq fmap list_fmap].
    rewrite wrap_int_succ.
    replace (Z.of_nat k + 1) with (Z.of_nat (S k)) by lia.
    rewrite IH. cbn [fst snd]. do 3 f_equal. lia.
Qed.

End AtomicSequenceNumberFacts.

(** X17: the numbers a fresh [AtomicSequenceNumber] hands out.  The call
    number [k] (counted from zero) of [GetNext()] returns [k] itself as long
    as [k] is at most [INT_MAX]; call number [2^31] returns [INT_MIN], since
    the counter wraps around; and any run of up to [2^32] calls returns
    pairwise different numbers. *)
Theorem GetNext_counts_up_from_zero :
  forall n : nat,
    let results := fst (AtomicSequenceNumber.GetNext_times n AtomicSequenceNumber.ctor) in
    length results = n /\
    (forall k : nat, (k < n)%nat ->
       results !! k = Some (AtomicSequenceNumber.wrap_int (Z.of_nat k))) /\
    (forall k : nat, (k < n)%nat -> Z.of_nat k <= AtomicSequenceNumber.int_max ->
       results !! k = Some (Z.of_nat k)) /\
    (forall k : nat, (k < n)%nat -> Z.of_nat k = 2 ^ 31 ->
       results !! k = Some AtomicSequenceNumber.int_min) /\
    (Z.of_nat n <= 2 ^ 32 -> NoDup results).
Proof.
  intros n results.
  assert (Hres : results
                 = (fun j : nat => AtomicSequenceNumber.wrap_int (Z.of_nat j)) <$> seq 0 n).
  { unfold results, AtomicSequenceNumber.ctor.
    change 0 with (AtomicSequenceNumber.wrap_int (Z.of_nat 0)).
    rewrite GetNext_times_from. reflexivity. }
  assert (Hk : forall k : nat, (k < n)%nat ->
            results !! k = Some (AtomicSequenceNumber.wrap_int (Z.of_nat k))).
  { intros k Hlt. rewrite Hres, list_lookup_fmap, lookup_seq_lt by exact Hlt. reflexivity. }
  split; [rewrite Hres, length_fmap; apply length_seq|].
  split; [exact Hk|]. split; [|split].
  - intros k Hlt Hmax. rewrite Hk by exact Hlt. f_equal.
    apply wrap_int_small. unfold AtomicSequenceNumber.int_min. lia.
  - intros k Hlt E. rewrite Hk by exact Hlt. rewrite E. reflexivity.
  - intros Hn. rewrite Hres. apply NoDup_fmap_2_strong; [|apply NoDup_seq].
    intros a b Ha Hb E. apply elem_of_seq in Ha, Hb.
    apply wrap_int_inj_on in E; lia.
Qed.

(* ===================================================================== *)
(** ** Properties of ScopedTempDir                                        *)
(* ===================================================================== *)

(** X18: a [ScopedTempDir] owns at most one directory.  While its path is
    not empty, [CreateUniqueTempDir], [CreateUniqueTempDirUnderPath] and
    [Set] all return false, and they do so without calling any function of
    the file system and without touching the path. *)
Theorem ScopedTempDir_owns_at_most_one_directory :
  forall (FS : Type)
         (CreateNewTempDirectory : list Z -> ScopedTempDir.FilePath -> FS
                                   -> bool * ScopedTempDir.FilePath * FS)
         (CreateDirectory : ScopedTempDir.FilePath -> FS -> bool * FS)
         (CreateTemporaryDirInDir : ScopedTempDir.FilePath -> list Z
                                    -> ScopedTempDir.FilePath -> FS
                                    -> bool * ScopedTempDir.FilePath * FS)
         (DirectoryExists : ScopedTempDir.FilePath -> FS -> bool * FS)
         (s : ScopedTempDir.t FS) (path : ScopedTempDir.FilePath),
    ScopedTempDir.path_ FS s <> [] ->
    ScopedTempDir.CreateUniqueTempDir FS CreateNewTempDirectory s = (false, s) /\
    ScopedTempDir.CreateUniqueTempDirUnderPath FS CreateDirectory
      CreateTemporaryDirInDir path s = (false, s) /\
    ScopedTempDir.Set_ FS CreateDirectory DirectoryExists path s = (false, s).
Proof.
  intros FS new_temp create temp_in exists_ s path Hpath.
  unfold ScopedTempDir.CreateUniqueTempDir, ScopedTempDir.CreateUniqueTempDirUnderPath,
    ScopedTempDir.Set_, ScopedTempDir.FilePath_empty.
  rewrite bool_decide_eq_false_2 by exact Hpath. repeat split.
Qed.


Lemma ScopedTempDir_owns_at_most_one_directory_witness :
  let s := ScopedTempDir.mk unit [100] tt in
  let CreateNewTempDirectory :=
    fun (prefix : list Z) (old : ScopedTempDir.FilePath) (files : unit) =>
      (true, prefix, files) in
  let CreateDirectory := fun (_ : ScopedTempDir.FilePath) (files : unit) => (true, files) in
  let CreateTemporaryDirInDir :=
    fun (base : ScopedTempDir.FilePath) (prefix : list Z)
        (old : ScopedTempDir.FilePath) (files : unit) => (true, base ++ prefix, files) in
  let DirectoryExists := fun (_ : ScopedTempDir.FilePath) (files : unit) => (true, files) in
  ScopedTempDir.path_ unit s <> [] /\
  ScopedTempDir.CreateUniqueTempDir unit CreateNewTempDirectory s = (false, s) /\
  ScopedTempDir.CreateUniqueTempDir unit CreateNewTempDirectory (ScopedTempDir.ctor unit tt)
  = (true, ScopedTempDir.mk unit ScopedTempDir.scoped_dir tt) /\
  ScopedTempDir.Set_ unit CreateDirectory DirectoryExists [101] s = (false, s).
Proof.
  cbv zeta.
  assert (H : ScopedTempDir.path_ unit (ScopedTempDir.mk unit [100] tt) <> [])
    by (cbn; discriminate).
  split; [exact H|].
  pose proof (ScopedTempDir_owns_at_most_one_directory unit
                (fun prefix old files => (true, prefix, files))
                (fun _ files => (true, files))
                (fun base prefix old files => (true, base ++ prefix, files))
                (fun _ files => (true, files))
                (ScopedTempDir.mk unit [100] tt) [101] H) as (H1 & _ & H3).
  split; [exact H1|]. split; [reflexivity | exact H3].
Defined.

(** X19: how a [ScopedTempDir] lets go of its directory.  [Take()] returns
    the path and empties it without touching the file system; afterwards the
    destructor, [Delete()] and [IsValid()] call no function of the file
    system and report false.  [Delete()] on an owned directory calls
    [DeleteFile(path_, true)] once: when that succeeds the path is cleared,
    so that a second [Delete()] and the destructor do nothing more; when it
    fails the path is kept.  [Delete()] without a directory returns false
    and does nothing. *)
Theorem ScopedTempDir_lets_go_of_its_directory :
  forall (FS : Type)
         (DirectoryExists : ScopedTempDir.FilePath -> FS -> bool * FS)
         (DeleteFile : ScopedTempDir.FilePath -> bool -> FS -> bool * FS)
         (s : ScopedTempDir.t FS),
    (let taken := ScopedTempDir.Take FS s in
     fst taken = ScopedTempDir.path_ FS s /\
     snd taken = ScopedTempDir.mk FS [] (ScopedTempDir.fs FS s) /\
     ScopedTempDir.dtor FS DeleteFile (snd taken) = (false, snd taken) /\
     ScopedTempDir.Delete FS DeleteFile (snd taken) = (false, snd taken) /\
     ScopedTempDir.IsValid FS DirectoryExists (snd taken) = (false, snd taken)) /\
    (let deleted := ScopedTempDir.Delete FS DeleteFile s in
     (ScopedTempDir.path_ FS s = [] -> deleted = (false, s)) /\
     (ScopedTempDir.path_ FS s <> [] ->
        DeleteFile (ScopedTempDir.path_ FS s) true (ScopedTempDir.fs FS s)
        = (fst deleted, ScopedTempDir.fs FS (snd deleted))) /\
     (fst deleted = true ->
        ScopedTempDir.path_ FS (snd deleted) = [] /\
        ScopedTempDir.Delete FS DeleteFile (snd deleted) = (false, snd deleted) /\
        ScopedTempDir.dtor FS DeleteFile (snd deleted) = (false, snd deleted)) /\
     (fst deleted = false ->
        ScopedTempDir.path_ FS (snd deleted) = ScopedTempDir.path_ FS s)).
Proof.
  intros FS exists_ delete [path files]. split.
  - cbv zeta. repeat split.
  - cbv zeta. destruct path as [|c path].
    + assert (E : ScopedTempDir.Delete FS delete (ScopedTempDir.mk FS [] files)
                  = (false, ScopedTempDir.mk FS [] files)) by reflexivity.
      rewrite E. cbn [fst snd ScopedTempDir.path_ ScopedTempDir.fs].
      repeat (split || intros); try reflexivity; try discriminate; try congruence.
    + assert (E : ScopedTempDir.Delete FS delete (ScopedTempDir.mk FS (c :: path) files)
                  = let '(ret, files') := delete (c :: path) true files in
                    if ret then (true, ScopedTempDir.mk FS [] files')
                    else (false, ScopedTempDir.mk FS (c :: path) files')).
      { unfold ScopedTempDir.Delete, ScopedTempDir.FilePath_empty.
        cbn [ScopedTempDir.path_ ScopedTempDir.fs].
        rewrite bool_decide_eq_false_2 by discriminate. reflexivity. }
      rewrite E. clear E.
      destruct (delete (c :: path) true files) as [[] files'] eqn:Hd;
        cbn [fst snd ScopedTempDir.path_ ScopedTempDir.fs];
        repeat (split || intros); try reflexivity; try discriminate; try exact Hd.
Qed.

(* ===================================================================== *)
(** ** Properties of File::ErrorToString                                  *)
(* ===================================================================== *)

(** X20: [File::ErrorToString] names every error: for each enumerator
    other than [FILE_ERROR_MAX] it returns a string that is not empty, and
    no two enumerators get the same string.  [FILE_ERROR_MAX] alone falls
    out of the switch: it reaches [WINBASE_NOTREACHED()], and where
    assertions are compiled out it gets the empty string. *)
Theorem ErrorToString_names_every_error :
  forall (DCHECK_IS_ON : bool) (error : File.Error),
    (error <> File.FILE_ERROR_MAX ->
       exists name : String.string,
         File.ErrorToString DCHECK_IS_ON error = inr name /\
         name <> String.EmptyString) /\
    (forall other : File.Error,
       File.ErrorToString DCHECK_IS_ON error = File.ErrorToString DCHECK_IS_ON other ->
       error = other) /\
    (error = File.FILE_ERROR_MAX ->
       File.ErrorToString DCHECK_IS_ON error
       = if DCHECK_IS_ON then inl File.NotReached else inr String.EmptyString).
Proof.
  intros D error. split; [|split].
  - intros Hne. destruct error; try (eexists; split; [reflexivity | discriminate]).
    contradiction.
  - intros other. destruct D, error, other; cbn; intros E; try reflexivity; discriminate E.
  - intros ->. reflexivity.
Qed.
(* ===================================================================== *)
(** ** Properties of ThreadTaskRunnerHandle                               *)
(* ===================================================================== *)

Section ThreadTaskRunnerHandleFacts.

Import Try ThreadTaskRunnerHandle.
Local Open Scope try_scope.

Variable DCHECK_IS_ON : bool.
Variable SequencedTaskRunnerHandle_IsSet : Thread -> bool.
Variable BelongsToCurrentThread : positive -> bool.

Implicit Types (th : Thread) (h : addr) (r : TaskRunner) (cs : list Closure).

(** A thread whose slot points at a live handle holding [r]. *)
Lemma thread_eta th h : tls th = Some h -> th = mkThread (Some h) (handles th).
Proof. destruct th as [s hs]. cbn. intros ->. reflexivity. Qed.

Lemma Get_run hs h r :
  hs !! h = Some (mk r) ->
  Get (mkThread (Some h) hs) = Ok r (mkThread (Some h) hs).
Proof.
  intros Hh. unfold Get, CHECK, task_runner_of, bind, gets, ret, fail.
  cbn [tls handles]. rewrite bool_decide_eq_true_2 by (eexists; reflexivity).
  cbn [negb tls handles]. rewrite Hh. reflexivity.
Qed.

Lemma DCHECK_pass (cond : M Failure Thread bool) (site : Site) th :
  (DCHECK_IS_ON = true -> cond th = Ok true th) ->
  DCHECK DCHECK_IS_ON cond site th = Ok tt th.
Proof.
  intros H. unfold DCHECK. destruct DCHECK_IS_ON; [|reflexivity].
  unfold bind. rewrite H by reflexivity. reflexivity.
Qed.

Lemma OverrideForTesting_set hs h r0 r :
  hs !! h = Some (mk r0) ->
  OverrideForTesting DCHECK_IS_ON SequencedTaskRunnerHandle_IsSet BelongsToCurrentThread r
                     (mkThread (Some h) hs)
  = Ok (RestoreTaskRunner r0 r) (mkThread (Some h) (<[h := mk r]> hs)).
Proof.
  intros Hh.
  assert (Hset : IsSet (mkThread (Some h) hs) = Ok true (mkThread (Some h) hs)).
  { unfold IsSet, gets. cbn [tls].
    rewrite bool_decide_eq_true_2 by (eexists; reflexivity). reflexivity. }
  unfold OverrideForTesting. unfold bind at 1. rewrite DCHECK_pass.
  2:{ intros _. unfold bind, gets, ret.
      destruct (negb (SequencedTaskRunnerHandle_IsSet _)); [reflexivity | exact Hset]. }
  unfold bind at 1. rewrite Hset. cbn [negb].
  unfold task_runner_of, set_task_runner, bind, gets, modify, ret, fail.
  cbn [tls handles]. rewrite Hh. cbn [task_runner_].
  rewrite lookup_insert_eq. reflexivity.
Qed.

Lemma Run_restore hs h r0 r :
  hs !! h = Some (mk r) ->
  Run DCHECK_IS_ON BelongsToCurrentThread (RestoreTaskRunner r0 r) (mkThread (Some h) hs)
  = Ok tt (mkThread (Some h) (<[h := mk r0]> hs)).
Proof.
  intros Hh. unfold Run. unfold bind at 1, gets at 1. cbn [tls].
  unfold bind at 1. rewrite DCHECK_pass.
  2:{ intros _. unfold task_runner_of, bind, gets, ret. cbn [handles]. rewrite Hh.
      cbn [task_runner_]. rewrite bool_decide_eq_true_2 by reflexivity. reflexivity. }
  unfold task_runner_of, set_task_runner, bind, gets, modify, ret, fail.
  cbn [tls handles]. rewrite Hh. reflexivity.
Qed.

Lemma run_all_app cs1 cs2 th :
  run_all DCHECK_IS_ON BelongsToCurrentThread (cs1 ++ cs2) th
  = (run_all DCHECK_IS_ON BelongsToCurrentThread cs1 >>
     run_all DCHECK_IS_ON BelongsToCurrentThread cs2) th.
Proof.
  revert th. induction cs1 as [|c cs1 IH]; intros th; [reflexivity|].
  cbn [app run_all]. unfold bind.
  destruct (Run _ _ c th) as [[] th'|e]; [|reflexivity].
  rewrite IH. reflexivity.
Qed.

Lemma last_cons_default {A} (l : list A) : forall x d : A,
  List.last (x :: l) d = List.last l x.
Proof.
  induction l as [|a l IH]; intros x d; [reflexivity|].
  change (List.last (x :: a :: l) d) with (List.last (a :: l) d).
  change (List.last (a :: l) x) with (List.last (a :: l) x).
  rewrite (IH a d), (IH a x). reflexivity.
Qed.

Lemma override_all_set (rs : list TaskRunner) : forall hs h r0,
  hs !! h = Some (mk r0) ->
  exists cs hs',
    override_all DCHECK_IS_ON SequencedTaskRunnerHandle_IsSet BelongsToCurrentThread rs
                 (mkThread (Some h) hs)
    = Ok cs (mkThread (Some h) hs') /\
    length cs = length rs /\
    hs' !! h = Some (mk (List.last rs r0)) /\
    run_all DCHECK_IS_ON BelongsToCurrentThread (reverse cs) (mkThread (Some h) hs')
    = Ok tt (mkThread (Some h) hs) /\
    dom hs' = dom hs.
Proof.
  induction rs as [|r rs IH]; intros hs h r0 Hh.
  - exists [], hs. repeat split; [exact Hh].
  - cbn [override_all]. unfold bind at 1.
    rewrite (OverrideForTesting_set hs h r0 r Hh).
    destruct (IH (<[h := mk r]> hs) h r (lookup_insert_eq _ _ _))
      as (cs & hs' & Hrun & Hlen & Hlast & Hback & Hdom).
    unfold bind. rewrite Hrun. unfold ret.
    exists (RestoreTaskRunner r0 r :: cs), hs'.
    split; [reflexivity|]. split; [cbn; lia|]. split; [|split].
    + rewrite Hlast, last_cons_default. reflexivity.
    + rewrite reverse_cons, run_all_app. unfold bind. rewrite Hback.
      cbn [run_all]. unfold bind.
      rewrite (Run_restore _ h r0 r (lookup_insert_eq _ _ _)).
      unfold ret. rewrite insert_insert_eq, insert_id by exact Hh. reflexivity.
    + rewrite Hdom. apply dom_insert_lookup_L. rewrite Hh. eexists. reflexivity.
Qed.

(** The restoring closure when assertions are off, or when the task runner
    it expects is not the one installed. *)
Lemma Run_restore_unchecked hs h r0 r expected :
  hs !! h = Some (mk r) ->
  Run DCHECK_IS_ON BelongsToCurrentThread (RestoreTaskRunner r0 expected)
      (mkThread (Some h) hs)
  = if DCHECK_IS_ON && negb (bool_decide (expected = r))
    then Fail (DcheckFailed Restore_expected)
    else Ok tt (mkThread (Some h) (<[h := mk r0]> hs)).
Proof.
  intros Hh. unfold Run, DCHECK, task_runner_of, set_task_runner, bind, gets, modify, ret, fail.
  destruct DCHECK_IS_ON; cbn [andb tls handles]; rewrite Hh; cbn [task_runner_].
  - destruct (bool_decide (expected = r)); cbn [negb tls handles]; rewrite ?Hh; reflexivity.
  - reflexivity.
Qed.

Lemma ctor_run hs p runner :
  (DCHECK_IS_ON = true ->
     BelongsToCurrentThread runner = true /\
     SequencedTaskRunnerHandle_IsSet (mkThread None (<[p := mk (Some runner)]> hs)) = false) ->
  ctor DCHECK_IS_ON SequencedTaskRunnerHandle_IsSet BelongsToCurrentThread p (Some runner)
       (mkThread None hs)
  = Ok tt (mkThread (Some p) (<[p := mk (Some runner)]> hs)).
Proof.
  intros Hd. unfold ctor. unfold bind at 1, set_task_runner at 1, modify at 1.
  cbn [tls handles]. unfold bind at 1. rewrite DCHECK_pass.
  2:{ intros E. unfold belongs, ret. rewrite (proj1 (Hd E)). reflexivity. }
  unfold bind at 1. rewrite DCHECK_pass.
  2:{ intros E. unfold bind, gets, ret. rewrite (proj2 (Hd E)). reflexivity. }
  reflexivity.
Qed.

Lemma dtor_run hs p runner :
  hs !! p = Some (mk (Some runner)) ->
  (DCHECK_IS_ON = true -> BelongsToCurrentThread runner = true) ->
  dtor DCHECK_IS_ON BelongsToCurrentThread p (mkThread (Some p) hs)
  = Ok tt (mkThread None (delete p hs)).
Proof.
  intros Hp Hd. unfold dtor. unfold bind at 1, task_runner_of at 1, bind at 1, gets at 1.
  cbn [handles]. rewrite Hp. unfold ret at 1. cbn [task_runner_].
  unfold bind at 1. rewrite DCHECK_pass.
  2:{ intros E. unfold belongs, ret. rewrite (Hd E). reflexivity. }
  unfold bind at 1. rewrite DCHECK_pass.
  2:{ intros _. unfold bind, gets, ret. cbn [tls].
      rewrite bool_decide_eq_true_2 by reflexivity. reflexivity. }
  reflexivity.
Qed.

End ThreadTaskRunnerHandleFacts.

(** X21: overrides of the thread's task runner nest.  On a thread whose
    handle is set, any number of [OverrideForTesting] calls made one inside
    the other all return; after them [Get()] returns the task runner of the
    innermost override; and running the returned closures in the reverse
    order trips no assertion and puts the thread back exactly as it was.  No
    new handle is created and the slot keeps pointing at the same one. *)
Theorem nested_overrides_restore_in_LIFO_order :
  forall (DCHECK_IS_ON : bool)
         (SequencedTaskRunnerHandle_IsSet : ThreadTaskRunnerHandle.Thread -> bool)
         (BelongsToCurrentThread : positive -> bool)
         (rs : list ThreadTaskRunnerHandle.TaskRunner)
         (th : ThreadTaskRunnerHandle.Thread) (h : addr)
         (r0 : ThreadTaskRunnerHandle.TaskRunner),
    ThreadTaskRunnerHandle.tls th = Some h ->
    ThreadTaskRunnerHandle.handles th !! h = Some (ThreadTaskRunnerHandle.mk r0) ->
    exists cs th',
      ThreadTaskRunnerHandle.override_all DCHECK_IS_ON SequencedTaskRunnerHandle_IsSet
        BelongsToCurrentThread rs th = Try.Ok cs th' /\
      length cs = length rs /\
      ThreadTaskRunnerHandle.tls th' = Some h /\
      dom (ThreadTaskRunnerHandle.handles th') = dom (ThreadTaskRunnerHandle.handles th) /\
      ThreadTaskRunnerHandle.Get th' = Try.Ok (List.last rs r0) th' /\
      ThreadTaskRunnerHandle.run_all DCHECK_IS_ON BelongsToCurrentThread (reverse cs) th'
      = Try.Ok tt th.
Proof.
  intros D Seq Belongs rs [s hs] h r0 Htls Hh. cbn in Htls, Hh. subst s.
  destruct (override_all_set D Seq Belongs rs hs h r0 Hh)
    as (cs & hs' & Hrun & Hlen & Hlast & Hback & Hdom).
  exists cs, (ThreadTaskRunnerHandle.mkThread (Some h) hs').
  split; [exact Hrun|]. split; [exact Hlen|]. split; [reflexivity|].
  split; [exact Hdom|]. split; [apply Get_run; exact Hlast | exact Hback].
Qed.

Lemma nested_overrides_restore_in_LIFO_order_witness :
  let th := ThreadTaskRunnerHandle.mkThread
              (Some 1%positive)
              {[ 1%positive := ThreadTaskRunnerHandle.mk (Some 10%positive) ]} in
  let rs := [Some 11%positive; None; Some 12%positive] in
  (ThreadTaskRunnerHandle.tls th = Some 1%positive /\
   ThreadTaskRunnerHandle.handles th !! 1%positive
   = Some (ThreadTaskRunnerHandle.mk (Some 10%positive))) /\
  exists cs th',
    ThreadTaskRunnerHandle.override_all true (fun _ => true) (fun _ => false) rs th
    = Try.Ok cs th' /\
    ThreadTaskRunnerHandle.Get th' = Try.Ok (Some 12%positive) th' /\
    ThreadTaskRunnerHandle.run_all true (fun _ => false) (reverse cs) th' = Try.Ok tt th.
Proof.
  cbv zeta.
  assert (H1 : ThreadTaskRunnerHandle.tls
                 (ThreadTaskRunnerHandle.mkThread (Some 1%positive)
                    {[ 1%positive := ThreadTaskRunnerHandle.mk (Some 10%positive) ]})
               = Some 1%positive) by reflexivity.
  assert (H2 : ThreadTaskRunnerHandle.handles
                 (ThreadTaskRunnerHandle.mkThread (Some 1%positive)
                    {[ 1%positive := ThreadTaskRunnerHandle.mk (Some 10%positive) ]})
               !! 1%positive
               = Some (ThreadTaskRunnerHandle.mk (Some 10%positive)))
    by (cbn; apply lookup_singleton_eq).
  split; [split; assumption|].
  destruct (nested_overrides_restore_in_LIFO_order true (fun _ => true) (fun _ => false)
              [Some 11%positive; None; Some 12%positive] _ 1%positive (Some 10%positive)
              H1 H2) as (cs & th' & Hrun & _ & _ & _ & Hget & Hback).
  exists cs, th'. split; [exact Hrun|]. split; [exact Hget | exact Hback].
Defined.

(** X22: closures released out of order.  Two overrides with different
    task runners are made one inside the other on a thread whose handle is
    set, and the closure of the outer one is run first.  In a build with
    assertions that run fails at the [DCHECK_EQ] of the restoring lambda.
    Without assertions both closures run, and afterwards [Get()] returns the
    task runner of the first override: the thread does not get back the task
    runner it had. *)
Theorem overrides_released_out_of_order_leave_the_wrong_task_runner :
  forall (DCHECK_IS_ON : bool)
         (SequencedTaskRunnerHandle_IsSet : ThreadTaskRunnerHandle.Thread -> bool)
         (BelongsToCurrentThread : positive -> bool)
         (th : ThreadTaskRunnerHandle.Thread) (h : addr)
         (r0 r1 r2 : ThreadTaskRunnerHandle.TaskRunner),
    ThreadTaskRunnerHandle.tls th = Some h ->
    ThreadTaskRunnerHandle.handles th !! h = Some (ThreadTaskRunnerHandle.mk r0) ->
    r1 <> r2 ->
    exists c1 c2 th2,
      ThreadTaskRunnerHandle.override_all DCHECK_IS_ON SequencedTaskRunnerHandle_IsSet
        BelongsToCurrentThread [r1; r2] th = Try.Ok [c1; c2] th2 /\
      (DCHECK_IS_ON = true ->
         ThreadTaskRunnerHandle.Run DCHECK_IS_ON BelongsToCurrentThread c1 th2
         = Try.Fail (ThreadTaskRunnerHandle.DcheckFailed
                       ThreadTaskRunnerHandle.Restore_expected)) /\
      (DCHECK_IS_ON = false ->
         exists th',
           ThreadTaskRunnerHandle.run_all DCHECK_IS_ON BelongsToCurrentThread [c1; c2] th2
           = Try.Ok tt th' /\
           ThreadTaskRunnerHandle.Get th' = Try.Ok r1 th').
Proof.
  intros D Seq Belongs [s hs] h r0 r1 r2 Htls Hh Hne. cbn in Htls, Hh. subst s.
  eexists _, _, _. split.
  - cbn [ThreadTaskRunnerHandle.override_all]. unfold Try.bind.
    rewrite (OverrideForTesting_set D Seq Belongs hs h r0 r1 Hh).
    rewrite (OverrideForTesting_set D Seq Belongs _ h r1 r2 (lookup_insert_eq _ _ _)).
    reflexivity.
  - rewrite insert_insert_eq. split.
    + intros ->.
      rewrite (Run_restore_unchecked true Belongs _ h r0 r2 r1 (lookup_insert_eq _ _ _)).
      rewrite bool_decide_eq_false_2 by exact Hne. reflexivity.
    + intros ->. eexists. split.
      * cbn [ThreadTaskRunnerHandle.run_all]. unfold Try.bind.
        rewrite (Run_restore_unchecked false Belongs _ h r0 r2 r1 (lookup_insert_eq _ _ _)).
        cbn [andb].
        rewrite (Run_restore_unchecked false Belongs _ h r1 r0 r2 (lookup_insert_eq _ _ _)).
        reflexivity.
      * apply Get_run. apply lookup_insert_eq.
Qed.

Lemma overrides_released_out_of_order_leave_the_wrong_task_runner_witness :
  let th := ThreadTaskRunnerHandle.mkThread
              (Some 1%positive)
              {[ 1%positive := ThreadTaskRunnerHandle.mk (Some 10%positive) ]} in
  (ThreadTaskRunnerHandle.tls th = Some 1%positive /\
   ThreadTaskRunnerHandle.handles th !! 1%positive
   = Some (ThreadTaskRunnerHandle.mk (Some 10%positive)) /\
   Some 11%positive <> Some 12%positive) /\
  exists c1 c2 th2 th',
    ThreadTaskRunnerHandle.override_all false (fun _ => false) (fun _ => true)
      [Some 11%positive; Some 12%positive] th = Try.Ok [c1; c2] th2 /\
    ThreadTaskRunnerHandle.run_all false (fun _ => true) [c1; c2] th2 = Try.Ok tt th' /\
    ThreadTaskRunnerHandle.Get th' = Try.Ok (Some 11%positive) th'.
Proof.
  cbv zeta.
  assert (H1 : ThreadTaskRunnerHandle.tls
                 (ThreadTaskRunnerHandle.mkThread (Some 1%positive)
                    {[ 1%positive := ThreadTaskRunnerHandle.mk (Some 10%positive) ]})
               = Some 1%positive) by reflexivity.
  assert (H2 : ThreadTaskRunnerHandle.handles
                 (ThreadTaskRunnerHandle.mkThread (Some 1%positive)
                    {[ 1%positive := ThreadTaskRunnerHandle.mk (Some 10%positive) ]})
               !! 1%positive
               = Some (ThreadTaskRunnerHandle.mk (Some 10%positive)))
    by (cbn; apply lookup_singleton_eq).
  assert (H3 : Some 11%positive <> Some 12%positive) by discriminate.
  split; [repeat split; assumption|].
  destruct (overrides_released_out_of_order_leave_the_wrong_task_runner
              false (fun _ => false) (fun _ => true) _ 1%positive
              (Some 10%positive) (Some 11%positive) (Some 12%positive) H1 H2 H3)
    as (c1 & c2 & th2 & Hrun & _ & Hoff).
  destruct (Hoff eq_refl) as (th' & Hall & Hget).
  exists c1, c2, th2, th'. split; [exact Hrun|]. split; [exact Hall | exact Hget].
Defined.

(** X23: the first override on a thread without a handle.  [Get()] on such
    a thread fails its CHECK in every build.  [OverrideForTesting] with a
    task runner creates a handle for it (in a build with assertions the task
    runner has to belong to the thread and no sequenced handle may be set):
    afterwards [IsSet()] is true and [Get()] returns that task runner.
    Running the returned closure destroys the handle and leaves the thread
    exactly as it was, without a handle. *)
Theorem top_level_override_sets_and_unsets_the_handle :
  forall (DCHECK_IS_ON : bool)
         (SequencedTaskRunnerHandle_IsSet : ThreadTaskRunnerHandle.Thread -> bool)
         (BelongsToCurrentThread : positive -> bool)
         (th : ThreadTaskRunnerHandle.Thread) (runner : positive),
    ThreadTaskRunnerHandle.tls th = None ->
    (DCHECK_IS_ON = true ->
       BelongsToCurrentThread runner = true /\
       forall th', ThreadTaskRunnerHandle.tls th' = None ->
                   SequencedTaskRunnerHandle_IsSet th' = false) ->
    ThreadTaskRunnerHandle.Get th
    = Try.Fail (ThreadTaskRunnerHandle.CheckFailed ThreadTaskRunnerHandle.Get_current) /\
    exists c th1,
      ThreadTaskRunnerHandle.OverrideForTesting DCHECK_IS_ON SequencedTaskRunnerHandle_IsSet
        BelongsToCurrentThread (Some runner) th = Try.Ok c th1 /\
      ThreadTaskRunnerHandle.IsSet th1 = Try.Ok true th1 /\
      ThreadTaskRunnerHandle.Get th1 = Try.Ok (Some runner) th1 /\
      ThreadTaskRunnerHandle.Run DCHECK_IS_ON BelongsToCurrentThread c th1 = Try.Ok tt th.
Proof.
  intros D Seq Belongs [s hs] runner Htls Hd. cbn in Htls. subst s.
  split; [reflexivity|].
  set (p := fresh (dom hs)).
  assert (Hp : hs !! p = None) by (apply not_elem_of_dom, is_fresh).
  exists (ThreadTaskRunnerHandle.ReleaseTopLevel p),
         (ThreadTaskRunnerHandle.mkThread (Some p)
            (<[p := ThreadTaskRunnerHandle.mk (Some runner)]> hs)).
  split; [|split; [|split]].
  - unfold ThreadTaskRunnerHandle.OverrideForTesting. unfold Try.bind at 1.
    rewrite DCHECK_pass.
    2:{ intros E. unfold Try.bind, Try.gets, Try.ret.
        rewrite (proj2 (Hd E)) by reflexivity. reflexivity. }
    unfold Try.bind at 1, ThreadTaskRunnerHandle.IsSet at 1, Try.gets at 1.
    cbn [ThreadTaskRunnerHandle.tls].
    rewrite bool_decide_eq_false_2 by (intros [? ?]; discriminate).
    cbn [negb]. unfold Try.bind at 1, Try.gets at 1.
    cbn [ThreadTaskRunnerHandle.handles]. fold p.
    unfold Try.bind at 1. rewrite ctor_run; [reflexivity|].
    intros E. destruct (Hd E) as (Hb & Hs). split; [exact Hb | apply Hs; reflexivity].
  - unfold ThreadTaskRunnerHandle.IsSet, Try.gets. cbn [ThreadTaskRunnerHandle.tls].
    rewrite bool_decide_eq_true_2 by (eexists; reflexivity). reflexivity.
  - apply Get_run. apply lookup_insert_eq.
  - cbn [ThreadTaskRunnerHandle.Run].
    rewrite (dtor_run D Belongs _ p runner (lookup_insert_eq _ _ _)).
    + rewrite delete_insert_eq, delete_id by exact Hp. reflexivity.
    + intros E. exact (proj1 (Hd E)).
Qed.

Lemma top_level_override_sets_and_unsets_the_handle_witness :
  let th := ThreadTaskRunnerHandle.mkThread None ∅ in
  let Sequenced := fun th' : ThreadTaskRunnerHandle.Thread =>
                     bool_decide (is_Some (ThreadTaskRunnerHandle.tls th')) in
  (ThreadTaskRunnerHandle.tls th = None /\
   (true = true ->
      (fun _ : positive => true) 10%positive = true /\
      forall th', ThreadTaskRunnerHandle.tls th' = None -> Sequenced th' = false)) /\
  exists c th1,
    ThreadTaskRunnerHandle.OverrideForTesting true Sequenced (fun _ => true)
      (Some 10%positive) th = Try.Ok c th1 /\
    ThreadTaskRunnerHandle.Get th1 = Try.Ok (Some 10%positive) th1 /\
    ThreadTaskRunnerHandle.Run true (fun _ => true) c th1 = Try.Ok tt th.
Proof.
  cbv zeta.
  assert (H1 : ThreadTaskRunnerHandle.tls (ThreadTaskRunnerHandle.mkThread None ∅) = None)
    by reflexivity.
  assert (H2 : true = true ->
               (fun _ : positive => true) 10%positive = true /\
               forall th', ThreadTaskRunnerHandle.tls th' = None ->
                 bool_decide (is_Some (ThreadTaskRunnerHandle.tls th')) = false).
  { intros _. split; [reflexivity|]. intros th' ->.
    apply bool_decide_eq_false_2. intros [? ?]. discriminate. }
  split; [split; assumption|].
  destruct (top_level_override_sets_and_unsets_the_handle true
              (fun th' => bool_decide (is_Some (ThreadTaskRunnerHandle.tls th')))
              (fun _ => true) _ 10%positive H1 H2)
    as (_ & c & th1 & Hrun & _ & Hget & Hback).
  exists c, th1. split; [exact Hrun|]. split; [exact Hget | exact Hback].
Defined.
